(** * Audio-Forge: analysis, parameter mapping and ffmpeg script generation

    A shallow embedding of the logic of [src/components/CyberComponents.tsx]
    (the concatenated sources [types.ts], [App.tsx] and [utils.ts]):

    - [JS]     the part of the JavaScript runtime the code relies on: IEEE-754
               binary64 numbers (the [spec_float] model of the Standard
               Library at precision 53), [Math.round], [Math.floor],
               [Math.sqrt], [Math.log10], [Number.prototype.toFixed],
               number-to-string conversion, [parseFloat], [Array.prototype.sort]
               and a few string methods;
    - [Types]  [AudioConfig], [DEFAULT_CONFIG], [PRESETS], [RANGES];
    - [App]    the scan of a decoded buffer in [runClientAnalysis] and
               [applyPreset];
    - [Utils]  [resolveShellPath] and [generateFFmpegCommand];
    - [Script] a reader of the generated text (lines, the filter graph of the
               [-filter_complex] argument, the shell fallback assignments).

    Definitions come first; the properties are proved in the second half. *)

From Stdlib Require Import ZArith List String Ascii Bool Lia Permutation.
From Stdlib Require Import SpecFloat.
Import ListNotations.

Local Open Scope string_scope.
Local Open Scope Z_scope.

(* ================================================================= *)
(** ** Characters and strings *)

Module Str.

(** The double quote, the line feed and the backslash, written by their
    codes (34, 10 and 92). *)
Definition dquote : ascii := Ascii false true false false false true false false.
Definition lf : ascii := Ascii false true false true false false false false.
Definition backslash : ascii :=
  Ascii false false true true true false true false.

Definition q : string := String dquote EmptyString.
Definition nl : string := String lf EmptyString.
Definition bs : string := String backslash EmptyString.

(** The pieces of a text put together, as a template literal does. *)
Definition cat (pieces : list string) : string :=
  String.concat EmptyString pieces.

Definition chars (s : string) : list ascii := list_ascii_of_string s.

Fixpoint rev_onto (s acc : string) : string :=
  match s with
  | EmptyString => acc
  | String c s' => rev_onto s' (String c acc)
  end.

Definition rev (s : string) : string := rev_onto s EmptyString.

Fixpoint startsWith (p s : string) : bool :=
  match p, s with
  | EmptyString, _ => true
  | String a p', String b s' => Ascii.eqb a b && startsWith p' s'
  | String _ _, EmptyString => false
  end.

Definition endsWith (p s : string) : bool := startsWith (rev p) (rev s).

Fixpoint drop (n : nat) (s : string) : string :=
  match n, s with
  | O, _ => s
  | S n', String _ s' => drop n' s'
  | S _, EmptyString => EmptyString
  end.

Fixpoint take (n : nat) (s : string) : string :=
  match n, s with
  | O, _ => EmptyString
  | S n', String c s' => String c (take n' s')
  | S _, EmptyString => EmptyString
  end.

Fixpoint includes (p s : string) : bool :=
  startsWith p s ||
  match s with
  | EmptyString => false
  | String _ s' => includes p s'
  end.

Fixpoint mem (c : ascii) (s : string) : bool :=
  match s with
  | EmptyString => false
  | String a s' => Ascii.eqb a c || mem c s'
  end.

Fixpoint forallb (f : ascii -> bool) (s : string) : bool :=
  match s with
  | EmptyString => true
  | String a s' => f a && forallb f s'
  end.

Fixpoint repeat (c : ascii) (n : nat) : string :=
  match n with
  | O => EmptyString
  | S n' => String c (repeat c n')
  end.

(** [before c s]: the text of [s] in front of the first [c] (all of [s]
    when there is none); [after c s]: the text behind it. *)
Fixpoint before (c : ascii) (s : string) : string :=
  match s with
  | EmptyString => EmptyString
  | String a s' => if Ascii.eqb a c then EmptyString else String a (before c s')
  end.

Fixpoint after (c : ascii) (s : string) : string :=
  match s with
  | EmptyString => EmptyString
  | String a s' => if Ascii.eqb a c then s' else after c s'
  end.

(** A text of one line. *)
Definition no_lf (s : string) : bool := negb (mem lf s).

(** [glue a ps] puts [a] in front of the first piece of [ps]. *)
Definition glue (a : string) (ps : list string) : list string :=
  match ps with
  | [] => [a]
  | x :: r => (a ++ x) :: r
  end.

(** [split c s]: the pieces of [s] between the occurrences of [c]
    (as [String.prototype.split] with a one-character separator). *)
Fixpoint split (c : ascii) (s : string) : list string :=
  match s with
  | EmptyString => [EmptyString]
  | String a s' =>
      if Ascii.eqb a c then EmptyString :: split c s'
      else glue (String a EmptyString) (split c s')
  end.

Definition lines (s : string) : list string := split lf s.

(** [unlines ls]: the lines joined by line feeds, the way a multi-line
    template literal spells them. *)
Definition unlines (ls : list string) : string := String.concat nl ls.

(** ASCII upper-casing, [String.prototype.toUpperCase] on ASCII text. *)
Definition upper_ascii (c : ascii) : ascii :=
  let n := nat_of_ascii c in
  if (Nat.leb 97 n && Nat.leb n 122)%bool then ascii_of_nat (n - 32) else c.

Fixpoint toUpperCase (s : string) : string :=
  match s with
  | EmptyString => EmptyString
  | String c s' => String (upper_ascii c) (toUpperCase s')
  end.

End Str.

(* ================================================================= *)
(** ** The JavaScript runtime the code relies on *)

Module JS.

(** *** Numbers: IEEE-754 binary64 *)

Definition number : Type := spec_float.

Definition prec : Z := 53.
Definition emax : Z := 1024.

Definition NaN : number := S754_nan.

Definition add : number -> number -> number := SFadd prec emax.
Definition sub : number -> number -> number := SFsub prec emax.
Definition mul : number -> number -> number := SFmul prec emax.
Definition div : number -> number -> number := SFdiv prec emax.

(** [ltb x y] is the JavaScript [x < y] (false when either side is NaN). *)
Definition ltb (x y : number) : bool := SFltb x y.
Definition leb (x y : number) : bool := SFleb x y.
Definition eqb (x y : number) : bool := SFeqb x y.

(** An integer as a number (exact below 2^53, rounded to nearest above). *)
Definition of_Z (z : Z) : number := binary_normalize prec emax z 0 false.
Definition of_nat (n : nat) : number := of_Z (Z.of_nat n).

(** The number denoted by the decimal numeral [m]e[e10]: the binary64 value
    nearest to [m * 10^e10], ties to even (one correctly rounded step). *)
Definition decimal (neg : bool) (m : positive) (e10 : Z) : number :=
  match e10 with
  | Zneg p =>
      let '(q, e', l) :=
        SFdiv_core_binary prec emax (Zpos m) 0 (Z.pow_pos 10 p) 0 in
      binary_round_aux prec emax neg q e' l
  | _ => binary_round prec emax neg (m * Z.to_pos (10 ^ e10)) 0
  end.

(** A numeric literal of the source: [lit 3 (-1)] is [0.3], [lit (-80) 0] is
    [-80]. *)
Definition lit (m : Z) (e10 : Z) : number :=
  match m with
  | Z0 => S754_zero false
  | Zpos p => decimal false p e10
  | Zneg p => decimal true p e10
  end.

(** ToBoolean on a number: [+0], [-0] and [NaN] are falsy. *)
Definition truthy (x : number) : bool :=
  match x with
  | S754_zero _ | S754_nan => false
  | _ => true
  end.

(** [x || d] on numbers. *)
Definition or_else (x d : number) : number := if truthy x then x else d.

(** [floor_scaled n e] is the floor of [n * 2^e]. *)
Definition floor_scaled (n e : Z) : Z :=
  match e with
  | Zneg p => n / Z.pow_pos 2 p
  | _ => n * 2 ^ e
  end.

Definition Math_abs (x : number) : number := SFabs x.

Definition Math_sqrt (x : number) : number := SFsqrt prec emax x.

Definition Math_floor (x : number) : number :=
  match x with
  | S754_finite s m e =>
      if 0 <=? e then x
      else
        let n := floor_scaled (cond_Zopp s (Zpos m)) e in
        if n =? 0 then S754_zero s else of_Z n
  | _ => x
  end.

(** [Math.round]: the nearest integer, ties towards plus infinity. *)
Definition Math_round (x : number) : number :=
  match x with
  | S754_finite s m e =>
      if 0 <=? e then x
      else
        let n := floor_scaled (2 * cond_Zopp s (Zpos m) + 2 ^ (- e)) (e - 1) in
        if n =? 0 then S754_zero s else of_Z n
  | _ => x
  end.

(** A number used as an array index: a non-negative integer, or nothing. *)
Definition to_index_Z (x : number) : option Z :=
  match x with
  | S754_zero _ => Some 0
  | S754_finite false m e =>
      if 0 <=? e then Some (Zpos m * 2 ^ e)
      else if (Zpos m) mod 2 ^ (- e) =? 0 then Some (Zpos m / 2 ^ (- e))
      else None
  | _ => None
  end.

Definition to_index (x : number) : option nat :=
  option_map Z.to_nat (to_index_Z x).

(** *** Decimal digits *)

Definition digit_char (d : Z) : ascii := ascii_of_nat (48 + Z.to_nat d).

Fixpoint digits_fuel (fuel : nat) (n : Z) (acc : string) : string :=
  match fuel with
  | O => acc
  | S f =>
      let acc' := String (digit_char (n mod 10)) acc in
      if n / 10 =? 0 then acc' else digits_fuel f (n / 10) acc'
  end.

(** The decimal digits of a non-negative integer, without leading zeros. *)
Definition digits (n : Z) : string :=
  digits_fuel (S (Z.to_nat (Z.log2 n))) n EmptyString.

Definition zeros (n : Z) : string := Str.repeat "0"%char (Z.to_nat n).

(** [scaled m e p] is the floor of [m * 2^e * 10^p], with the remainder and
    the denominator of the division that gave it. *)
Definition scaled (m : positive) (e p : Z) : Z * Z * Z :=
  let num := Zpos m * (if 0 <=? e then 2 ^ e else 1)
                    * (if 0 <=? p then 10 ^ p else 1) in
  let den := (if 0 <=? e then 1 else 2 ^ (- e))
             * (if 0 <=? p then 1 else 10 ^ (- p)) in
  (num / den, num mod den, den).

Definition below_pow10 (m : positive) (e j : Z) : bool :=
  let '(fl, _, _) := scaled m e (- j) in fl =? 0.

(** The decimal exponent [n] of [v = m * 2^e]: [10^(n-1) <= v < 10^n]. *)
Definition dec_exponent (m : positive) (e : Z) : Z :=
  let b := Zpos (digits2_pos m) + e in
  let n0 := ((b - 1) * 30103) / 100000 - 1 in
  if below_pow10 m e n0 then n0
  else if below_pow10 m e (n0 + 1) then n0 + 1
  else if below_pow10 m e (n0 + 2) then n0 + 2
  else if below_pow10 m e (n0 + 3) then n0 + 3
  else n0 + 4.

(** *** Number::toString (radix 10)

    ECMA-262: [n], [k], [s] with [k] as small as possible such that
    [s * 10^(n-k)] converts back to the number; among several [s] the one
    closest to the number, the even one on a tie. *)

Definition roundtrips (x : number) (s n k : Z) : bool :=
  match s with
  | Zpos p => eqb (decimal false p (n - k)) x
  | _ => false
  end.

Fixpoint shortest_from (fuel : nat) (x : number) (m : positive) (e n : Z)
    (k : Z) : Z * Z * Z :=
  let '(lo, r, den) := scaled m e (k - n) in
  let hi := lo + 1 in
  let pick (s : Z) := if s =? 10 ^ k then (1, 1, n + 1) else (s, k, n) in
  match fuel with
  | O => pick lo
  | S f =>
      match roundtrips x lo n k, roundtrips x hi n k with
      | true, true =>
          match 2 * r ?= den with
          | Lt => pick lo
          | Gt => pick hi
          | Eq => if Z.even lo then pick lo else pick hi
          end
      | true, false => pick lo
      | false, true => pick hi
      | false, false => shortest_from f x m e n (k + 1)
      end
  end.

(** The digits [s], their count [k] and the exponent [n] of a positive
    finite number. *)
Definition shortest (m : positive) (e : Z) : Z * Z * Z :=
  shortest_from 17 (S754_finite false m e) m e (dec_exponent m e) 1.

Definition format_shortest (s : string) (k n : Z) : string :=
  if (k <=? n) && (n <=? 21) then s ++ zeros (n - k)
  else if (0 <? n) && (n <=? 21) then
    Str.take (Z.to_nat n) s ++ "." ++ Str.drop (Z.to_nat n) s
  else if (-6 <? n) && (n <=? 0) then "0." ++ zeros (- n) ++ s
  else
    let e := n - 1 in
    let es := (if e <? 0 then "-" else "+") ++ digits (Z.abs e) in
    if k =? 1 then s ++ "e" ++ es
    else Str.take 1 s ++ "." ++ Str.drop 1 s ++ "e" ++ es.

(** What a template literal or string concatenation makes of a number. *)
Definition toString (x : number) : string :=
  match x with
  | S754_nan => "NaN"
  | S754_zero _ => "0"
  | S754_infinity s => if s then "-Infinity" else "Infinity"
  | S754_finite sg m e =>
      let '(s, k, n) := shortest m e in
      (if sg then "-" else EmptyString) ++ format_shortest (digits s) k n
  end.

(** *** Number.prototype.toFixed *)

(** The integer nearest to [m * 2^e * 10^fd], the larger one on a tie. *)
Definition nearest_scaled (m : positive) (e : Z) (fd : nat) : Z :=
  let M := Zpos m * 10 ^ Z.of_nat fd in
  if 0 <=? e then M * 2 ^ e else floor_scaled (2 * M + 2 ^ (- e)) (e - 1).

(** The digits [ds] of the scaled integer with the decimal point put before
    the last [fd] of them, zero-padded on the left when they are too few. *)
Definition place_point (fd : nat) (ds : string) : string :=
  match fd with
  | O => ds
  | _ =>
      let k := String.length ds in
      let ds' := if Nat.leb k fd then Str.repeat "0"%char (fd + 1 - k) ++ ds
                 else ds in
      let k' := String.length ds' in
      Str.take (k' - fd) ds' ++ "." ++ Str.drop (k' - fd) ds'
  end.

Definition toFixed (fd : nat) (x : number) : string :=
  match x with
  | S754_finite s m e =>
      if ltb (Math_abs x) (of_Z (10 ^ 21)) then
        (if s then "-" else EmptyString)
          ++ place_point fd (digits (nearest_scaled m e fd))
      else toString x
  | S754_zero _ => place_point fd "0"
  | _ => toString x
  end.

(** *** parseFloat *)

Definition is_digit (c : ascii) : bool :=
  let n := nat_of_ascii c in (Nat.leb 48 n && Nat.leb n 57)%bool.

Definition digit_val (c : ascii) : Z := Z.of_nat (nat_of_ascii c - 48).

Fixpoint read_digits (s : string) (acc : Z) (cnt : nat) : Z * nat * string :=
  match s with
  | String c s' =>
      if is_digit c then read_digits s' (10 * acc + digit_val c) (S cnt)
      else (acc, cnt, s)
  | EmptyString => (acc, cnt, s)
  end.

Definition is_space (c : ascii) : bool :=
  let n := nat_of_ascii c in
  (Nat.eqb n 32 || Nat.eqb n 9 || Nat.eqb n 10 || Nat.eqb n 13
   || Nat.eqb n 11 || Nat.eqb n 12)%bool.

Fixpoint trim_start (s : string) : string :=
  match s with
  | String c s' => if is_space c then trim_start s' else s
  | EmptyString => s
  end.

Definition read_sign (s : string) : bool * string :=
  match s with
  | String c s' =>
      if Ascii.eqb c "-" then (true, s')
      else if Ascii.eqb c "+" then (false, s')
      else (false, s)
  | EmptyString => (false, s)
  end.

Definition read_exponent (s : string) : Z :=
  match s with
  | String c s' =>
      if (Ascii.eqb c "e" || Ascii.eqb c "E")%bool then
        let '(eneg, s1) := read_sign s' in
        let '(ev, ne, _) := read_digits s1 0 O in
        match ne with
        | O => 0
        | _ => if eneg then - ev else ev
        end
      else 0
  | EmptyString => 0
  end.

(** [parseFloat]: the longest prefix that is a decimal literal, or NaN. *)
Definition parseFloat (s : string) : number :=
  let '(neg, s0) := read_sign (trim_start s) in
  if Str.startsWith "Infinity" s0 then S754_infinity neg
  else
    let '(ip, ni, s1) := read_digits s0 0 O in
    let '(fp, nf, s2) :=
      match s1 with
      | String c s' =>
          if Ascii.eqb c "." then read_digits s' ip O else (ip, O, s1)
      | EmptyString => (ip, O, s1)
      end in
    match (ni + nf)%nat with
    | O => NaN
    | _ =>
        match fp with
        | Zpos p => decimal neg p (read_exponent s2 - Z.of_nat nf)
        | _ => S754_zero neg
        end
    end.

(** *** Math.log10

    ECMA-262 leaves the result implementation-approximated apart from the
    special cases.  Here: the decimal exponent, then [log10_bits] binary
    digits of the fraction by repeated squaring in fixed point with
    [log10_work] fractional bits, rounded to nearest; an exact power of ten
    gives its exponent exactly. *)

Definition log10_work : Z := 256.
Definition log10_bits : nat := 120.

Fixpoint log10_frac (fuel : nat) (y acc : Z) : Z :=
  match fuel with
  | O => acc
  | S f =>
      let y2 := (y * y) / 2 ^ log10_work in
      if 10 * 2 ^ log10_work <=? y2 then log10_frac f (y2 / 10) (2 * acc + 1)
      else log10_frac f y2 (2 * acc)
  end.

Definition log10_pos (m : positive) (e : Z) : number :=
  let n := dec_exponent m e - 1 in
  let '(y, r, _) := scaled (m * Z.to_pos (2 ^ log10_work)) e (- n) in
  if (y =? 2 ^ log10_work) && (r =? 0) then of_Z n
  else
    let b := log10_frac log10_bits y 0 in
    binary_normalize prec emax
      (2 * (n * 2 ^ Z.of_nat log10_bits + b) + 1)
      (- Z.of_nat log10_bits - 1) false.

Definition Math_log10 (x : number) : number :=
  match x with
  | S754_nan => NaN
  | S754_zero _ => S754_infinity true
  | S754_infinity false => x
  | S754_infinity true => NaN
  | S754_finite true _ _ => NaN
  | S754_finite false m e => log10_pos m e
  end.

(** *** Array.prototype.sort with a comparison function

    An element moves in front of the first element it does not compare
    greater than (a NaN result counts as 0), so equal elements keep their
    order. *)

Definition positive_result (v : number) : bool := ltb (S754_zero false) v.

Fixpoint sort_insert (comparefn : number -> number -> number)
    (x : number) (l : list number) : list number :=
  match l with
  | [] => [x]
  | y :: l' =>
      if positive_result (comparefn x y) then y :: sort_insert comparefn x l'
      else x :: y :: l'
  end.

Definition sort (comparefn : number -> number -> number)
    (l : list number) : list number :=
  fold_right (sort_insert comparefn) [] l.

End JS.

(* ================================================================= *)
(** ** types.ts *)

Module Types.

Import JS.

Record AudioConfig : Type := {
  highpassFreq : number;
  lowpassFreq : number;
  deesserFreq : number;
  deesserAmount : number;
  noiseReduction : number;
  compressionAmount : number;
  loudnormTarget : number;
  loudnormTp : number;
  loudnormLra : number;
  bitrate : number;
  flacCompressionLevel : number
}.

Record AudioAnalysis : Type := {
  estLufs : number;
  peak : number;
  noiseFloor : number;
  duration : number;
  sampleRate : number;
  isEst : bool
}.

Definition DEFAULT_CONFIG : AudioConfig := {|
  highpassFreq := lit 80 0;
  lowpassFreq := lit 12000 0;
  deesserFreq := lit 6000 0;
  deesserAmount := lit 5 (-1);
  noiseReduction := lit 2 (-1);
  compressionAmount := lit 3 (-1);
  loudnormTarget := lit (-19) 0;
  loudnormTp := lit (-30) (-1);
  loudnormLra := lit 11 0;
  bitrate := lit 128 0;
  flacCompressionLevel := lit 6 0
|}.

(** [keyof AudioConfig]. *)
Inductive key : Type :=
  | k_highpassFreq | k_lowpassFreq | k_deesserFreq | k_deesserAmount
  | k_noiseReduction | k_compressionAmount | k_loudnormTarget | k_loudnormTp
  | k_loudnormLra | k_bitrate | k_flacCompressionLevel.

Definition key_eqb (a b : key) : bool :=
  match a, b with
  | k_highpassFreq, k_highpassFreq | k_lowpassFreq, k_lowpassFreq
  | k_deesserFreq, k_deesserFreq | k_deesserAmount, k_deesserAmount
  | k_noiseReduction, k_noiseReduction
  | k_compressionAmount, k_compressionAmount
  | k_loudnormTarget, k_loudnormTarget | k_loudnormTp, k_loudnormTp
  | k_loudnormLra, k_loudnormLra | k_bitrate, k_bitrate
  | k_flacCompressionLevel, k_flacCompressionLevel => true
  | _, _ => false
  end.

Definition all_keys : list key :=
  [k_highpassFreq; k_lowpassFreq; k_deesserFreq; k_deesserAmount;
   k_noiseReduction; k_compressionAmount; k_loudnormTarget; k_loudnormTp;
   k_loudnormLra; k_bitrate; k_flacCompressionLevel].

(** [config[key]]. *)
Definition get (k : key) (c : AudioConfig) : number :=
  match k with
  | k_highpassFreq => highpassFreq c
  | k_lowpassFreq => lowpassFreq c
  | k_deesserFreq => deesserFreq c
  | k_deesserAmount => deesserAmount c
  | k_noiseReduction => noiseReduction c
  | k_compressionAmount => compressionAmount c
  | k_loudnormTarget => loudnormTarget c
  | k_loudnormTp => loudnormTp c
  | k_loudnormLra => loudnormLra c
  | k_bitrate => bitrate c
  | k_flacCompressionLevel => flacCompressionLevel c
  end.

(** [{ ...c, [key]: v }]. *)
Definition set (k : key) (v : number) (c : AudioConfig) : AudioConfig :=
  {| highpassFreq := if key_eqb k k_highpassFreq then v else highpassFreq c;
     lowpassFreq := if key_eqb k k_lowpassFreq then v else lowpassFreq c;
     deesserFreq := if key_eqb k k_deesserFreq then v else deesserFreq c;
     deesserAmount := if key_eqb k k_deesserAmount then v else deesserAmount c;
     noiseReduction :=
       if key_eqb k k_noiseReduction then v else noiseReduction c;
     compressionAmount :=
       if key_eqb k k_compressionAmount then v else compressionAmount c;
     loudnormTarget :=
       if key_eqb k k_loudnormTarget then v else loudnormTarget c;
     loudnormTp := if key_eqb k k_loudnormTp then v else loudnormTp c;
     loudnormLra := if key_eqb k k_loudnormLra then v else loudnormLra c;
     bitrate := if key_eqb k k_bitrate then v else bitrate c;
     flacCompressionLevel :=
       if key_eqb k k_flacCompressionLevel then v else flacCompressionLevel c
  |}.

(** [Partial<AudioConfig>]: the properties an object literal lists, in its
    order. *)
Definition PartialAudioConfig : Type := list (key * number).

(** [{ ...c, ...p }]: every property of [p] is copied over [c]. *)
Definition spread (c : AudioConfig) (p : PartialAudioConfig) : AudioConfig :=
  fold_left (fun acc kv => set (fst kv) (snd kv) acc) p c.

Definition listed (k : key) (p : PartialAudioConfig) : bool :=
  existsb (fun kv => key_eqb (fst kv) k) p.

Record AudioPreset : Type := {
  id : string;
  name : string;
  description : string;
  config : PartialAudioConfig
}.

Definition PRESETS : list AudioPreset := [
  {| id := "acx";
     name := "ACX Standard";
     description := "Meets Audible requirements (-19 LUFS, -3dB TP)";
     config := [(k_loudnormTarget, lit (-20) 0);
                (k_loudnormTp, lit (-30) (-1));
                (k_highpassFreq, lit 80 0);
                (k_compressionAmount, lit 3 (-1))] |};
  {| id := "warm";
     name := "Warm Narrator";
     description := "Enhanced low-mids, gentle processing";
     config := [(k_highpassFreq, lit 60 0);
                (k_lowpassFreq, lit 8000 0);
                (k_compressionAmount, lit 2 (-1));
                (k_loudnormTarget, lit (-20) 0)] |};
  {| id := "clear";
     name := "Crystal Clear";
     description := "Bright and articulate, good for non-fiction";
     config := [(k_highpassFreq, lit 90 0);
                (k_lowpassFreq, lit 14000 0);
                (k_deesserAmount, lit 7 (-1));
                (k_compressionAmount, lit 4 (-1))] |};
  {| id := "home";
     name := "Home Studio Fix";
     description := "Heavier noise reduction for untreated rooms";
     config := [(k_noiseReduction, lit 6 (-1));
                (k_highpassFreq, lit 100 0);
                (k_compressionAmount, lit 5 (-1))] |};
  {| id := "radio";
     name := "Radio Ready";
     description := "Compressed, punchy, loud";
     config := [(k_loudnormTarget, lit (-16) 0);
                (k_loudnormTp, lit (-10) (-1));
                (k_compressionAmount, lit 8 (-1));
                (k_lowpassFreq, lit 10000 0)] |}
].

(** An entry of [RANGES]; the bounds and the step are decimal numerals,
    kept as mantissa and decimal exponent. *)
Record range : Type := {
  min : Z * Z;
  max : Z * Z;
  step : Z * Z;
  label : string
}.

Definition RANGES (k : key) : option range :=
  match k with
  | k_highpassFreq =>
      Some {| min := (20, 0); max := (200, 0); step := (5, 0);
              label := "Rumble Cutoff (Hz)" |}
  | k_lowpassFreq =>
      Some {| min := (2000, 0); max := (16000, 0); step := (100, 0);
              label := "Clarity Ceiling (Hz)" |}
  | k_deesserFreq =>
      Some {| min := (4000, 0); max := (8000, 0); step := (100, 0);
              label := "Sibilance Freq (Hz)" |}
  | k_deesserAmount =>
      Some {| min := (0, 0); max := (1, 0); step := (1, -1);
              label := "De-esser Strength" |}
  | k_noiseReduction =>
      Some {| min := (0, 0); max := (1, 0); step := (5, -2);
              label := "Noise Reduction" |}
  | k_compressionAmount =>
      Some {| min := (0, 0); max := (1, 0); step := (1, -1);
              label := "Compression Style" |}
  | k_loudnormTarget =>
      Some {| min := (-30, 0); max := (-14, 0); step := (5, -1);
              label := "LUFS Target" |}
  | k_loudnormTp =>
      Some {| min := (-60, -1); max := (-1, -1); step := (1, -1);
              label := "True Peak Limit (dB)" |}
  | k_bitrate =>
      Some {| min := (96, 0); max := (256, 0); step := (32, 0);
              label := "Bitrate (kbps)" |}
  | k_flacCompressionLevel =>
      Some {| min := (0, 0); max := (12, 0); step := (1, 0);
              label := "Intermediate FLAC Level" |}
  | k_loudnormLra => None
  end.

(** The values a range input with these bounds and step can hand to
    [parseFloat]: the decimal numerals [min + i * step] up to [max]. *)
Definition rescale (d : Z * Z) (e : Z) : Z := fst d * 10 ^ (snd d - e).

Definition slider_values (r : range) : list number :=
  let e := Z.min (snd (min r)) (Z.min (snd (max r)) (snd (step r))) in
  let lo := rescale (min r) e in
  let hi := rescale (max r) e in
  let st := rescale (step r) e in
  List.map (fun i => lit (lo + Z.of_nat i * st) e)
           (seq 0 (S (Z.to_nat ((hi - lo) / st)))).

End Types.

(* ================================================================= *)
(** ** App.tsx: the scan of a decoded buffer and the presets *)

Module App.

Import JS Types.

(** The React state the two handlers read and write. *)
Record state : Type := {
  config : AudioConfig;
  analysis : option AudioAnalysis;
  terminalLog : list string
}.

(** [setTerminalLog(prev => [...prev.slice(-6), `> ${msg}`])]. *)
Definition addLog (msg : string) (st : state) : state :=
  {| config := config st;
     analysis := analysis st;
     terminalLog :=
       skipn (List.length (terminalLog st) - 6) (terminalLog st) ++ ["> " ++ msg] |}.

Definition setConfig (f : AudioConfig -> AudioConfig) (st : state) : state :=
  {| config := f (config st);
     analysis := analysis st;
     terminalLog := terminalLog st |}.

Definition setAnalysis (a : AudioAnalysis) (st : state) : state :=
  {| config := config st;
     analysis := Some a;
     terminalLog := terminalLog st |}.

Definition updateConfig (k : key) (value : number) (st : state) : state :=
  setConfig (fun prev => set k value prev) st.

Definition applyPreset (presetId : string) (st : state) : state :=
  match find (fun p => String.eqb (id p) presetId) PRESETS with
  | Some preset =>
      addLog ("PRESET APPLIED: " ++ Str.toUpperCase (name preset))
        (setConfig (fun prev => spread prev (Types.config preset)) st)
  | None => st
  end.

(** What [decodeAudioData] hands over: the samples of channel 0, the
    duration and the sample rate. *)
Record AudioBuffer : Type := {
  channelData0 : list number;
  buffer_duration : number;
  buffer_sampleRate : number
}.

Definition windowSize : nat := 4096.

Definition CHUNK_SIZE : Z := 50 * 1024 * 1024.

(** The variables of the inner loop: [windowSum], [count] and the two
    accumulators [sumSquares] and [peak] shared with the outer loop. *)
Record window_vars : Type := {
  windowSum : number;
  count : nat;
  w_sumSquares : number;
  w_peak : number
}.

(** The variables of the outer loop. *)
Record scan_vars : Type := {
  sumSquares : number;
  peak : number;
  rmsWindows : list number
}.

(** [for (let j = 0; j < windowSize && i + j < rawData.length; j++)],
    started at [j]; [fuel] bounds the number of iterations. *)
Fixpoint window_loop (fuel : nat) (rawData : list number) (i j : nat)
    (v : window_vars) : window_vars :=
  match fuel with
  | O => v
  | S f =>
      if (Nat.ltb j windowSize && Nat.ltb (i + j) (List.length rawData))%bool then
        let val := nth (i + j) rawData NaN in
        let abs := Math_abs val in
        window_loop f rawData i (S j)
          {| windowSum := add (windowSum v) (mul val val);
             count := S (count v);
             w_sumSquares := add (w_sumSquares v) (mul val val);
             w_peak := if ltb (w_peak v) abs then abs else w_peak v |}
      else v
  end.

(** [for (let i = 0; i < rawData.length; i += windowSize)], started at [i]. *)
Fixpoint scan_loop (fuel : nat) (rawData : list number) (i : nat)
    (s : scan_vars) : scan_vars :=
  match fuel with
  | O => s
  | S f =>
      if Nat.ltb i (List.length rawData) then
        let w :=
          window_loop windowSize rawData i O
            {| windowSum := lit 0 0; count := O;
               w_sumSquares := sumSquares s; w_peak := peak s |} in
        scan_loop f rawData (i + windowSize)
          {| sumSquares := w_sumSquares w;
             peak := w_peak w;
             rmsWindows :=
               if Nat.ltb 0 (count w) then
                 rmsWindows s
                   ++ [Math_sqrt (div (windowSum w) (of_nat (count w)))]
               else rmsWindows s |}
      else s
  end.

(** The two loops over the whole buffer; every iteration of the outer loop
    advances [i] by [windowSize], so [length rawData] iterations are enough. *)
Definition scan (rawData : list number) : scan_vars :=
  scan_loop (List.length rawData) rawData O
    {| sumSquares := lit 0 0; peak := lit 0 0; rmsWindows := [] |}.

(** [rmsWindows[Math.floor(rmsWindows.length * 0.1)]], [None] for
    [undefined]. *)
Definition decile (sorted : list number) : option number :=
  match to_index (Math_floor (mul (of_nat (List.length sorted)) (lit 1 (-1)))) with
  | Some i => nth_error sorted i
  | None => None
  end.

(** Step 4 of [runClientAnalysis]: the report computed from the decoded
    buffer. *)
Definition analyse (fileSize : Z) (audioBuffer : AudioBuffer)
    : AudioAnalysis :=
  let rawData := channelData0 audioBuffer in
  let s := scan rawData in
  let rms := Math_sqrt (div (sumSquares s) (of_nat (List.length rawData))) in
  let dbRMS := mul (lit 20 0) (Math_log10 (or_else rms (lit 1 (-8)))) in
  let dbPeak := mul (lit 20 0) (Math_log10 (or_else (peak s) (lit 1 (-8)))) in
  let sorted := sort sub (rmsWindows s) in
  let noiseRms :=
    match decile sorted with
    | Some v => or_else v (lit 1 (-7))
    | None => lit 1 (-7)
    end in
  let dbNoise := mul (lit 20 0) (Math_log10 noiseRms) in
  {| estLufs := parseFloat (toFixed 1 dbRMS);
     Types.peak := parseFloat (toFixed 1 dbPeak);
     noiseFloor := parseFloat (toFixed 1 dbNoise);
     duration := buffer_duration audioBuffer;
     sampleRate := buffer_sampleRate audioBuffer;
     isEst := CHUNK_SIZE <? fileSize |}.

(** [runClientAnalysis]: [sourceFile] is the size in bytes of the loaded
    file, if any; [decoded] is what [decodeAudioData] does with its bytes, the
    message of the exception it throws or the buffer it resolves to. *)
Definition runClientAnalysis (sourceFile : option Z)
    (decoded : string + AudioBuffer) (st : state) : state :=
  match sourceFile with
  | None => addLog "ERROR: NO SOURCE FILE LOADED IN BROWSER MEMORY" st
  | Some fileSize =>
      let st1 := addLog "INITIALIZING AUDIO CONTEXT SCAN..." st in
      let byteLength :=
        if fileSize <? CHUNK_SIZE then fileSize else CHUNK_SIZE in
      let st2 :=
        addLog ("DECODING "
                ++ toString (Math_round
                     (div (div (of_Z byteLength) (lit 1024 0)) (lit 1024 0)))
                ++ "MB DATA...") st1 in
      match decoded with
      | inr audioBuffer =>
          addLog "ANALYSIS SUCCESSFUL"
            (setAnalysis (analyse fileSize audioBuffer) st2)
      | inl message =>
          addLog "TIP: If scanning M4B, 'moov' atom might be missing from start."
            (addLog ("SCAN ERROR: "
                     ++ (if String.eqb message EmptyString
                         then "Invalid Format/Codec" else message)) st2)
      end
  end.

End App.

(* ================================================================= *)
(** ** utils.ts: the ffmpeg script generator *)

Module Utils.

Import JS Types.

Local Abbreviation Q := Str.q.
Local Abbreviation B := Str.bs.
Local Abbreviation cat := Str.cat.

(** Replaces a leading [~/] by [$HOME/]. *)
Definition resolveShellPath (path : string) : string :=
  if String.eqb path EmptyString then path
  else if Str.startsWith "~/" path then "$HOME/" ++ Str.drop 2 path
  else path.

(** [s || d] on strings: the empty string is falsy. *)
Definition str_or (s d : string) : string :=
  if String.eqb s EmptyString then d else s.

(** [s || d] for an optional string argument. *)
Definition opt_or (s : option string) (d : string) : string :=
  match s with
  | Some v => str_or v d
  | None => d
  end.


(** *** The mappings *)

Definition nr (config : AudioConfig) : number :=
  Math_round (mul (noiseReduction config) (lit 40 0)).

Definition nf (config : AudioConfig) : number :=
  Math_round (add (lit (-80) 0) (mul (noiseReduction config) (lit 40 0))).

Definition afftdn (config : AudioConfig) : string :=
  cat ["afftdn=nr="; toString (nr config); ":nf="; toString (nf config);
       ":tn=1"].

Definition ratio (config : AudioConfig) : number :=
  add (lit 2 0) (mul (compressionAmount config) (lit 3 0)).

Definition attack (config : AudioConfig) : number :=
  sub (lit 20 0) (mul (compressionAmount config) (lit 18 0)).

Definition release (config : AudioConfig) : number :=
  sub (lit 250 0) (mul (compressionAmount config) (lit 200 0)).

Definition makeup (config : AudioConfig) : number :=
  add (lit 2 0) (mul (compressionAmount config) (lit 2 0)).

Definition compressor (config : AudioConfig) : string :=
  cat ["acompressor=threshold=-20dB:ratio="; toFixed 1 (ratio config);
       ":attack="; toFixed 1 (attack config);
       ":release="; toFixed 0 (release config);
       ":makeup="; toFixed 1 (makeup config)].

Definition deesserFreqVal (config : AudioConfig) : string :=
  toFixed 3 (div (deesserFreq config) (lit 22050 0)).

Definition deesser (config : AudioConfig) : string :=
  cat ["deesser=i="; toFixed 2 (deesserAmount config); ":m=0.5:f=";
       deesserFreqVal config; ":s=o"].

Definition limiter (config : AudioConfig) : string :=
  cat ["alimiter=limit="; toString (loudnormTp config);
       "dB:attack=5:release=50"].

Definition highpass (config : AudioConfig) : string :=
  cat ["highpass=f="; toString (highpassFreq config); ":poles=2"].

Definition lowpass (config : AudioConfig) : string :=
  cat ["lowpass=f="; toString (lowpassFreq config); ":poles=2"].

Definition click : string := "adeclick=w=55:o=75:t=25".

(** *** The two templates

    Each template literal is spelled line by line; [Q] is the double quote
    and [B] the backslash of the produced text. *)

Definition full_lines (config : AudioConfig) (safeInput safeOutput : string)
    : list string :=
  [
    "#!/bin/bash";
    "# VOICE ENHANCEMENT STUDIO - AUDIOBOOK MASTERING SCRIPT (FLAC Workflow)";
    EmptyString;
    cat ["INPUT="; Q; safeInput; Q];
    cat ["OUTPUT="; Q; safeOutput; Q];
    cat ["TEMP_FLAC="; Q; "/tmp/temp_analysis_$(date +%s).flac"; Q];
    EmptyString;
    cat ["echo "; Q; ">> 🎧 PHASE 1: ANALYSIS & MEASUREMENT"; Q];
    cat ["# Extract to temporary FLAC (Lossless, Compressed Level ";
         toString (flacCompressionLevel config); ")"];
    "# -map_metadata 0 preserves chapters and tags from source";
    "# -nostdin prevents ffmpeg from consuming the rest of this script as input";
    cat ["echo "; Q; "   ...extracting to intermediate FLAC..."; Q];
    cat ["ffmpeg -nostdin -v warning -i "; Q; "$INPUT"; Q;
         " -vn -acodec flac -compression_level ";
         toString (flacCompressionLevel config); " -ar 44100 -map_metadata 0 ";
         Q; "$TEMP_FLAC"; Q; " -y"];
    EmptyString;
    "# Analyze loudness and noise floor from FLAC";
    cat ["echo "; Q; "   ...measuring dynamics and spectrum..."; Q];
    cat ["LOUDNESS_DATA=$(ffmpeg -nostdin -i "; Q; "$TEMP_FLAC"; Q;
         " -af loudnorm=I="; toString (loudnormTarget config); ":TP=";
         toString (loudnormTp config); ":LRA="; toString (loudnormLra config);
         ":print_format=json -f null - 2>&1 | grep -A 12 "; Q; "loudnorm"; Q;
         " | tail -n 12)"];
    EmptyString;
    "# Extract measured values";
    "# Uses escaped newline for tr to prevent multiline syntax errors in bash";
    cat ["MEASURED_I=$(echo "; Q; "$LOUDNESS_DATA"; Q; " | grep '"; Q;
         "input_i"; Q; "' | cut -d : -f 2 | tr -d '"; Q; ", "; B; "n')"];
    cat ["MEASURED_TP=$(echo "; Q; "$LOUDNESS_DATA"; Q; " | grep '"; Q;
         "input_tp"; Q; "' | cut -d : -f 2 | tr -d '"; Q; ", "; B; "n')"];
    cat ["MEASURED_LRA=$(echo "; Q; "$LOUDNESS_DATA"; Q; " | grep '"; Q;
         "input_lra"; Q; "' | cut -d : -f 2 | tr -d '"; Q; ", "; B; "n')"];
    cat ["MEASURED_THRESH=$(echo "; Q; "$LOUDNESS_DATA"; Q; " | grep '"; Q;
         "input_thresh"; Q; "' | cut -d : -f 2 | tr -d '"; Q; ", "; B; "n')"];
    cat ["OFFSET=$(echo "; Q; "$LOUDNESS_DATA"; Q; " | grep '"; Q;
         "target_offset"; Q; "' | cut -d : -f 2 | tr -d '"; Q; ", "; B; "n')"];
    EmptyString;
    cat ["echo "; Q;
         "   ...Captured: I=$MEASURED_I TP=$MEASURED_TP LRA=$MEASURED_LRA"; Q];
    EmptyString;
    "# Fallback values in case analysis failed (prevents syntax errors in next step)";
    cat [": ${MEASURED_I:="; toString (loudnormTarget config); "}"];
    cat [": ${MEASURED_TP:="; toString (loudnormTp config); "}"];
    cat [": ${MEASURED_LRA:="; toString (loudnormLra config); "}"];
    ": ${MEASURED_THRESH:=-70.0}";
    ": ${OFFSET:=0.0}";
    EmptyString;
    cat ["echo "; Q; ">> 🎹 PHASE 2: PRECISION PROCESSING"; Q];
    "# Process from the intermediate FLAC";
    "# Map metadata from it to ensure chapters are preserved";
    cat ["ffmpeg -nostdin -i "; Q; "$TEMP_FLAC"; Q; " -filter_complex "; Q; B];
    cat ["[0:a]aformat=sample_fmts=fltp:sample_rates=44100:channel_layouts=stereo,";
         B];
    cat [highpass config; ","; B];
    cat [afftdn config; ","; B];
    cat [lowpass config; ","; B];
    cat [click; ","; B];
    cat [deesser config; ","; B];
    cat [compressor config; ","; B];
    cat ["loudnorm=I="; toString (loudnormTarget config); ":TP=";
         toString (loudnormTp config); ":LRA="; toString (loudnormLra config);
         ":measured_I=$MEASURED_I:measured_TP=$MEASURED_TP:measured_LRA=$MEASURED_LRA:measured_thresh=$MEASURED_THRESH:offset=$OFFSET:linear=true:print_format=summary,";
         B];
    cat [limiter config; ","; B];
    cat ["aformat=channel_layouts=mono[out]"; Q; " "; B];
    cat ["-map "; Q; "[out]"; Q; " "; B];
    cat ["-vn -map_metadata 0 "; B];
    cat ["-c:a aac -b:a "; toString (bitrate config);
         "k -movflags +faststart "; B];
    cat [Q; "$OUTPUT"; Q];
    EmptyString;
    "# Cleanup";
    cat ["rm "; Q; "$TEMP_FLAC"; Q];
    cat ["echo "; Q; ">> ✅ PROCESSING COMPLETE: $OUTPUT"; Q];
    EmptyString
  ].

Definition full_script (config : AudioConfig) (safeInput safeOutput : string)
    : string :=
  Str.unlines (full_lines config safeInput safeOutput).

Definition preview_lines (config : AudioConfig)
    (safeInput safeOutput : string) (duration : number) : list string :=
  [
    cat ["ffmpeg -nostdin -ss 00:05:00 -i "; Q; safeInput; Q; " -t ";
         toString duration; " "; B];
    cat ["-filter_complex "; Q; B];
    cat ["[0:a]aformat=sample_fmts=fltp:sample_rates=44100:channel_layouts=stereo,";
         B];
    cat [highpass config; ","; afftdn config; ","; lowpass config; ","; click;
         ","; deesser config; ","; compressor config; ","; B];
    cat ["loudnorm=I="; toString (loudnormTarget config); ":TP=";
         toString (loudnormTp config); ":LRA="; toString (loudnormLra config);
         ","; B];
    cat [limiter config; ",aformat=channel_layouts=mono"; Q; " "; B];
    cat ["-vn -c:a aac -b:a "; toString (bitrate config); "k "; Q; safeOutput;
         Q]
  ].

Definition preview_script (config : AudioConfig)
    (safeInput safeOutput : string) (duration : number) : string :=
  Str.unlines (preview_lines config safeInput safeOutput duration).

Definition generateFFmpegCommand (config : AudioConfig) (inputPath : string)
    (mode : string) (outputFilePath : option string) : string :=
  let inputFile := str_or inputPath "input.m4b" in
  let safeInput := resolveShellPath inputFile in
  if String.eqb mode "full" then
    let safeOutput :=
      resolveShellPath (opt_or outputFilePath "processed_audiobook.m4b") in
    full_script config safeInput safeOutput
  else
    let duration :=
      if String.eqb mode "test-45s" then lit 45 0 else lit 10 0 in
    let suffix :=
      if String.eqb mode "test-45s" then "-preview-45s.m4b"
      else "-preview-10s.m4b" in
    let outputName := opt_or outputFilePath ("preview" ++ suffix) in
    let safeOutput := resolveShellPath outputName in
    preview_script config safeInput safeOutput duration.

End Utils.

(* ================================================================= *)
(** ** Reading the generated text

    What a shell and ffmpeg make of the script: its lines, the filter graph
    handed to [-filter_complex] with the filters of its chain and their
    options, the [: ${NAME:=VALUE}] default assignments, the phase banners
    and the commands. *)

Module Script.

Import Str.

(** The lines of the graph: from the line that opens with the input pad
    [[0:a]] to the line that holds the closing double quote. *)
Fixpoint from_input_pad (ls : list string) : list string :=
  match ls with
  | [] => []
  | l :: r => if startsWith "[0:a]" l then ls else from_input_pad r
  end.

Fixpoint to_closing_quote (ls : list string) : list string :=
  match ls with
  | [] => []
  | l :: r => if mem dquote l then [l] else l :: to_closing_quote r
  end.

(** A line of the quoted argument without the closing quote and without the
    backslash that continues it on the next line. *)
Definition graph_text (l : string) : string :=
  before backslash (before dquote l).

Definition filter_graph (script : string) : string :=
  cat (List.map graph_text (to_closing_quote (from_input_pad (lines script)))).

(** A filter of the chain without its link labels:
    [[in]name=options[out]] gives [name=options]. *)
Definition strip_pads (f : string) : string :=
  before "["%char (if startsWith "[" f then after "]"%char f else f).

(** The filters of the chain, in order. *)
Definition filters (script : string) : list string :=
  List.map strip_pads (split ","%char (filter_graph script)).

Definition filter_name (f : string) : string := before "="%char f.

Definition filter_options (f : string) : list (string * string) :=
  List.map (fun kv => (before "="%char kv, after "="%char kv))
           (split ":"%char (after "="%char f)).

Definition stage_names (script : string) : list string :=
  List.map filter_name (filters script).

Fixpoint assoc (k : string) (kvs : list (string * string)) : option string :=
  match kvs with
  | [] => None
  | (k', v) :: r => if String.eqb k' k then Some v else assoc k r
  end.

(** The value of option [k] of the first filter called [name]. *)
Definition filter_option (script name k : string) : option string :=
  match List.find (fun f => String.eqb (filter_name f) name) (filters script)
  with
  | Some f => assoc k (filter_options f)
  | None => None
  end.

(** [: ${NAME:=VALUE}] gives [(NAME, VALUE)]: the shell assigns [VALUE] to
    [NAME] when [NAME] is unset or empty. *)
Definition fallback_of_line (l : string) : option (string * string) :=
  if startsWith ": ${" l then
    let body := drop 4 l in
    Some (before ":"%char body, before "}"%char (after "="%char body))
  else None.

Fixpoint collect {A B : Type} (f : A -> option B) (l : list A) : list B :=
  match l with
  | [] => []
  | x :: r =>
      match f x with
      | Some y => y :: collect f r
      | None => collect f r
      end
  end.

Definition fallbacks (script : string) : list (string * string) :=
  collect fallback_of_line (lines script).

(** The banner that announces a phase: [echo ">> ... PHASE n: title"] gives
    [PHASE n: title]. *)
Definition PHASE : string := "PHASE".

Fixpoint from_word (w s : string) : option string :=
  if startsWith w s then Some s
  else
    match s with
    | EmptyString => None
    | String _ s' => from_word w s'
    end.

Definition phase_of_line (l : string) : option string :=
  if startsWith ("echo " ++ q ++ ">> ") l then
    match from_word PHASE l with
    | Some t => Some (before dquote t)
    | None => None
    end
  else None.

Definition phases (script : string) : list string :=
  collect phase_of_line (lines script).

(** The lines after the last phase banner. *)
Fixpoint last_phase_lines (ls : list string) (acc : list string)
    : list string :=
  match ls with
  | [] => acc
  | l :: r =>
      match phase_of_line l with
      | Some _ => last_phase_lines r r
      | None => last_phase_lines r acc
      end
  end.

(** The [rm] commands of the last phase. *)
Definition cleanup (script : string) : list string :=
  List.filter (startsWith "rm ") (last_phase_lines (lines script) []).



End Script.

(* ================================================================= *)
(** ** Reading a text through its pieces

    A text put together from pieces, each of a known kind: a chunk of a
    template literal, the text of a number, or a path.  The reading
    functions of [Str] and [Script] are mirrored on such pieces; they look
    into the chunks only and give up ([None]) where the answer would depend
    on what a number or a path spells. *)

Module Tagged.

Import Str.

Inductive piece : Type :=
  | Lit (s : string)
  | Num (s : string)
  | Path (s : string).

Definition text (p : piece) : string :=
  match p with
  | Lit s | Num s | Path s => s
  end.

Definition render (ps : list piece) : string := cat (List.map text ps).

(** The bytes the text of a number is made of. *)
Definition numeric_char (c : ascii) : bool :=
  JS.is_digit c || mem c ".-+eInfinityNaN".

(** What is known of a piece: the text of a number is numeric, a path has
    no line feed. *)
Definition wf (p : piece) : bool :=
  match p with
  | Lit _ => true
  | Num s => forallb numeric_char s
  | Path s => no_lf s
  end.

(** Whether [c] occurs in the piece, when its kind tells. *)
Definition holds (c : ascii) (p : piece) : option bool :=
  match p with
  | Lit s => Some (mem c s)
  | Num _ => if numeric_char c then None else Some false
  | Path _ => if Ascii.eqb c lf then Some false else None
  end.

Fixpoint pmem (c : ascii) (ps : list piece) : option bool :=
  match ps with
  | [] => Some false
  | p :: r =>
      match holds c p with
      | Some true => Some true
      | Some false => pmem c r
      | None => None
      end
  end.

Fixpoint pbefore (c : ascii) (ps : list piece) : option (list piece) :=
  match ps with
  | [] => Some []
  | p :: r =>
      match holds c p with
      | Some true => Some [Lit (before c (text p))]
      | Some false => option_map (cons p) (pbefore c r)
      | None => None
      end
  end.

Fixpoint pafter (c : ascii) (ps : list piece) : option (list piece) :=
  match ps with
  | [] => Some []
  | p :: r =>
      match holds c p with
      | Some true => Some (Lit (after c (text p)) :: r)
      | Some false => pafter c r
      | None => None
      end
  end.

(** [attach xs gs]: the parts [xs] of a piece that was split, in front of
    the groups [gs] of what follows: every part but the last is a group of
    its own, the last joins the first group of [gs]. *)
Fixpoint attach {A : Type} (xs : list A) (gs : list (list A))
    : list (list A) :=
  match xs with
  | [] => gs
  | x :: xs' =>
      match xs' with
      | [] =>
          match gs with
          | g :: r => (x :: g) :: r
          | [] => [[x]]
          end
      | _ :: _ => [x] :: attach xs' gs
      end
  end.

Fixpoint psplit (c : ascii) (ps : list piece) : option (list (list piece)) :=
  match ps with
  | [] => Some [[]]
  | p :: r =>
      match holds c p, psplit c r with
      | Some true, Some gs => Some (attach (List.map Lit (split c (text p))) gs)
      | Some false, Some gs => Some (attach [p] gs)
      | _, _ => None
      end
  end.

(** Whether the text starts with [w], told by its leading chunks. *)
Fixpoint pstarts (w : string) (ps : list piece) : option bool :=
  match w with
  | EmptyString => Some true
  | String _ _ =>
      match ps with
      | [] => Some false
      | Lit s :: r =>
          if Nat.leb (String.length w) (String.length s)
          then Some (startsWith w s)
          else if startsWith (take (String.length s) w) s
               then pstarts (drop (String.length s) w) r
               else Some false
      | _ :: _ => None
      end
  end.

(** The text without its first [n] bytes, when they lie in the first
    chunk. *)
Definition pdrop (n : nat) (ps : list piece) : option (list piece) :=
  match ps with
  | Lit s :: r =>
      if Nat.leb n (String.length s) then Some (Lit (drop n s) :: r) else None
  | _ => match n with O => Some ps | _ => None end
  end.

Definition bind {A B : Type} (x : option A) (f : A -> option B) : option B :=
  match x with
  | Some a => f a
  | None => None
  end.

Fixpoint mapM {A B : Type} (f : A -> option B) (l : list A)
    : option (list B) :=
  match l with
  | [] => Some []
  | x :: r =>
      bind (f x) (fun y => bind (mapM f r) (fun ys => Some (y :: ys)))
  end.

(** *** The functions of [Script] on lines given by their pieces *)

Abbreviation line := (list piece).

Fixpoint from_input_pad (ls : list line) : option (list line) :=
  match ls with
  | [] => Some []
  | l :: r =>
      bind (pstarts "[0:a]" l)
           (fun b => if b then Some ls else from_input_pad r)
  end.

Fixpoint to_closing_quote (ls : list line) : option (list line) :=
  match ls with
  | [] => Some []
  | l :: r =>
      bind (pmem dquote l)
           (fun b => if b then Some [l]
                     else option_map (cons l) (to_closing_quote r))
  end.

Definition graph_text (l : line) : option line :=
  bind (pbefore dquote l) (pbefore backslash).

Definition filter_graph (ls : list line) : option line :=
  bind (from_input_pad ls) (fun a =>
  bind (to_closing_quote a) (fun b =>
  option_map (@List.concat piece) (mapM graph_text b))).

Definition strip_pads (f : line) : option line :=
  bind (pstarts "[" f) (fun b =>
  bind (if b then pafter "]"%char f else Some f) (pbefore "["%char)).

Definition filters (ls : list line) : option (list line) :=
  bind (filter_graph ls) (fun g =>
  bind (psplit ","%char g) (mapM strip_pads)).

Definition filter_name (f : line) : option line := pbefore "="%char f.

Definition stage_names (ls : list line) : option (list line) :=
  bind (filters ls) (mapM filter_name).

Definition is_lit (p : piece) : bool :=
  match p with
  | Lit _ => true
  | _ => false
  end.

(** A reading that needs the whole line is done on the text itself when
    the line is made of chunks only. *)
Definition on_text {A : Type} (f : string -> A) (l : line) : option A :=
  if List.forallb is_lit l then Some (f (render l)) else None.

Definition fallback_of_line (l : line)
    : option (option (line * line)) :=
  bind (pstarts ": ${" l) (fun b =>
  if b then
    bind (pdrop 4 l) (fun body =>
    bind (pbefore ":"%char body) (fun name =>
    bind (pafter "="%char body) (fun rest =>
    bind (pbefore "}"%char rest) (fun value =>
    Some (Some (name, value))))))
  else Some None).

Fixpoint collect {A B : Type} (f : A -> option (option B)) (l : list A)
    : option (list B) :=
  match l with
  | [] => Some []
  | x :: r =>
      bind (f x) (fun y =>
      bind (collect f r) (fun ys =>
      Some match y with
           | Some v => v :: ys
           | None => ys
           end))
  end.

Definition fallbacks (ls : list line) : option (list (line * line)) :=
  collect fallback_of_line ls.

Definition phase_of_line (l : line) : option (option string) :=
  bind (pstarts ("echo " ++ q ++ ">> ") l) (fun b =>
  if b then on_text Script.phase_of_line l else Some None).

Definition phases (ls : list line) : option (list string) :=
  collect phase_of_line ls.

Fixpoint last_phase_lines (ls acc : list line) : option (list line) :=
  match ls with
  | [] => Some acc
  | l :: r =>
      bind (phase_of_line l) (fun y =>
      match y with
      | Some _ => last_phase_lines r r
      | None => last_phase_lines r acc
      end)
  end.

Fixpoint filterM {A : Type} (f : A -> option bool) (l : list A)
    : option (list A) :=
  match l with
  | [] => Some []
  | x :: r =>
      bind (f x) (fun b =>
      bind (filterM f r) (fun ys => Some (if b then x :: ys else ys)))
  end.

Definition cleanup (ls : list line) : option (list line) :=
  bind (last_phase_lines ls []) (filterM (pstarts "rm ")).

(** The options of a filter: the key of each is made of chunks, the value
    is kept as pieces. *)
Definition option_pair (kv : line) : option (string * line) :=
  bind (pbefore "="%char kv) (fun key =>
  bind (on_text (fun s => s) key) (fun k =>
  bind (pafter "="%char kv) (fun v => Some (k, v)))).

Definition filter_options (f : line) : option (list (string * line)) :=
  bind (pafter "="%char f) (fun args =>
  bind (psplit ":"%char args) (mapM option_pair)).

Fixpoint find_named (name : string) (fs : list line)
    : option (option line) :=
  match fs with
  | [] => Some None
  | f :: r =>
      bind (filter_name f) (fun n =>
      bind (on_text (fun s => s) n) (fun s =>
      if String.eqb s name then Some (Some f) else find_named name r))
  end.

Fixpoint assoc (k : string) (kvs : list (string * line)) : option line :=
  match kvs with
  | [] => None
  | (k', v) :: r => if String.eqb k' k then Some v else assoc k r
  end.

Definition filter_option (ls : list line) (name k : string)
    : option (option line) :=
  bind (filters ls) (fun fs =>
  bind (find_named name fs) (fun o =>
  match o with
  | Some f => option_map (assoc k) (filter_options f)
  | None => Some None
  end)).

(** *** Well-formed pieces and what a reading stands for *)

Definition wfl (ps : list piece) : Prop := Forall (fun p => wf p = true) ps.

Definition wfls (ls : list line) : Prop := Forall wfl ls.

Definition render_pair (nv : line * line) : string * string :=
  (render (fst nv), render (snd nv)).

Definition render_option (kv : string * line) : string * string :=
  (fst kv, render (snd kv)).

End Tagged.

(* ================================================================= *)
(** ** What the properties are stated with *)

Module Spec.

Import JS Types App Utils.


(** The paths handed to the generator are single lines. *)
Definition no_lf_opt (s : option string) : bool :=
  match s with
  | Some v => Str.no_lf v
  | None => true
  end.

(** The values the control of a field can take. *)
Definition slider (k : key) : list number :=
  match RANGES k with
  | Some r => slider_values r
  | None => []
  end.

(** *** The analysis, in the words of its description *)

(** The windows of [W] samples each, the last one shorter when the buffer
    does not divide evenly (no padding). *)
Fixpoint windows_fuel (fuel W : nat) (l : list number) : list (list number) :=
  match fuel with
  | O => []
  | S f =>
      match l with
      | [] => []
      | _ :: _ => firstn W l :: windows_fuel f W (skipn W l)
      end
  end.

Definition windows (W : nat) (l : list number) : list (list number) :=
  windows_fuel (List.length l) W l.

(** Sum of squares, in sample order, on top of [acc]. *)
Definition sum_squares_from (acc : number) (w : list number) : number :=
  fold_left (fun a v => add a (mul v v)) w acc.

Definition sum_squares (w : list number) : number :=
  sum_squares_from (lit 0 0) w.

(** The largest absolute value met, on top of [acc]. *)
Definition peak_from (acc : number) (w : list number) : number :=
  fold_left (fun p v => if ltb p (Math_abs v) then Math_abs v else p) w acc.

(** The RMS of a window, weighted by its own sample count. *)
Definition rms (w : list number) : number :=
  Math_sqrt (div (sum_squares w) (of_nat (List.length w))).

Definition window_rms (rawData : list number) : list number :=
  List.map rms (windows App.windowSize rawData).

(** The per-window RMS values in ascending order, as the comparison
    function [(a, b) => a - b] orders them. *)
Definition ascending (l : list number) : list number := sort sub l.

(** [20 * log10 x], and the same rounded to one decimal place the way the
    report stores it. *)
Definition dB (x : number) : number := mul (lit 20 0) (Math_log10 x).

Definition one_decimal (x : number) : number := parseFloat (toFixed 1 x).

(** [Math.floor(n * c)] is the index [n / 10]; [decile_below c k a] checks
    it for the [2^k] counts from [a] on. *)
Definition decile_ok (c : number) (n : Z) : bool :=
  match to_index_Z (Math_floor (mul (of_Z n) c)) with
  | Some i => i =? n / 10
  | None => false
  end.

Fixpoint decile_below (c : number) (k : nat) (a : Z) : bool :=
  match k with
  | O => decile_ok c a
  | S k' =>
      decile_below c k' a && decile_below c k' (a + 2 ^ Z.of_nat k')
  end.

(** The smallest level the report shows for the loudness and the peak, and
    the element the noise floor is taken from. *)
Definition floor_level : number := lit 1 (-8).

Definition noise_rms (rawData : list number) : number :=
  match App.decile (ascending (window_rms rawData)) with
  | Some v => or_else v (lit 1 (-7))
  | None => lit 1 (-7)
  end.

Definition is_zero (x : number) : bool :=
  match x with
  | S754_zero _ => true
  | _ => false
  end.

(** *** Notions the properties are stated with *)

(** One iteration of the inner loop. *)
Definition wstep (v : window_vars) (val : number) : window_vars :=
  {| windowSum := add (windowSum v) (mul val val);
     count := S (count v);
     w_sumSquares := add (w_sumSquares v) (mul val val);
     w_peak := if ltb (w_peak v) (Math_abs val) then Math_abs val
               else w_peak v |}.

Definition falsy (x : number) : Prop := truthy x = false.



(** The two shapes of the result. *)
Inductive shape (config : AudioConfig) (inputPath : string)
    (outputFilePath : option string) (script : string) : Prop :=
  | shape_full si so :
      Str.no_lf si = true -> Str.no_lf so = true ->
      script = full_script config si so -> shape config inputPath outputFilePath script
  | shape_preview si so d :
      Str.no_lf si = true -> Str.no_lf so = true ->
      script = preview_script config si so d ->
      shape config inputPath outputFilePath script.

Definition preview_loudnorm (config : AudioConfig) : string :=
  Str.cat ["loudnorm=I="; toString (loudnormTarget config); ":TP=";
       toString (loudnormTp config); ":LRA="; toString (loudnormLra config)].

Definition full_loudnorm (config : AudioConfig) : string :=
  Str.cat ["loudnorm=I="; toString (loudnormTarget config); ":TP=";
       toString (loudnormTp config); ":LRA="; toString (loudnormLra config);
       ":measured_I=$MEASURED_I:measured_TP=$MEASURED_TP:measured_LRA=$MEASURED_LRA:measured_thresh=$MEASURED_THRESH:offset=$OFFSET:linear=true:print_format=summary"].

(** What the compressor, the noise reduction and the de-esser are given in
    the command, in a script of either shape. *)
Definition derived_options (config : AudioConfig) (script : string) : Prop :=
  Script.filter_option script "acompressor" "ratio"
    = Some (toFixed 1 (ratio config))
  /\ Script.filter_option script "acompressor" "attack"
    = Some (toFixed 1 (attack config))
  /\ Script.filter_option script "acompressor" "release"
    = Some (toFixed 0 (release config))
  /\ Script.filter_option script "acompressor" "makeup"
    = Some (toFixed 1 (makeup config))
  /\ Script.filter_option script "afftdn" "nr" = Some (toString (nr config))
  /\ Script.filter_option script "afftdn" "nf" = Some (toString (nf config))
  /\ Script.filter_option script "deesser" "i"
    = Some (toFixed 2 (deesserAmount config))
  /\ Script.filter_option script "deesser" "f"
    = Some (toFixed 3 (div (deesserFreq config) (lit 22050 0))).

Definition silence : AudioBuffer :=
  {| channelData0 := [lit 0 0];
     buffer_duration := lit 0 0;
     buffer_sampleRate := lit 44100 0 |}.


Definition half_scale : AudioBuffer :=
  {| channelData0 := [lit 5 (-1)];
     buffer_duration := lit 0 0;
     buffer_sampleRate := lit 44100 0 |}.

Definition fresh : state :=
  {| config := DEFAULT_CONFIG; analysis := None; terminalLog := [] |}.



Definition with_compression (c : number) (config : AudioConfig) : AudioConfig :=
  set k_compressionAmount c config.




Definition book : string := "~/Desktop/book.m4b".

Definition mastered : option string := Some "~/Desktop/mastered.m4b".



End Spec.

(* ================================================================= *)
(** ** String methods of the path handling

    The texts are UTF-8: a character the code looks for ([/], [\], [.],
    [~]) is one byte and is no part of a longer character. *)

Module Text.

Import Str.

Definition bytes (l : list nat) : string :=
  string_of_list_ascii (List.map ascii_of_nat l).

(** [WhiteSpace] and [LineTerminator] of ECMAScript, each by its bytes:
    U+0009 to U+000D, U+0020, U+00A0, U+1680, U+2000 to U+200A, U+2028,
    U+2029, U+202F, U+205F, U+3000 and U+FEFF. *)
Definition white_space : list string :=
  [bytes [9%nat]; bytes [10%nat]; bytes [11%nat]; bytes [12%nat];
   bytes [13%nat]; bytes [32%nat];
   bytes [194; 160]%nat;
   bytes [225; 154; 128]%nat;
   bytes [226; 128; 128]%nat; bytes [226; 128; 129]%nat;
   bytes [226; 128; 130]%nat; bytes [226; 128; 131]%nat;
   bytes [226; 128; 132]%nat; bytes [226; 128; 133]%nat;
   bytes [226; 128; 134]%nat; bytes [226; 128; 135]%nat;
   bytes [226; 128; 136]%nat; bytes [226; 128; 137]%nat;
   bytes [226; 128; 138]%nat;
   bytes [226; 128; 168]%nat; bytes [226; 128; 169]%nat;
   bytes [226; 128; 175]%nat;
   bytes [226; 129; 159]%nat;
   bytes [227; 128; 128]%nat;
   bytes [239; 187; 191]%nat].

(** The text without the first of [ws] it starts with, if any. *)
Fixpoint strip_one (ws : list string) (s : string) : option string :=
  match ws with
  | [] => None
  | w :: r =>
      if startsWith w s then Some (drop (String.length w) s)
      else strip_one r s
  end.

Fixpoint strip_all (fuel : nat) (ws : list string) (s : string) : string :=
  match fuel with
  | O => s
  | S f =>
      match strip_one ws s with
      | Some s' => strip_all f ws s'
      | None => s
      end
  end.

Definition trimStart (s : string) : string :=
  strip_all (String.length s) white_space s.

Definition trimEnd (s : string) : string :=
  rev (strip_all (String.length s) (List.map rev white_space) (rev s)).

(** [String.prototype.trim]. *)
Definition trim (s : string) : string := trimEnd (trimStart s).

(** [s.slice(0, -1)]: all but the last byte. *)
Definition slice_0_m1 (s : string) : string := take (String.length s - 1) s.

(** The class [[/\\]]. *)
Definition is_separator (c : ascii) : bool :=
  Ascii.eqb c "/" || Ascii.eqb c backslash.

(** [s.split(/[/\\]/)], and in general the pieces of [s] between the bytes
    that [sep] holds of. *)
Fixpoint split_where (sep : ascii -> bool) (s : string) : list string :=
  match s with
  | EmptyString => [EmptyString]
  | String a s' =>
      if sep a then EmptyString :: split_where sep s'
      else glue (String a EmptyString) (split_where sep s')
  end.

(** [Array.prototype.pop] as an expression: the last element, [undefined]
    ([None]) for an empty array. *)
Fixpoint pop (l : list string) : option string :=
  match l with
  | [] => None
  | [x] => Some x
  | _ :: r => pop r
  end.

(** The class [[^/.]]. *)
Definition not_slash_dot (c : ascii) : bool :=
  negb (Ascii.eqb c "/" || Ascii.eqb c ".").

(** Whether [/\.[^/.]+$/] matches at the start of [s]: a dot, then one or
    more bytes none of which is a slash or a dot, up to the end. *)
Definition extension_here (s : string) : bool :=
  match s with
  | String c r =>
      Ascii.eqb c "." && negb (String.eqb r EmptyString)
      && forallb not_slash_dot r
  | EmptyString => false
  end.

(** [s.replace(/\.[^/.]+$/, "")]: the leftmost place where the pattern
    matches is where the text is cut. *)
Fixpoint replace_extension (s : string) : string :=
  if extension_here s then EmptyString
  else
    match s with
    | EmptyString => EmptyString
    | String c r => String c (replace_extension r)
    end.

(** A text without a path separator; a text that ends with one. *)
Definition no_separator (s : string) : bool :=
  forallb (fun c => negb (is_separator c)) s.

Definition ends_with_separator (s : string) : bool :=
  endsWith "/" s || endsWith bs s.

End Text.

(* ================================================================= *)
(** ** More of the generated script: shell variables and the measurement *)

Module Shell.

Import Str.

(** The first line that starts with [w]. *)
Fixpoint first_with (w : string) (ls : list string) : option string :=
  match ls with
  | [] => None
  | l :: r => if startsWith w l then Some l else first_with w r
  end.

(** The text without the double quote at its end, if it has one. *)
Definition unquote_end (s : string) : option string :=
  if endsWith q s then Some (take (String.length s - 1) s) else None.

(** The value of the shell variable [name]: what stands between the
    double quotes of the first line [name="..."]. *)
Definition variable (script name : string) : option string :=
  let w := name ++ "=" ++ q in
  match first_with w (lines script) with
  | Some l => unquote_end (drop (String.length w) l)
  | None => None
  end.

(** The word that follows the word [w]. *)
Fixpoint word_after (w : string) (ws : list string) : option string :=
  match ws with
  | [] => None
  | x :: r => if String.eqb x w then List.hd_error r else word_after w r
  end.

(** The filter of the measuring pass: the argument of [-af] in the command
    whose output [LOUDNESS_DATA] takes. *)
Definition measurement (script : string) : option string :=
  match first_with "LOUDNESS_DATA=" (lines script) with
  | Some l => word_after "-af" (split " "%char l)
  | None => None
  end.

Definition measurement_option (script k : string) : option string :=
  match measurement script with
  | Some f => Script.assoc k (Script.filter_options f)
  | None => None
  end.

(** What the filters that take a field of the configuration as it is are
    given in the command. *)
Definition passthrough (config : Types.AudioConfig) (script : string) : Prop :=
  Script.filter_option script "highpass" "f"
    = Some (JS.toString (Types.highpassFreq config))
  /\ Script.filter_option script "lowpass" "f"
    = Some (JS.toString (Types.lowpassFreq config))
  /\ Script.filter_option script "loudnorm" "I"
    = Some (JS.toString (Types.loudnormTarget config))
  /\ Script.filter_option script "loudnorm" "TP"
    = Some (JS.toString (Types.loudnormTp config))
  /\ Script.filter_option script "loudnorm" "LRA"
    = Some (JS.toString (Types.loudnormLra config))
  /\ Script.filter_option script "alimiter" "limit"
    = Some (JS.toString (Types.loudnormTp config) ++ "dB").

End Shell.

(** The same readings on lines given by their pieces. *)
Module TaggedShell.

Import Str Tagged.

Fixpoint first_with (w : string) (ls : list line) : option (option line) :=
  match ls with
  | [] => Some None
  | l :: r =>
      bind (pstarts w l)
           (fun b => if b then Some (Some l) else first_with w r)
  end.

(** The text without its first [n] bytes, when they lie in leading
    chunks. *)
Fixpoint pdrops (ps : line) (n : nat) : option line :=
  match n with
  | O => Some ps
  | S _ =>
      match ps with
      | Lit s :: r =>
          if Nat.leb n (String.length s) then Some (Lit (drop n s) :: r)
          else pdrops r (n - String.length s)
      | _ => None
      end
  end.

Fixpoint unquote_end (ps : line) : option (option line) :=
  match ps with
  | [] => None
  | p :: r =>
      match r with
      | [] =>
          match p with
          | Lit s =>
              if String.eqb s EmptyString then None
              else Some (if endsWith q s
                         then Some [Lit (take (String.length s - 1) s)]
                         else None)
          | _ => None
          end
      | _ :: _ => option_map (option_map (cons p)) (unquote_end r)
      end
  end.

Definition variable (ls : list line) (name : string)
    : option (option line) :=
  let w := name ++ "=" ++ q in
  bind (first_with w ls) (fun o =>
  match o with
  | Some l => bind (pdrops l (String.length w)) unquote_end
  | None => Some None
  end).

Fixpoint word_after (w : string) (ws : list line) : option (option line) :=
  match ws with
  | [] => Some None
  | x :: r =>
      bind (on_text (fun s => s) x) (fun s =>
      if String.eqb s w then Some (List.hd_error r) else word_after w r)
  end.

Definition measurement (ls : list line) : option (option line) :=
  bind (first_with "LOUDNESS_DATA=" ls) (fun o =>
  match o with
  | Some l => bind (psplit " "%char l) (word_after "-af")
  | None => Some None
  end).

Definition measurement_option (ls : list line) (k : string)
    : option (option line) :=
  bind (measurement ls) (fun o =>
  match o with
  | Some f => option_map (assoc k) (filter_options f)
  | None => Some None
  end).

End TaggedShell.

(* ================================================================= *)
(** ** The order of the numbers *)

Module Order.

Import JS.

(** The place of a number in the order that [<] and [<=] compare by:
    first its kind (negative infinity, negative, zero, positive, positive
    infinity), then exponent and mantissa.  [NaN] has no place. *)
Definition rank (x : number) : option (Z * Z * Z) :=
  match x with
  | S754_nan => None
  | S754_infinity true => Some (-2, 0, 0)
  | S754_infinity false => Some (2, 0, 0)
  | S754_zero _ => Some (0, 0, 0)
  | S754_finite false m e => Some (1, e, Zpos m)
  | S754_finite true m e => Some (-1, - e, Zneg m)
  end.

Definition lt3 (a b : Z * Z * Z) : Prop :=
  fst (fst a) < fst (fst b)
  \/ (fst (fst a) = fst (fst b)
      /\ (snd (fst a) < snd (fst b)
          \/ (snd (fst a) = snd (fst b) /\ snd a < snd b))).

(** Whether two numbers are the same value, bit for bit. *)
Definition same (x y : number) : bool :=
  match x, y with
  | S754_nan, S754_nan => true
  | S754_zero a, S754_zero b | S754_infinity a, S754_infinity b =>
      Bool.eqb a b
  | S754_finite a m e, S754_finite b n f =>
      Bool.eqb a b && Pos.eqb m n && Z.eqb e f
  | _, _ => false
  end.

End Order.

(* ================================================================= *)
(** ** App.tsx: the upload, the output path and the diagnostics *)

Module Studio.

Import JS Types App Utils Text.

(** What the handlers read of a [File]. *)
Record File : Type := {
  file_name : string;
  file_size : Z
}.

(** The React state of [App] beyond the three parts of [App.state], and the
    clipboard [handleCopyScript] writes to. *)
Record session : Type := {
  core : state;
  baseDir : string;
  inputPath : string;
  sourceFile : option File;
  exportPath : string;
  aiInsight : option string;
  generatedScript : string;
  showExportModal : bool;
  fileVersion : number;
  clipboard : string
}.

(** The initial values of the [useState] calls. *)
Definition initial : session :=
  {| core := {| config := DEFAULT_CONFIG; analysis := None; terminalLog := [] |};
     baseDir := "~/Desktop/";
     inputPath := EmptyString;
     sourceFile := None;
     exportPath := "~/Desktop/";
     aiInsight := None;
     generatedScript := EmptyString;
     showExportModal := false;
     fileVersion := lit 1 0;
     clipboard := EmptyString |}.

Definition on_core (f : state -> state) (s : session) : session :=
  {| core := f (core s);
     baseDir := baseDir s;
     inputPath := inputPath s;
     sourceFile := sourceFile s;
     exportPath := exportPath s;
     aiInsight := aiInsight s;
     generatedScript := generatedScript s;
     showExportModal := showExportModal s;
     fileVersion := fileVersion s;
     clipboard := clipboard s |}.

Definition clearAnalysis (st : state) : state :=
  {| config := config st; analysis := None; terminalLog := terminalLog st |}.

(** [handleFileUpload]: [files] is [e.target.files]. *)
Definition handleFileUpload (files : list File) (s : session) : session :=
  match files with
  | [] => s
  | file :: _ =>
      let fileName := file_name file in
      let cleanBase := trim (baseDir s) in
      let hasBackslash := Str.includes Str.bs cleanBase in
      let separator := if hasBackslash then Str.bs else "/" in
      let cleanBase :=
        if Str.endsWith "/" cleanBase || Str.endsWith Str.bs cleanBase
        then slice_0_m1 cleanBase else cleanBase in
      let fullPath := Str.cat [cleanBase; separator; fileName] in
      on_core (fun st =>
                 addLog ("Path auto-constructed: " ++ fullPath)
                   (addLog ("File detected: " ++ fileName) (clearAnalysis st)))
        {| core := core s;
           baseDir := baseDir s;
           inputPath := fullPath;
           sourceFile := Some file;
           exportPath := Str.cat [cleanBase; separator];
           aiInsight := None;
           generatedScript := generatedScript s;
           showExportModal := showExportModal s;
           fileVersion := fileVersion s;
           clipboard := clipboard s |}
  end.

(** The analysis of the loaded file: [runClientAnalysis] on the parts of
    the state it uses. *)
Definition analyseSource (decoded : string + AudioBuffer) (s : session)
    : session :=
  on_core (runClientAnalysis (option_map file_size (sourceFile s)) decoded) s.

Definition getBaseName (path : string) : string :=
  let fileNameWithExt :=
    match pop (split_where is_separator path) with
    | Some last => str_or last "audiobook"
    | None => "audiobook"
    end in
  replace_extension fileNameWithExt.

Definition getDynamicOutputPath (modeType : string) (s : session) : string :=
  let cleanExportPath := exportPath s in
  let cleanExportPath :=
    if negb (Str.endsWith "/" cleanExportPath)
       && negb (Str.endsWith Str.bs cleanExportPath)
    then
      let hasBackslash := Str.includes Str.bs cleanExportPath in
      cleanExportPath ++ (if hasBackslash then Str.bs else "/")
    else cleanExportPath in
  let baseName := getBaseName (inputPath s) in
  let suffix :=
    if String.eqb modeType "test-45s"
    then Str.cat ["_v"; toString (fileVersion s); "-preview-45s.m4b"]
    else if String.eqb modeType "test-10s"
    then Str.cat ["_v"; toString (fileVersion s); "-preview-10s.m4b"]
    else Str.cat ["_v"; toString (fileVersion s); "-processed.m4b"] in
  Str.cat [cleanExportPath; baseName; suffix].

(** The name of the output file, as [getDynamicOutputPath] puts it
    together: base name, version and the suffix of the mode. *)
Definition mode_suffix (modeType : string) : string :=
  if String.eqb modeType "test-45s" then "-preview-45s.m4b"
  else if String.eqb modeType "test-10s" then "-preview-10s.m4b"
  else "-processed.m4b".

Definition output_name (modeType : string) (s : session) : string :=
  Str.cat [getBaseName (inputPath s); "_v"; toString (fileVersion s);
           mode_suffix modeType].

Definition generateAndShow (type : string) (s : session) : session :=
  let outPath := getDynamicOutputPath type s in
  let cmd :=
    generateFFmpegCommand (config (core s)) (inputPath s) type (Some outPath) in
  {| core := core s;
     baseDir := baseDir s;
     inputPath := inputPath s;
     sourceFile := sourceFile s;
     exportPath := exportPath s;
     aiInsight := aiInsight s;
     generatedScript := cmd;
     showExportModal :=
       if String.eqb type "full" then true else showExportModal s;
     fileVersion := fileVersion s;
     clipboard := clipboard s |}.

Definition handleCopyScript (text : string) (s : session) : session :=
  on_core (addLog (Str.cat ["CMD COPIED (v"; toString (fileVersion s); ")"]))
    {| core := core s;
       baseDir := baseDir s;
       inputPath := inputPath s;
       sourceFile := sourceFile s;
       exportPath := exportPath s;
       aiInsight := aiInsight s;
       generatedScript := generatedScript s;
       showExportModal := showExportModal s;
       fileVersion := add (fileVersion s) (lit 1 0);
       clipboard := text |}.

(** *** Diagnostics *)

Inductive issue_type : Type := warn | info | good.

Record issue : Type := {
  type : issue_type;
  msg : string
}.

Definition noise_issue (a : AudioAnalysis) : issue :=
  if ltb (lit (-45) 0) (noiseFloor a) then
    {| type := warn;
       msg := Str.cat ["High noise floor ("; toString (noiseFloor a);
                       "dB). Consider increasing Noise Reduction > 0.3."] |}
  else if ltb (lit (-60) 0) (noiseFloor a) then
    {| type := info;
       msg := Str.cat ["Moderate room noise ("; toString (noiseFloor a);
                       "dB). Light Noise Reduction recommended."] |}
  else
    {| type := good;
       msg := Str.cat ["Clean noise floor ("; toString (noiseFloor a);
                       "dB)."] |}.

Definition peak_issue (a : AudioAnalysis) : list issue :=
  if ltb (lit (-5) (-1)) (Types.peak a) then
    [{| type := warn;
        msg := Str.cat ["Input is clipping ("; toString (Types.peak a);
                        "dB). Limiter will engage heavily."] |}]
  else if ltb (Types.peak a) (lit (-12) 0) then
    [{| type := info;
        msg := Str.cat ["Low input level ("; toString (Types.peak a);
                        "dB). Compression will add significant gain."] |}]
  else [].

Definition rate_issue (a : AudioAnalysis) : list issue :=
  if negb (eqb (sampleRate a) (lit 44100 0)) then
    [{| type := info;
        msg := Str.cat ["Source is ";
                        toString (div (sampleRate a) (lit 1000 0));
                        "kHz. Output will be 44.1kHz."] |}]
  else [].

(** [getDiagnosticIssues]: the pushes in their order. *)
Definition getDiagnosticIssues (analysis : option AudioAnalysis)
    : list issue :=
  match analysis with
  | None => []
  | Some a => ([noise_issue a] ++ peak_issue a ++ rate_issue a)%list
  end.

End Studio.

(* ================================================================= *)
(** ** utils.ts: the voice impact helpers *)

Module Impact.

Import JS.

Definition getFrequencyImpact (val : number) : string :=
  if leb val (lit 60 0) then "Removes rumble only, keeps all voice warmth"
  else if leb val (lit 80 0) then "RECOMMENDED: Balanced warmth & clarity"
  else if leb val (lit 120 0) then "Cleaner sound, slight warmth reduction"
  else "Very clean but may thin male voices".

Definition getClarityImpact (val : number) : string :=
  if ltb val (lit 3000 0) then "Muffled but warm (AM Radio style)"
  else if ltb val (lit 5000 0) then "RECOMMENDED: Natural clarity"
  else if ltb val (lit 8000 0) then "Bright and crisp, enhances consonants"
  else "Very bright, open air".

Definition getDeesserImpact (val : number) : string :=
  if eqb val (lit 0 0) then "OFF: Natural but may have harsh S sounds"
  else if leb val (lit 3 (-1)) then "LIGHT: Subtle reduction, very natural"
  else if leb val (lit 6 (-1)) then "RECOMMENDED: Noticeable but pleasant"
  else "HEAVY: Strong reduction, may cause lisp effect".

Definition getNoiseImpact (val : number) : string :=
  if eqb val (lit 0 0) then "OFF: All natural room tone preserved"
  else if leb val (lit 3 (-1)) then "LIGHT: Reduces obvious hiss only"
  else if leb val (lit 6 (-1)) then "RECOMMENDED: Clean but natural"
  else "AGGRESSIVE: Very clean but may sound processed".

Definition getCompressionImpact (val : number) : string :=
  if leb val (lit 2 (-1)) then "NATURAL: Preserves performance dynamics"
  else if leb val (lit 5 (-1)) then "AUDIOBOOK: Gentle evening out"
  else if leb val (lit 7 (-1)) then "PODCAST: Consistent volume, punchy"
  else "BROADCAST: Heavy compression, radio-style".

Definition getLoudnessImpact (val : number) : string :=
  if leb val (lit (-23) 0) then "ACX / Audible Standard"
  else if leb val (lit (-18) 0) then "RECOMMENDED: Sweet spot for narration"
  else if leb val (lit (-16) 0) then "Podcast Standard"
  else "Music Streaming / Loud".

(** The labels of each helper, in the order of its [return]s, and the
    place of a label among them. *)
Definition frequency_labels : list string :=
  ["Removes rumble only, keeps all voice warmth";
   "RECOMMENDED: Balanced warmth & clarity";
   "Cleaner sound, slight warmth reduction";
   "Very clean but may thin male voices"].

Definition clarity_labels : list string :=
  ["Muffled but warm (AM Radio style)";
   "RECOMMENDED: Natural clarity";
   "Bright and crisp, enhances consonants";
   "Very bright, open air"].

Definition deesser_labels : list string :=
  ["OFF: Natural but may have harsh S sounds";
   "LIGHT: Subtle reduction, very natural";
   "RECOMMENDED: Noticeable but pleasant";
   "HEAVY: Strong reduction, may cause lisp effect"].

Definition noise_labels : list string :=
  ["OFF: All natural room tone preserved";
   "LIGHT: Reduces obvious hiss only";
   "RECOMMENDED: Clean but natural";
   "AGGRESSIVE: Very clean but may sound processed"].

Definition compression_labels : list string :=
  ["NATURAL: Preserves performance dynamics";
   "AUDIOBOOK: Gentle evening out";
   "PODCAST: Consistent volume, punchy";
   "BROADCAST: Heavy compression, radio-style"].

Definition loudness_labels : list string :=
  ["ACX / Audible Standard";
   "RECOMMENDED: Sweet spot for narration";
   "Podcast Standard";
   "Music Streaming / Loud"].

Fixpoint place (labels : list string) (s : string) : nat :=
  match labels with
  | [] => O
  | l :: r => if String.eqb l s then O else S (place r s)
  end.

End Impact.

(* ================================================================= *)
(** ** Runs of the handlers *)

Module Session.

Import JS Types App Utils Studio.

(** A call of a handler of [App], or of one of the setters the text inputs
    are wired to. *)
Inductive action : Type :=
  | SetBaseDir (value : string)
  | SetInputPath (value : string)
  | SetExportPath (value : string)
  | Upload (files : list File)
  | Analyse (decoded : string + AudioBuffer)
  | Update (k : key) (value : number)
  | Preset (presetId : string)
  | Show (type : string)
  | Copy (text : string).

Definition setBaseDir (value : string) (s : session) : session :=
  {| core := core s;
     baseDir := value;
     inputPath := inputPath s;
     sourceFile := sourceFile s;
     exportPath := value;
     aiInsight := aiInsight s;
     generatedScript := generatedScript s;
     showExportModal := showExportModal s;
     fileVersion := fileVersion s;
     clipboard := clipboard s |}.

Definition setInputPath (value : string) (s : session) : session :=
  {| core := core s;
     baseDir := baseDir s;
     inputPath := value;
     sourceFile := sourceFile s;
     exportPath := exportPath s;
     aiInsight := aiInsight s;
     generatedScript := generatedScript s;
     showExportModal := showExportModal s;
     fileVersion := fileVersion s;
     clipboard := clipboard s |}.

Definition setExportPath (value : string) (s : session) : session :=
  {| core := core s;
     baseDir := baseDir s;
     inputPath := inputPath s;
     sourceFile := sourceFile s;
     exportPath := value;
     aiInsight := aiInsight s;
     generatedScript := generatedScript s;
     showExportModal := showExportModal s;
     fileVersion := fileVersion s;
     clipboard := clipboard s |}.

Definition step (a : action) (s : session) : session :=
  match a with
  | SetBaseDir v => setBaseDir v s
  | SetInputPath v => setInputPath v s
  | SetExportPath v => setExportPath v s
  | Upload files => handleFileUpload files s
  | Analyse decoded => analyseSource decoded s
  | Update k v => on_core (updateConfig k v) s
  | Preset presetId => on_core (applyPreset presetId) s
  | Show type => generateAndShow type s
  | Copy text => handleCopyScript text s
  end.

Definition run (l : list action) (s : session) : session :=
  fold_left (fun s a => step a s) l s.

Definition log_length (s : session) : nat :=
  List.length (terminalLog (core s)).

(** The bounds of the control of a field, [min <= v <= max]; a field
    without a control has none. *)
Definition bound (d : Z * Z) : number := lit (fst d) (snd d).

Definition in_range (k : key) (v : number) : bool :=
  match RANGES k with
  | Some r => leb (bound (Types.min r)) v && leb v (bound (Types.max r))
  | None => true
  end.

Definition within_ranges (c : AudioConfig) : bool :=
  List.forallb (fun k => in_range k (get k c)) all_keys.

(** The values an [Update] of the run passes lie within the bounds. *)
Definition update_in_range (a : action) : bool :=
  match a with
  | Update k v => in_range k v
  | _ => true
  end.

(** The pair [nr], [nf] of the noise reduction at the positions of its
    control: position [i] stands for the value [i * 0.05]. *)
Definition denoise_at (i : nat) (v : number) : bool :=
  let config := set k_noiseReduction v DEFAULT_CONFIG in
  Order.same (nr config) (of_Z (2 * Z.of_nat i))
  && Order.same (nf config) (of_Z (2 * Z.of_nat i - 80)).

Fixpoint denoise_from (i : nat) (vs : list number) : bool :=
  match vs with
  | [] => true
  | v :: r => denoise_at i v && denoise_from (S i) r
  end.

(** Nine copies in a row. *)
Definition nine_copies : list action :=
  List.repeat (Copy "ffmpeg") 9.

(** A slider move, a preset and a slider move. *)
Definition some_changes : list action :=
  [Update k_noiseReduction (lit 35 (-2)); Preset "radio";
   Update k_bitrate (lit 192 0)].

End Session.

(* ================================================================= *)
(** * Properties *)

(*PROOFS*)
Module StrFacts.
Import Str.

Lemma append_assoc (a b c : string) : (a ++ b) ++ c = a ++ (b ++ c).
Proof. induction a as [|x a IH]; simpl; [reflexivity|now rewrite IH]. Qed.

Lemma append_empty_r (a : string) : a ++ EmptyString = a.
Proof. induction a as [|x a IH]; simpl; [reflexivity|now rewrite IH]. Qed.

Lemma forallb_app f a b : forallb f (a ++ b) = forallb f a && forallb f b.
Proof.
  induction a as [|c a IH]; simpl; [reflexivity|].
  now rewrite IH, andb_assoc.
Qed.

Lemma forallb_take f n s : forallb f s = true -> forallb f (take n s) = true.
Proof.
  revert s; induction n as [|n IH]; intros [|c s]; simpl; auto.
  intros H; apply andb_true_iff in H as [H1 H2].
  now rewrite H1, IH.
Qed.

Lemma forallb_drop f n s : forallb f s = true -> forallb f (drop n s) = true.
Proof.
  revert s; induction n as [|n IH]; intros [|c s]; simpl; auto.
  intros H; apply andb_true_iff in H as [H1 H2]; auto.
Qed.

Lemma forallb_repeat f c n : f c = true -> forallb f (repeat c n) = true.
Proof. intros H; induction n; simpl; [reflexivity|now rewrite H]. Qed.

Lemma forallb_weaken (f g : ascii -> bool) s :
  (forall c, f c = true -> g c = true) ->
  forallb f s = true -> forallb g s = true.
Proof.
  intros Hfg; induction s as [|c s IH]; simpl; [reflexivity|].
  intros H; apply andb_true_iff in H as [H1 H2].
  now rewrite (Hfg _ H1), IH.
Qed.

Lemma mem_app c a b : mem c (a ++ b) = mem c a || mem c b.
Proof.
  induction a as [|x a IH]; simpl; [reflexivity|].
  now rewrite IH, orb_assoc.
Qed.

Lemma mem_forallb f c s : forallb f s = true -> f c = false -> mem c s = false.
Proof.
  intros Hs Hc; induction s as [|x s IH]; simpl in *; [reflexivity|].
  apply andb_true_iff in Hs as [H1 H2].
  rewrite (IH H2), orb_false_r.
  destruct (Ascii.eqb_spec x c) as [->|]; [congruence|reflexivity].
Qed.

Lemma before_app c a b : mem c a = false -> before c (a ++ b) = a ++ before c b.
Proof.
  induction a as [|x a IH]; simpl; [reflexivity|].
  intros H; apply orb_false_iff in H as [H1 H2].
  now rewrite H1, IH.
Qed.

Lemma after_app c a b : mem c a = false -> after c (a ++ b) = after c b.
Proof.
  induction a as [|x a IH]; simpl; [reflexivity|].
  intros H; apply orb_false_iff in H as [H1 H2].
  now rewrite H1, IH.
Qed.

Lemma glue_app a b ps : glue (a ++ b) ps = glue a (glue b ps).
Proof. destruct ps; simpl; [reflexivity|]. now rewrite append_assoc. Qed.

Lemma split_app c a b : mem c a = false -> split c (a ++ b) = glue a (split c b).
Proof.
  induction a as [|x a IH]; simpl.
  - intros _. destruct (split c b) eqn:E; [|reflexivity].
    destruct b; simpl in E; [discriminate|].
    destruct (Ascii.eqb a c); [discriminate|].
    destruct (split c b); discriminate.
  - intros H; apply orb_false_iff in H as [H1 H2].
    rewrite H1, (IH H2).
    change (String x a) with (String x EmptyString ++ a).
    now rewrite glue_app.
Qed.

Lemma split_nomem c a : mem c a = false -> split c a = [a].
Proof.
  induction a as [|x a IH]; simpl; [reflexivity|].
  intros H; apply orb_false_iff in H as [H1 H2].
  now rewrite H1, (IH H2).
Qed.

Lemma lines_unlines l ls :
  List.forallb (fun s => negb (mem lf s)) (l :: ls) = true ->
  lines (unlines (l :: ls)) = l :: ls.
Proof.
  unfold lines, unlines. revert l; induction ls as [|l' ls IH]; intros l H.
  - simpl in *. rewrite andb_true_r in H. apply negb_true_iff in H.
    now apply split_nomem.
  - cbn [List.forallb] in H. apply andb_true_iff in H as [H1 H2].
    apply negb_true_iff in H1.
    change (String.concat nl (l :: l' :: ls))
      with (l ++ String lf (String.concat nl (l' :: ls))).
    rewrite (split_app _ _ _ H1). cbn [split].
    rewrite Ascii.eqb_refl, (IH _ H2). cbn [glue]. now rewrite append_empty_r.
Qed.

Lemma cat_cons p ps : cat (p :: ps) = p ++ cat ps.
Proof.
  unfold cat. destruct ps; simpl; [now rewrite append_empty_r|reflexivity].
Qed.

Lemma cat_nil : cat [] = EmptyString.
Proof. reflexivity. Qed.

Lemma before_app_in c a b : mem c a = true -> before c (a ++ b) = before c a.
Proof.
  induction a as [|x a IH]; simpl; [discriminate|].
  destruct (Ascii.eqb x c); [reflexivity|]. simpl. intros H. now rewrite IH.
Qed.

Lemma after_app_in c a b : mem c a = true -> after c (a ++ b) = after c a ++ b.
Proof.
  induction a as [|x a IH]; simpl; [discriminate|].
  destruct (Ascii.eqb x c); [reflexivity|]. simpl. intros H. now rewrite IH.
Qed.

Lemma split_not_nil c s : split c s <> [].
Proof.
  destruct s as [|a s]; simpl; [discriminate|].
  destruct (Ascii.eqb a c); [discriminate|].
  destruct (split c s); discriminate.
Qed.

Lemma split_app_gen c a b :
  split c (a ++ b)
  = (removelast (split c a)
     ++ glue (last (split c a) EmptyString) (split c b))%list.
Proof.
  induction a as [|x a IH]; simpl.
  - destruct (split c b) eqn:E; [now apply split_not_nil in E|reflexivity].
  - destruct (Ascii.eqb x c).
    + pose proof (split_not_nil c a). destruct (split c a) eqn:E; [congruence|].
      rewrite IH. reflexivity.
    + rewrite IH. pose proof (split_not_nil c a) as Hn.
      destruct (split c a) as [|y [|z r]] eqn:E; [congruence| |].
      * cbn. destruct (split c b) eqn:Eb; [now apply split_not_nil in Eb|].
        reflexivity.
      * reflexivity.
Qed.


End StrFacts.

Module NumText.
Import Str JS StrFacts Tagged.

Lemma digit_char_is_digit d : is_digit (digit_char (d mod 10)) = true.
Proof.
  pose proof (Z.mod_pos_bound d 10 ltac:(lia)) as H.
  assert (E : d mod 10 = 0 \/ d mod 10 = 1 \/ d mod 10 = 2 \/ d mod 10 = 3
              \/ d mod 10 = 4 \/ d mod 10 = 5 \/ d mod 10 = 6 \/ d mod 10 = 7
              \/ d mod 10 = 8 \/ d mod 10 = 9) by lia.
  repeat (destruct E as [E|E]; [rewrite E; reflexivity|]).
  rewrite E; reflexivity.
Qed.

Lemma digits_fuel_digits fuel : forall n acc,
  forallb is_digit acc = true -> forallb is_digit (digits_fuel fuel n acc) = true.
Proof.
  induction fuel as [|f IH]; intros n acc H; simpl; [exact H|].
  assert (H' : forallb is_digit (String (digit_char (n mod 10)) acc) = true).
  { cbn [forallb]. now rewrite digit_char_is_digit, H. }
  destruct (n / 10 =? 0); [exact H'|now apply IH].
Qed.

Lemma digits_digits n : forallb is_digit (digits n) = true.
Proof. now apply digits_fuel_digits. Qed.

Lemma digit_numeric c : is_digit c = true -> numeric_char c = true.
Proof. unfold numeric_char; now intros ->. Qed.

Lemma digits_numeric n : forallb numeric_char (digits n) = true.
Proof. apply (forallb_weaken is_digit); [exact digit_numeric|apply digits_digits]. Qed.

Lemma zeros_numeric n : forallb numeric_char (zeros n) = true.
Proof. now apply forallb_repeat. Qed.

Ltac numeric :=
  repeat first
    [ reflexivity
    | rewrite forallb_app
    | apply andb_true_iff; split
    | apply digits_numeric
    | apply zeros_numeric
    | apply forallb_take
    | apply forallb_drop
    | apply forallb_repeat ].

Lemma format_shortest_numeric s k n :
  forallb numeric_char s = true ->
  forallb numeric_char (format_shortest s k n) = true.
Proof.
  intros H. unfold format_shortest.
  repeat match goal with |- context [if ?b then _ else _] => destruct b end;
    rewrite ?forallb_app; cbn [forallb];
    repeat (apply andb_true_iff; split);
    auto using digits_numeric, zeros_numeric, forallb_take, forallb_drop.
Qed.

Lemma toString_numeric x : forallb numeric_char (toString x) = true.
Proof.
  destruct x as [s|s| |sg m e]; cbn [toString]; try reflexivity.
  - now destruct s.
  - destruct (shortest m e) as [[s k] n].
    rewrite forallb_app. apply andb_true_iff; split.
    + now destruct sg.
    + apply format_shortest_numeric, digits_numeric.
Qed.

Lemma place_point_numeric fd ds :
  forallb numeric_char ds = true ->
  forallb numeric_char (place_point fd ds) = true.
Proof.
  intros H. destruct fd as [|fd]; [exact H|]. cbn [place_point].
  set (ds' := if Nat.leb _ _ then _ else _).
  assert (H' : forallb numeric_char ds' = true).
  { subst ds'. destruct (Nat.leb _ _); [|exact H].
    rewrite forallb_app, H, andb_true_r. now apply forallb_repeat. }
  rewrite !forallb_app. cbn [forallb].
  rewrite forallb_take, forallb_drop by exact H'. reflexivity.
Qed.

Lemma toFixed_numeric fd x : forallb numeric_char (toFixed fd x) = true.
Proof.
  destruct x as [s|s| |sg m e]; cbn [toFixed];
    try apply (toString_numeric (S754_infinity s));
    try apply (toString_numeric S754_nan).
  - now apply place_point_numeric.
  - destruct (ltb _ _); [|apply toString_numeric].
    rewrite forallb_app. apply andb_true_iff; split.
    + now destruct sg.
    + apply place_point_numeric, digits_numeric.
Qed.


End NumText.

Module TaggedFacts.
Import Str StrFacts Tagged.

Lemma render_nil : render [] = EmptyString.
Proof. reflexivity. Qed.

Lemma render_cons p r : render (p :: r) = text p ++ render r.
Proof. unfold render. cbn [List.map]. apply cat_cons. Qed.

Lemma render_app a b : render (a ++ b) = render a ++ render b.
Proof.
  induction a as [|p a IH]; [reflexivity|].
  cbn [List.app]. now rewrite !render_cons, IH, append_assoc.
Qed.

Lemma render_concat ls : render (List.concat ls) = cat (List.map render ls).
Proof.
  induction ls as [|l ls IH]; [reflexivity|].
  cbn [List.concat List.map]. now rewrite render_app, cat_cons, IH.
Qed.

Lemma holds_ok c p b :
  wf p = true -> holds c p = Some b -> mem c (text p) = b.
Proof.
  destruct p as [s|s|s]; cbn [wf holds text]; intros Hw H.
  - congruence.
  - destruct (numeric_char c) eqn:E; [discriminate|].
    injection H as <-. now apply (mem_forallb numeric_char).
  - destruct (Ascii.eqb_spec c lf) as [->|]; [|discriminate].
    injection H as <-. now apply negb_true_iff in Hw.
Qed.

Lemma holds_true_lit c p : holds c p = Some true -> p = Lit (text p).
Proof.
  destruct p as [s|s|s]; cbn [holds text]; [reflexivity| |].
  - now destruct (numeric_char c).
  - now destruct (Ascii.eqb c lf).
Qed.

Lemma pmem_ok c ps b :
  wfl ps -> pmem c ps = Some b -> mem c (render ps) = b.
Proof.
  intros Hw; revert b; induction Hw as [|p r Hp Hr IH]; intros b H.
  - now injection H as <-.
  - cbn [pmem] in H. rewrite render_cons, mem_app.
    destruct (holds c p) as [[]|] eqn:E; [| |discriminate].
    + injection H as <-. now rewrite (holds_ok _ _ _ Hp E).
    + now rewrite (holds_ok _ _ _ Hp E), (IH _ H).
Qed.

Lemma pbefore_ok c ps r :
  wfl ps -> pbefore c ps = Some r ->
  before c (render ps) = render r /\ wfl r.
Proof.
  intros Hw; revert r; induction Hw as [|p ps Hp Hps IH]; intros r H.
  - injection H as <-. split; [reflexivity|constructor].
  - cbn [pbefore] in H. rewrite render_cons.
    destruct (holds c p) as [[]|] eqn:E; [| |discriminate].
    + injection H as <-. rewrite before_app_in by exact (holds_ok _ _ _ Hp E).
      split; [|now repeat constructor].
      now rewrite render_cons, render_nil, append_empty_r.
    + destruct (pbefore c ps) as [r'|]; [|discriminate].
      injection H as <-. destruct (IH _ eq_refl) as [H1 H2].
      rewrite before_app by exact (holds_ok _ _ _ Hp E).
      split; [now rewrite render_cons, H1|now constructor].
Qed.

Lemma pafter_ok c ps r :
  wfl ps -> pafter c ps = Some r ->
  after c (render ps) = render r /\ wfl r.
Proof.
  intros Hw; revert r; induction Hw as [|p ps Hp Hps IH]; intros r H.
  - injection H as <-. split; [reflexivity|constructor].
  - cbn [pafter] in H. rewrite render_cons.
    destruct (holds c p) as [[]|] eqn:E; [| |discriminate].
    + injection H as <-. rewrite after_app_in by exact (holds_ok _ _ _ Hp E).
      split; [now rewrite render_cons|now constructor].
    + rewrite after_app by exact (holds_ok _ _ _ Hp E). now apply IH.
Qed.

Lemma attach_nonempty {A} (xs : list A) gs : gs <> [] -> attach xs gs <> [].
Proof.
  revert gs. induction xs as [|x xs IH]; intros gs H; [exact H|].
  destruct xs as [|y xs].
  - cbn [attach]. destruct gs; [congruence|discriminate].
  - change (attach (x :: y :: xs) gs) with ([x] :: attach (y :: xs) gs).
    discriminate.
Qed.

Lemma psplit_nonempty c ps : forall gs, psplit c ps = Some gs -> gs <> [].
Proof.
  induction ps as [|p r IH]; intros gs H.
  - injection H as <-. discriminate.
  - cbn [psplit] in H.
    destruct (holds c p) as [[]|]; [| |discriminate];
      destruct (psplit c r) as [gs'|]; try discriminate;
      injection H as <-.
    + apply attach_nonempty. now apply IH.
    + apply (attach_nonempty [p]). now apply IH.
Qed.

Lemma wfl_lits xs : wfl (List.map Lit xs).
Proof. induction xs; now constructor. Qed.

Lemma attach_wf (xs : list piece) gs :
  wfl xs -> Forall wfl gs -> Forall wfl (attach xs gs).
Proof.
  intros Hx; revert gs; induction Hx as [|x xs Hx Hxs IH]; intros gs Hg;
    [exact Hg|].
  destruct xs as [|y xs].
  - cbn [attach]. destruct Hg as [|g r Hg Hr]; repeat constructor; auto.
  - change (attach (x :: y :: xs) gs) with ([x] :: attach (y :: xs) gs).
    constructor; [now repeat constructor|now apply IH].
Qed.

Lemma map_render_attach (xs : list piece) gs : gs <> [] -> xs <> [] ->
  List.map render (attach xs gs)
  = (removelast (List.map text xs)
     ++ glue (last (List.map text xs) EmptyString) (List.map render gs))%list.
Proof.
  intros Hg. induction xs as [|x xs IH]; intros Hx; [congruence|].
  destruct xs as [|y xs].
  - destruct gs as [|g r]; [congruence|].
    cbn [attach List.map removelast last glue List.app]. now rewrite render_cons.
  - change (attach (x :: y :: xs) gs) with ([x] :: attach (y :: xs) gs).
    cbn [List.map]. rewrite IH by discriminate.
    cbn [List.map removelast last List.app]. f_equal.
Qed.

Lemma map_text_lits xs : List.map text (List.map Lit xs) = xs.
Proof. induction xs as [|x xs IH]; [reflexivity|]. cbn. now rewrite IH. Qed.

Lemma psplit_ok c ps gs :
  wfl ps -> psplit c ps = Some gs ->
  split c (render ps) = List.map render gs /\ Forall wfl gs.
Proof.
  intros Hw; revert gs; induction Hw as [|p ps Hp Hps IH]; intros gs H.
  - injection H as <-. split; [reflexivity|repeat constructor].
  - cbn [psplit] in H. rewrite render_cons.
    destruct (holds c p) as [[]|] eqn:E; [| |discriminate];
      destruct (psplit c ps) as [gs'|] eqn:E'; try discriminate;
      injection H as <-; destruct (IH _ eq_refl) as [H1 H2];
      pose proof (psplit_nonempty _ _ _ E') as Hn.
    + rewrite split_app_gen, H1. split.
      * rewrite map_render_attach, map_text_lits; auto.
        intros C. apply (split_not_nil c (text p)).
        now destruct (split c (text p)).
      * apply attach_wf; [apply wfl_lits|exact H2].
    + rewrite split_app by exact (holds_ok _ _ _ Hp E). rewrite H1.
      destruct gs' as [|g r0]; [congruence|].
      inversion H2; subst. split.
      * cbn [List.map glue]. now rewrite render_cons.
      * repeat constructor; auto.
Qed.

Lemma startsWith_app w s t :
  startsWith w (s ++ t)
  = if Nat.leb (String.length w) (String.length s) then startsWith w s
    else startsWith (take (String.length s) w) s
         && startsWith (drop (String.length s) w) t.
Proof.
  revert w; induction s as [|a s IH]; intros w.
  - destruct w; reflexivity.
  - destruct w as [|b w]; [reflexivity|].
    cbn [String.append startsWith String.length Nat.leb take drop].
    rewrite IH. destruct (Nat.leb _ _); [reflexivity|].
    now rewrite andb_assoc.
Qed.

Lemma pstarts_ok w ps b :
  pstarts w ps = Some b -> startsWith w (render ps) = b.
Proof.
  revert w b; induction ps as [|p ps IH]; intros w b H.
  - destruct w; cbn [pstarts] in H; injection H as <-; reflexivity.
  - destruct w as [|a w]; [now injection H as <-|].
    cbn [pstarts] in H. destruct p as [s|s|s]; try discriminate.
    rewrite render_cons, startsWith_app. cbn [text].
    destruct (Nat.leb _ _); [congruence|].
    destruct (startsWith (take _ _) s); [|now injection H as <-].
    cbn [andb]. now apply IH.
Qed.

Lemma drop_app n s t :
  Nat.leb n (String.length s) = true -> drop n (s ++ t) = drop n s ++ t.
Proof.
  revert s; induction n as [|n IH]; intros s H; [reflexivity|].
  destruct s as [|a s]; [discriminate|]. cbn. now apply IH.
Qed.

Lemma pdrop_ok n ps r :
  wfl ps -> pdrop n ps = Some r -> drop n (render ps) = render r /\ wfl r.
Proof.
  intros Hw H. destruct ps as [|[s|s|s] ps]; cbn [pdrop] in H.
  1,3,4: destruct n; [|discriminate]; injection H as <-; now split.
  destruct (Nat.leb n (String.length s)) eqn:E; [|discriminate].
  injection H as <-. rewrite !render_cons. cbn [text].
  split; [now apply drop_app|].
  inversion Hw; subst. now constructor.
Qed.

(** *** The functions on lines *)

Lemma from_input_pad_ok ls r :
  wfls ls -> from_input_pad ls = Some r ->
  Script.from_input_pad (List.map render ls) = List.map render r /\ wfls r.
Proof.
  intros Hw; revert r; induction Hw as [|l ls Hl Hls IH]; intros r H.
  - injection H as <-. split; [reflexivity|constructor].
  - cbn [from_input_pad bind] in H. cbn [List.map Script.from_input_pad].
    destruct (pstarts "[0:a]" l) as [b|] eqn:E; [|discriminate].
    rewrite (pstarts_ok _ _ _ E). destruct b.
    + injection H as <-. split; [reflexivity|now constructor].
    + now apply IH.
Qed.

Lemma to_closing_quote_ok ls r :
  wfls ls -> to_closing_quote ls = Some r ->
  Script.to_closing_quote (List.map render ls) = List.map render r /\ wfls r.
Proof.
  intros Hw; revert r; induction Hw as [|l ls Hl Hls IH]; intros r H.
  - injection H as <-. split; [reflexivity|constructor].
  - cbn [to_closing_quote bind] in H. cbn [List.map Script.to_closing_quote].
    destruct (pmem dquote l) as [b|] eqn:E; [|discriminate].
    rewrite (pmem_ok _ _ _ Hl E). destruct b.
    + injection H as <-. split; [reflexivity|now repeat constructor].
    + destruct (to_closing_quote ls) as [r'|]; [|discriminate].
      injection H as <-. destruct (IH _ eq_refl) as [H1 H2].
      split; [cbn [List.map]; now rewrite H1|now constructor].
Qed.

Lemma graph_text_ok l r :
  wfl l -> graph_text l = Some r ->
  Script.graph_text (render l) = render r /\ wfl r.
Proof.
  unfold graph_text, Script.graph_text, bind. intros Hw H.
  destruct (pbefore dquote l) as [a|] eqn:E; [|discriminate].
  destruct (pbefore_ok _ _ _ Hw E) as [H1 H2]. rewrite H1.
  now apply pbefore_ok.
Qed.

Lemma mapM_ok {A B} (f : A -> option B) (g : string -> string)
    (ra : A -> string) (rb : B -> string) (P : A -> Prop) (Q : B -> Prop) :
  (forall x y, P x -> f x = Some y -> g (ra x) = rb y /\ Q y) ->
  forall l r, Forall P l -> mapM f l = Some r ->
  List.map g (List.map ra l) = List.map rb r /\ Forall Q r.
Proof.
  intros Hf l r Hl; revert r; induction Hl as [|x l Hx Hl IH]; intros r H.
  - injection H as <-. split; [reflexivity|constructor].
  - cbn [mapM bind] in H.
    destruct (f x) as [y|] eqn:E; [|discriminate].
    destruct (mapM f l) as [ys|]; [|discriminate].
    injection H as <-. destruct (Hf _ _ Hx E) as [H1 H2].
    destruct (IH _ eq_refl) as [H3 H4].
    split; [cbn [List.map]; now rewrite H1, H3|now constructor].
Qed.

Lemma wfl_concat ls : wfls ls -> wfl (List.concat ls).
Proof.
  induction 1 as [|l ls Hl Hls IH]; [constructor|].
  cbn [List.concat]. now apply Forall_app.
Qed.

Lemma filter_graph_ok script ls g :
  lines script = List.map render ls -> wfls ls ->
  filter_graph ls = Some g ->
  Script.filter_graph script = render g /\ wfl g.
Proof.
  unfold filter_graph, Script.filter_graph, bind. intros -> Hw H.
  destruct (from_input_pad ls) as [a|] eqn:Ea; [|discriminate].
  destruct (from_input_pad_ok _ _ Hw Ea) as [H1 H2]. rewrite H1.
  destruct (to_closing_quote a) as [b|] eqn:Eb; [|discriminate].
  destruct (to_closing_quote_ok _ _ H2 Eb) as [H3 H4]. rewrite H3.
  destruct (mapM graph_text b) as [c|] eqn:Ec; [|discriminate].
  injection H as <-.
  destruct (mapM_ok graph_text Script.graph_text render render wfl wfl
              graph_text_ok _ _ H4 Ec) as [H5 H6].
  rewrite H5, render_concat. split; [reflexivity|now apply wfl_concat].
Qed.

Lemma strip_pads_ok f r :
  wfl f -> strip_pads f = Some r ->
  Script.strip_pads (render f) = render r /\ wfl r.
Proof.
  unfold strip_pads, Script.strip_pads, bind. intros Hw H.
  destruct (pstarts "[" f) as [b|] eqn:E; [|discriminate].
  rewrite (pstarts_ok _ _ _ E). destruct b.
  - destruct (pafter "]" f) as [a|] eqn:Ea; [|discriminate].
    destruct (pafter_ok _ _ _ Hw Ea) as [H1 H2]. rewrite H1.
    now apply pbefore_ok.
  - now apply pbefore_ok.
Qed.

Lemma filters_ok script ls fs :
  lines script = List.map render ls -> wfls ls ->
  filters ls = Some fs ->
  Script.filters script = List.map render fs /\ wfls fs.
Proof.
  unfold filters, Script.filters, bind. intros Hl Hw H.
  destruct (filter_graph ls) as [g|] eqn:Eg; [|discriminate].
  destruct (filter_graph_ok _ _ _ Hl Hw Eg) as [H1 H2]. rewrite H1.
  destruct (psplit "," g) as [gs|] eqn:Es; [|discriminate].
  destruct (psplit_ok _ _ _ H2 Es) as [H3 H4]. rewrite H3.
  exact (mapM_ok strip_pads Script.strip_pads render render wfl wfl
           strip_pads_ok _ _ H4 H).
Qed.


Lemma collect_ok {B C} (f : line -> option (option B))
    (g : string -> option C) (rb : B -> C) :
  (forall l y, wfl l -> f l = Some y -> g (render l) = option_map rb y) ->
  forall ls r, wfls ls -> collect f ls = Some r ->
  Script.collect g (List.map render ls) = List.map rb r.
Proof.
  intros Hf ls r Hw; revert r; induction Hw as [|l ls Hl Hls IH]; intros r H.
  - now injection H as <-.
  - cbn [collect bind] in H. cbn [List.map Script.collect].
    destruct (f l) as [y|] eqn:E; [|discriminate].
    destruct (collect f ls) as [ys|]; [|discriminate].
    injection H as <-. rewrite (Hf _ _ Hl E), (IH _ eq_refl).
    now destruct y.
Qed.

Lemma fallback_of_line_ok l y :
  wfl l -> fallback_of_line l = Some y ->
  Script.fallback_of_line (render l) = option_map render_pair y.
Proof.
  unfold fallback_of_line, Script.fallback_of_line, bind. intros Hw H.
  destruct (pstarts ": ${" l) as [b|] eqn:E; [|discriminate].
  rewrite (pstarts_ok _ _ _ E). destruct b; [|now injection H as <-].
  destruct (pdrop 4 l) as [body|] eqn:Ed; [|discriminate].
  destruct (pdrop_ok _ _ _ Hw Ed) as [H1 H2]. rewrite H1.
  destruct (pbefore ":" body) as [name|] eqn:En; [|discriminate].
  destruct (pbefore_ok _ _ _ H2 En) as [H3 _]. rewrite H3.
  destruct (pafter "=" body) as [rest|] eqn:Er; [|discriminate].
  destruct (pafter_ok _ _ _ H2 Er) as [H4 H5]. rewrite H4.
  destruct (pbefore "}" rest) as [value|] eqn:Ev; [|discriminate].
  destruct (pbefore_ok _ _ _ H5 Ev) as [H6 _]. rewrite H6.
  now injection H as <-.
Qed.

Lemma fallbacks_ok script ls r :
  lines script = List.map render ls -> wfls ls ->
  fallbacks ls = Some r ->
  Script.fallbacks script = List.map render_pair r.
Proof.
  unfold fallbacks, Script.fallbacks. intros -> Hw H.
  exact (collect_ok _ _ _ fallback_of_line_ok _ _ Hw H).
Qed.

Lemma phase_of_line_ok l y :
  wfl l -> phase_of_line l = Some y ->
  Script.phase_of_line (render l) = option_map (fun s => s) y.
Proof.
  unfold phase_of_line, bind, on_text. intros Hw H.
  destruct (pstarts _ l) as [b|] eqn:E; [|discriminate].
  destruct b.
  - destruct (List.forallb is_lit l); [|discriminate].
    injection H as <-. now destruct (Script.phase_of_line (render l)).
  - injection H as <-. unfold Script.phase_of_line.
    now rewrite (pstarts_ok _ _ _ E).
Qed.

Lemma phases_ok script ls r :
  lines script = List.map render ls -> wfls ls ->
  phases ls = Some r -> Script.phases script = r.
Proof.
  unfold phases, Script.phases. intros -> Hw H.
  rewrite (collect_ok _ _ _ phase_of_line_ok _ _ Hw H).
  apply map_id.
Qed.

Lemma last_phase_lines_ok ls : forall acc r,
  wfls ls -> wfls acc -> last_phase_lines ls acc = Some r ->
  Script.last_phase_lines (List.map render ls) (List.map render acc)
  = List.map render r /\ wfls r.
Proof.
  induction ls as [|l ls IH]; intros acc r Hw Ha H.
  - injection H as <-. now split.
  - inversion Hw as [|? ? Hl Hls]; subst.
    cbn [last_phase_lines bind] in H.
    cbn [List.map Script.last_phase_lines].
    destruct (phase_of_line l) as [y|] eqn:E; [|discriminate].
    rewrite (phase_of_line_ok _ _ Hl E).
    destruct y; cbn [option_map]; now apply IH.
Qed.

Lemma filterM_starts_ok w ls r :
  filterM (pstarts w) ls = Some r ->
  List.filter (startsWith w) (List.map render ls) = List.map render r.
Proof.
  revert r; induction ls as [|l ls IH]; intros r H.
  - now injection H as <-.
  - cbn [filterM bind] in H. cbn [List.map List.filter].
    destruct (pstarts w l) as [b|] eqn:E; [|discriminate].
    destruct (filterM (pstarts w) ls) as [ys|]; [|discriminate].
    injection H as <-. rewrite (pstarts_ok _ _ _ E), (IH _ eq_refl).
    now destruct b.
Qed.

Lemma cleanup_ok script ls r :
  lines script = List.map render ls -> wfls ls ->
  cleanup ls = Some r -> Script.cleanup script = List.map render r.
Proof.
  unfold cleanup, Script.cleanup, bind. intros -> Hw H.
  destruct (last_phase_lines ls []) as [a|] eqn:E; [|discriminate].
  destruct (last_phase_lines_ok _ _ _ Hw (Forall_nil _) E) as [H1 _].
  cbn [List.map] in H1. rewrite H1. now apply filterM_starts_ok.
Qed.

Lemma on_text_id l s : on_text (fun s => s) l = Some s -> render l = s.
Proof. unfold on_text. destruct (List.forallb is_lit l); congruence. Qed.

Lemma option_pair_ok kv y :
  wfl kv -> option_pair kv = Some y ->
  (before "=" (render kv), after "=" (render kv)) = render_option y.
Proof.
  unfold option_pair, bind. intros Hw H.
  destruct (pbefore "=" kv) as [key|] eqn:Ek; [|discriminate].
  destruct (on_text _ key) as [k|] eqn:Et; [|discriminate].
  destruct (pafter "=" kv) as [v|] eqn:Ev; [|discriminate].
  injection H as <-.
  destruct (pbefore_ok _ _ _ Hw Ek) as [H1 _].
  destruct (pafter_ok _ _ _ Hw Ev) as [H2 _].
  unfold render_option; cbn [fst snd].
  now rewrite H1, H2, (on_text_id _ _ Et).
Qed.

Lemma filter_options_ok f kvs :
  wfl f -> filter_options f = Some kvs ->
  Script.filter_options (render f) = List.map render_option kvs.
Proof.
  unfold filter_options, Script.filter_options, bind. intros Hw H.
  destruct (pafter "=" f) as [args|] eqn:Ea; [|discriminate].
  destruct (pafter_ok _ _ _ Hw Ea) as [H1 H2]. rewrite H1.
  destruct (psplit ":" args) as [gs|] eqn:Es; [|discriminate].
  destruct (psplit_ok _ _ _ H2 Es) as [H3 H4]. rewrite H3.
  clear - H H4. revert kvs H.
  induction H4 as [|kv gs Hkv Hgs IH]; intros kvs H.
  - now injection H as <-.
  - cbn [mapM bind] in H.
    destruct (option_pair kv) as [y|] eqn:E; [|discriminate].
    destruct (mapM option_pair gs) as [ys|]; [|discriminate].
    injection H as <-. cbn [List.map].
    now rewrite (option_pair_ok _ _ Hkv E), (IH _ eq_refl).
Qed.

Lemma find_named_ok name fs o :
  wfls fs -> find_named name fs = Some o ->
  List.find (fun f => String.eqb (Script.filter_name f) name)
            (List.map render fs)
  = option_map render o
  /\ match o with Some f => wfl f | None => True end.
Proof.
  intros Hw; revert o; induction Hw as [|f fs Hf Hfs IH]; intros o H.
  - injection H as <-. now split.
  - cbn [find_named] in H. unfold bind in H. cbn [List.map List.find].
    destruct (filter_name f) as [n|] eqn:En; [|discriminate].
    destruct (on_text (fun s => s) n) as [s|] eqn:Es; [|discriminate].
    destruct (pbefore_ok _ _ _ Hf En) as [H1 _].
    unfold Script.filter_name. rewrite H1, (on_text_id _ _ Es).
    destruct (String.eqb s name); [|now apply IH].
    injection H as <-. now split.
Qed.

Lemma assoc_ok k kvs :
  Script.assoc k (List.map render_option kvs) = option_map render (assoc k kvs).
Proof.
  induction kvs as [|[k' v] kvs IH]; [reflexivity|].
  cbn [List.map render_option Script.assoc assoc fst snd].
  now destruct (String.eqb k' k).
Qed.

Lemma filter_option_ok script ls name k o :
  lines script = List.map render ls -> wfls ls ->
  filter_option ls name k = Some o ->
  Script.filter_option script name k = option_map render o.
Proof.
  unfold filter_option, Script.filter_option, bind. intros Hl Hw H.
  destruct (filters ls) as [fs|] eqn:Ef; [|discriminate].
  destruct (filters_ok _ _ _ Hl Hw Ef) as [H1 H2]. rewrite H1.
  destruct (find_named name fs) as [fo|] eqn:En; [|discriminate].
  destruct (find_named_ok _ _ _ H2 En) as [H3 H4]. rewrite H3.
  destruct fo as [f|]; cbn [option_map]; [|now injection H as <-].
  destruct (filter_options f) as [kvs|] eqn:Eo; [|discriminate].
  injection H as <-.
  now rewrite (filter_options_ok _ _ H4 Eo), assoc_ok.
Qed.

End TaggedFacts.

Module ScriptFacts.
Import Str JS Types Utils StrFacts NumText Tagged TaggedFacts Spec.

Lemma lines_render ls :
  ls <> [] -> wfls ls ->
  List.forallb (fun l => match pmem lf l with Some false => true | _ => false end)
               ls = true ->
  lines (unlines (List.map render ls)) = List.map render ls.
Proof.
  intros Hn Hw H. destruct ls as [|l ls]; [congruence|].
  cbn [List.map]. apply lines_unlines.
  change (render l :: List.map render ls) with (List.map render (l :: ls)).
  clear Hn. induction Hw as [|x r Hx Hr IH]; [reflexivity|].
  cbn [List.forallb List.map] in *. apply andb_true_iff in H as [H1 H2].
  rewrite (IH H2), andb_true_r.
  destruct (pmem lf x) as [[]|] eqn:E; try discriminate.
  now rewrite (pmem_ok _ _ _ Hx E).
Qed.

Lemma cons_eq {A} (x y : A) r r' : x = y -> r = r' -> x :: r = y :: r'.
Proof. now intros -> ->. Qed.

(** Name the texts of the numbers and record that they are numeric. *)
Ltac abstract_numbers :=
  repeat match goal with
  | |- context [toString ?t] =>
      let H := fresh "Hnum" in let v := fresh "v" in
      pose proof (toString_numeric t) as H; revert H;
      generalize (toString t); intros v H
  | |- context [toFixed ?n ?t] =>
      let H := fresh "Hnum" in let v := fresh "v" in
      pose proof (toFixed_numeric n t) as H; revert H;
      generalize (toFixed n t); intros v H
  end.

(** The pieces of a line, by their kinds. *)
Ltac reify_atom x :=
  lazymatch goal with
  | _ : forallb numeric_char x = true |- _ => constr:(Num x)
  | _ : no_lf x = true |- _ => constr:(Path x)
  | _ => constr:(Lit x)
  end.

Ltac reify_pieces l :=
  lazymatch l with
  | @nil _ => constr:(@nil piece)
  | ?x :: ?r =>
      let r' := reify_pieces r in
      lazymatch x with
      | cat ?l2 =>
          let x' := reify_pieces l2 in
          let a := eval cbv [List.app] in (x' ++ r')%list in a
      | _ => let px := reify_atom x in constr:(px :: r')
      end
  end.

Ltac reify_line x :=
  lazymatch x with
  | cat ?l => reify_pieces l
  | _ => let a := reify_atom x in constr:([a])
  end.

Ltac reify_lines ls :=
  lazymatch ls with
  | @nil _ => constr:(@nil (list piece))
  | ?x :: ?r =>
      let x' := reify_line x in
      let r' := reify_lines r in
      constr:(x' :: r')
  end.

Ltac norm_cat :=
  unfold render; cbn [List.map text];
  repeat (progress (rewrite ?cat_cons, ?cat_nil, ?append_assoc, ?append_empty_r;
                    cbn [String.append]));
  reflexivity.

Ltac wf_lines :=
  repeat (apply Forall_cons || apply Forall_nil);
  repeat (apply Forall_cons || apply Forall_nil);
  first [reflexivity | assumption].

Ltac unfold_stages :=
  unfold highpass, afftdn, lowpass, deesser, compressor, limiter,
    deesserFreqVal, click.

(** The script of the goal as lines of pieces: leaves [tl], the proof [W]
    that its pieces are well formed and the proof [L] that it spells the
    lines of the script. *)
Ltac read_script :=
  unfold full_script, full_lines, preview_script, preview_lines;
  unfold_stages; abstract_numbers;
  match goal with
  | |- context [unlines ?ls] =>
      let tl := reify_lines ls in
      let t := fresh "tl" in
      let W := fresh "W" in let L := fresh "L" in
      assert (W : wfls tl) by wf_lines;
      assert (L : lines (unlines ls) = List.map render tl)
        by (rewrite <- (lines_render tl ltac:(discriminate) W
                          ltac:(vm_compute; reflexivity));
            apply f_equal, f_equal; cbn [List.map];
            repeat (apply cons_eq; [norm_cat|]); reflexivity)
  end.

Ltac by_reading lemma :=
  match goal with
  | L : lines ?s = List.map render ?t, W : wfls ?t |- _ =>
      let N := fresh "N" in
      eassert (N : _ = Some _);
      [ | rewrite (lemma _ _ _ L W N) ]; [ vm_compute; reflexivity | ]
  end.

Lemma no_lf_drop n s : no_lf s = true -> no_lf (drop n s) = true.
Proof.
  unfold no_lf. revert s; induction n as [|n IH]; intros [|c s]; cbn; auto.
  intros H. apply negb_true_iff, orb_false_iff in H as [_ H].
  apply IH. now rewrite H.
Qed.

Lemma no_lf_resolve p : no_lf p = true -> no_lf (resolveShellPath p) = true.
Proof.
  intros H. unfold resolveShellPath.
  destruct (String.eqb p EmptyString); [exact H|].
  destruct (startsWith "~/" p); [|exact H].
  pose proof (no_lf_drop 2 p H) as D. unfold no_lf in *.
  rewrite mem_app. apply negb_true_iff in D. now rewrite D.
Qed.

Lemma no_lf_input inputPath :
  no_lf inputPath = true ->
  no_lf (resolveShellPath (str_or inputPath "input.m4b")) = true.
Proof.
  intros H. apply no_lf_resolve. unfold str_or.
  now destruct (String.eqb inputPath EmptyString).
Qed.

Lemma no_lf_output o d :
  Spec.no_lf_opt o = true -> no_lf d = true ->
  no_lf (resolveShellPath (opt_or o d)) = true.
Proof.
  intros H Hd. apply no_lf_resolve. destruct o as [v|]; [|exact Hd].
  cbn [opt_or]. unfold str_or. now destruct (String.eqb v EmptyString).
Qed.

Lemma generate_shape config inputPath mode outputFilePath :
  no_lf inputPath = true -> Spec.no_lf_opt outputFilePath = true ->
  shape config inputPath outputFilePath
        (generateFFmpegCommand config inputPath mode outputFilePath).
Proof.
  intros Hi Ho. unfold generateFFmpegCommand.
  destruct (String.eqb mode "full").
  - eapply shape_full; [| |reflexivity].
    + now apply no_lf_input.
    + now apply no_lf_output.
  - eapply shape_preview; [| |reflexivity].
    + now apply no_lf_input.
    + apply no_lf_output; [exact Ho|].
      now destruct (String.eqb mode "test-45s").
Qed.



Ltac by_filters :=
  match goal with
  | L : lines ?s = List.map render ?t, W : wfls ?t |- _ =>
      let N := fresh "N" in let F := fresh "F" in
      eassert (N : filters t = Some _) by (vm_compute; reflexivity);
      destruct (filters_ok _ _ _ L W N) as [F _]; rewrite F; clear F N;
      cbn [List.map]
  end.

Lemma filters_preview config si so d :
  no_lf si = true -> no_lf so = true ->
  Script.filters (preview_script config si so d)
  = ["aformat=sample_fmts=fltp:sample_rates=44100:channel_layouts=stereo";
     highpass config; afftdn config; lowpass config; click; deesser config;
     compressor config; preview_loudnorm config; limiter config;
     "aformat=channel_layouts=mono"].
Proof.
  intros Hsi Hso. unfold preview_loudnorm. read_script. by_filters.
  repeat (apply cons_eq; [norm_cat|]). reflexivity.
Qed.

Lemma filters_full config si so :
  no_lf si = true -> no_lf so = true ->
  Script.filters (full_script config si so)
  = ["aformat=sample_fmts=fltp:sample_rates=44100:channel_layouts=stereo";
     highpass config; afftdn config; lowpass config; click; deesser config;
     compressor config; full_loudnorm config; limiter config;
     "aformat=channel_layouts=mono"].
Proof.
  intros Hsi Hso. unfold full_loudnorm. read_script. by_filters.
  repeat (apply cons_eq; [norm_cat|]). reflexivity.
Qed.

Ltac by_option name k :=
  match goal with
  | L : lines ?s = List.map render ?t, W : wfls ?t |- _ =>
      let N := fresh "N" in
      eassert (N : filter_option t name k = Some _)
        by (vm_compute; reflexivity);
      rewrite (filter_option_ok _ _ _ _ _ L W N); clear N
  end.

Ltac close_options :=
  cbn [List.map option_map fst snd];
  unfold render_pair, render_option, render; cbn [List.map text fst snd];
  repeat (progress (rewrite ?cat_cons, ?cat_nil, ?append_empty_r;
                    cbn [String.append]));
  repeat split; reflexivity.

Ltac read_options :=
  by_option "acompressor" "ratio"; by_option "acompressor" "attack";
  by_option "acompressor" "release"; by_option "acompressor" "makeup";
  by_option "afftdn" "nr"; by_option "afftdn" "nf";
  by_option "deesser" "i"; by_option "deesser" "f".

Lemma derived_options_preview config si so d :
  no_lf si = true -> no_lf so = true ->
  derived_options config (preview_script config si so d).
Proof.
  intros Hsi Hso. unfold derived_options.
  read_script. read_options. close_options.
Qed.

Lemma derived_options_full config si so :
  no_lf si = true -> no_lf so = true ->
  derived_options config (full_script config si so).
Proof.
  intros Hsi Hso. unfold derived_options.
  read_script. read_options. close_options.
Qed.

Lemma derived_options_generate config inputPath mode outputFilePath :
  no_lf inputPath = true -> Spec.no_lf_opt outputFilePath = true ->
  derived_options config
    (generateFFmpegCommand config inputPath mode outputFilePath).
Proof.
  intros Hi Ho.
  destruct (generate_shape config inputPath mode outputFilePath Hi Ho)
    as [si so Hsi Hso ->|si so d Hsi Hso ->].
  - now apply derived_options_full.
  - now apply derived_options_preview.
Qed.


End ScriptFacts.

Module ScanFacts.
Import JS Types App Spec.

Local Open Scope nat_scope.

Lemma windowSize_pos : 0 < windowSize.
Proof. unfold windowSize. lia. Qed.

Local Opaque windowSize.

Lemma skipn_nth {A} (d : A) : forall n (l : list A),
  n < List.length l -> skipn n l = nth n l d :: skipn (S n) l.
Proof.
  induction n as [|n IH]; intros [|x l] H; cbn in *; try lia; [reflexivity|].
  apply IH. lia.
Qed.

Lemma window_loop_spec rawData i : forall fuel j v,
  window_loop fuel rawData i j v
  = fold_left wstep
      (firstn (Nat.min fuel (windowSize - j)) (skipn (i + j) rawData)) v.
Proof.
  induction fuel as [|f IH]; intros j v; [reflexivity|].
  cbn [window_loop].
  destruct (Nat.ltb_spec j windowSize) as [Hj|Hj];
    [destruct (Nat.ltb_spec (i + j) (List.length rawData)) as [Hl|Hl]|];
    cbn [andb].
  - rewrite IH. rewrite (skipn_nth NaN (i + j)) by exact Hl.
    replace (Nat.min (S f) (windowSize - j))
      with (S (Nat.min f (windowSize - S j))) by lia.
    cbn [firstn fold_left]. now rewrite Nat.add_succ_r.
  - rewrite skipn_all2 by lia. now rewrite firstn_nil.
  - replace (windowSize - j) with 0 by lia. now rewrite Nat.min_0_r.
Qed.

Lemma fold_wstep w : forall v,
  fold_left wstep w v
  = {| windowSum := sum_squares_from (windowSum v) w;
       count := count v + List.length w;
       w_sumSquares := sum_squares_from (w_sumSquares v) w;
       w_peak := peak_from (w_peak v) w |}.
Proof.
  induction w as [|x w IH]; intros v.
  - destruct v; cbn. now rewrite Nat.add_0_r.
  - cbn [fold_left]. rewrite IH. cbn [wstep windowSum count w_sumSquares w_peak
      List.length]. unfold sum_squares_from, peak_from. cbn [fold_left].
    f_equal. lia.
Qed.

Lemma sum_squares_from_app a w1 w2 :
  sum_squares_from (sum_squares_from a w1) w2 = sum_squares_from a (w1 ++ w2).
Proof. unfold sum_squares_from. now rewrite fold_left_app. Qed.

Lemma peak_from_app a w1 w2 :
  peak_from (peak_from a w1) w2 = peak_from a (w1 ++ w2).
Proof. unfold peak_from. now rewrite fold_left_app. Qed.

Lemma scan_loop_spec rawData : forall fuel i s,
  List.length (skipn i rawData) <= fuel ->
  scan_loop fuel rawData i s
  = {| sumSquares := sum_squares_from (sumSquares s) (skipn i rawData);
       peak := peak_from (peak s) (skipn i rawData);
       rmsWindows :=
         rmsWindows s
           ++ List.map rms (windows_fuel fuel windowSize (skipn i rawData)) |}.
Proof.
  pose proof windowSize_pos as HW.
  induction fuel as [|f IH]; intros i s Hf.
  - destruct (skipn i rawData) eqn:E; [|cbn in Hf; lia].
    destruct s; cbn. now rewrite app_nil_r.
  - cbn [scan_loop]. rewrite length_skipn in Hf.
    destruct (Nat.ltb_spec i (List.length rawData)) as [Hi|Hi].
    + rewrite window_loop_spec, fold_wstep.
      cbn [windowSum count w_sumSquares w_peak].
      rewrite Nat.sub_0_r, Nat.min_id, Nat.add_0_r.
      set (l := skipn i rawData).
      assert (Hl : List.length l = List.length rawData - i)
        by (subst l; apply length_skipn).
      assert (Hc : 0 < List.length (firstn windowSize l))
        by (rewrite length_firstn; lia).
      rewrite IH by (rewrite length_skipn; lia).
      replace (skipn (i + windowSize) rawData) with (skipn windowSize l)
        by (subst l; rewrite skipn_skipn; f_equal; lia).
      cbn [sumSquares peak rmsWindows].
      rewrite sum_squares_from_app, peak_from_app, firstn_skipn.
      destruct (Nat.ltb_spec 0 (0 + List.length (firstn windowSize l)));
        [|lia].
      assert (Hw : windows_fuel (S f) windowSize l
                   = firstn windowSize l
                     :: windows_fuel f windowSize (skipn windowSize l))
        by (destruct l; [cbn in Hl; lia|reflexivity]).
      rewrite Hw. cbn [List.map]. rewrite <- app_assoc. reflexivity.
    + rewrite skipn_all2 by lia. destruct s; cbn. now rewrite app_nil_r.
Qed.

Lemma scan_spec rawData :
  scan rawData
  = {| sumSquares := sum_squares rawData;
       peak := peak_from (lit 0 0) rawData;
       rmsWindows := window_rms rawData |}.
Proof.
  unfold scan. rewrite scan_loop_spec by (cbn [skipn]; lia). reflexivity.
Qed.





Lemma windows_count W : 0 < W -> forall fuel l,
  List.length l <= fuel ->
  List.length (windows_fuel fuel W l) = (List.length l + W - 1) / W.
Proof.
  intros HW. induction fuel as [|f IH]; intros l H.
  - destruct l; [|cbn in H; lia]. cbn. symmetry. apply Nat.div_small. lia.
  - destruct l as [|x l].
    + cbn. symmetry. apply Nat.div_small. lia.
    + cbn [windows_fuel List.length].
      rewrite IH by (rewrite length_skipn; cbn [List.length] in *; lia).
      rewrite length_skipn. cbn [List.length].
      destruct (Nat.le_gt_cases W (S (List.length l))) as [Hle|Hgt].
      * replace (S (List.length l) + W - 1)
          with (S (List.length l) - W + W - 1 + 1 * W) by lia.
        rewrite Nat.div_add by lia. lia.
      * replace (S (List.length l) - W) with 0 by lia.
        rewrite (Nat.div_small (0 + W - 1)) by lia.
        apply (Nat.div_unique _ _ 1 (List.length l)); lia.
Qed.

(** *** A silent buffer *)

Lemma zeros_sum_squares l :
  Forall (fun x => is_zero x = true) l ->
  sum_squares_from (S754_zero false) l = S754_zero false.
Proof.
  induction 1 as [|x l Hx Hl IH]; [reflexivity|].
  unfold sum_squares_from in *. cbn [fold_left].
  destruct x as [s| | |]; try discriminate.
  replace (add (S754_zero false) (mul (S754_zero s) (S754_zero s)))
    with (S754_zero false) by now destruct s.
  exact IH.
Qed.

Lemma zeros_peak l :
  Forall (fun x => is_zero x = true) l ->
  peak_from (S754_zero false) l = S754_zero false.
Proof.
  induction 1 as [|x l Hx Hl IH]; [reflexivity|].
  unfold peak_from in *. cbn [fold_left].
  destruct x as [s| | |]; try discriminate. exact IH.
Qed.

Lemma zero_over_falsy y : falsy (Math_sqrt (div (S754_zero false) y)).
Proof. destruct y as [s|s| |s m e]; try destruct s; reflexivity. Qed.

Lemma Forall_firstn' {A} (P : A -> Prop) n : forall l,
  Forall P l -> Forall P (firstn n l).
Proof.
  induction n as [|n IH]; intros l H; [constructor|].
  destruct H; cbn [firstn]; constructor; auto.
Qed.

Lemma Forall_skipn' {A} (P : A -> Prop) n : forall l,
  Forall P l -> Forall P (skipn n l).
Proof.
  induction n as [|n IH]; intros l H; [exact H|].
  destruct H; cbn [skipn]; [constructor|auto].
Qed.

Lemma zeros_windows fuel W l :
  Forall (fun x => is_zero x = true) l ->
  Forall (Forall (fun x => is_zero x = true)) (windows_fuel fuel W l).
Proof.
  revert l; induction fuel as [|f IH]; intros l H; [constructor|].
  destruct l as [|x l]; [constructor|].
  cbn [windows_fuel]. constructor.
  - now apply Forall_firstn'.
  - now apply IH, Forall_skipn'.
Qed.

Lemma zeros_window_rms rawData :
  Forall (fun x => is_zero x = true) rawData ->
  Forall falsy (window_rms rawData).
Proof.
  intros H. unfold window_rms. apply Forall_map.
  eapply Forall_impl; [|apply zeros_windows, H].
  intros w Hw. unfold rms, sum_squares.
  change (lit 0 0) with (S754_zero false).
  rewrite zeros_sum_squares by exact Hw. apply zero_over_falsy.
Qed.

Lemma sort_insert_Forall (P : number -> Prop) cmp x l :
  P x -> Forall P l -> Forall P (sort_insert cmp x l).
Proof.
  intros Hx. induction 1 as [|y l Hy Hl IH]; cbn [sort_insert].
  - now repeat constructor.
  - destruct (positive_result (cmp x y)); repeat constructor; auto.
Qed.

Lemma sort_Forall (P : number -> Prop) cmp l :
  Forall P l -> Forall P (sort cmp l).
Proof.
  unfold sort. induction 1 as [|x l Hx Hl IH]; [constructor|].
  cbn [fold_right]. now apply sort_insert_Forall.
Qed.



Lemma or_else_falsy x d : falsy x -> or_else x d = d.
Proof. unfold falsy, or_else. now intros ->. Qed.

(** *** The sort *)








(** *** The index of the decile *)

Lemma decile_below_spec c k : forall a,
  decile_below c k a = true ->
  forall n, (a <= n < a + 2 ^ Z.of_nat k)%Z -> decile_ok c n = true.
Proof.
  induction k as [|k IH]; intros a H n Hn.
  - cbn in *. now replace n with a by lia.
  - cbn [decile_below] in H. apply andb_true_iff in H as [H1 H2].
    rewrite Nat2Z.inj_succ, Z.pow_succ_r in Hn by lia.
    destruct (Z.lt_ge_cases n (a + 2 ^ Z.of_nat k)) as [L|G].
    + apply (IH _ H1). lia.
    + apply (IH _ H2). lia.
Qed.

Lemma decile_checked : decile_below (lit 1 (-1)) 14 0 = true.
Proof. vm_compute. reflexivity. Qed.

Lemma decile_index n :
  (Z.of_nat n < 16384)%Z ->
  to_index (Math_floor (mul (of_nat n) (lit 1 (-1)))) = Some (n / 10).
Proof.
  intros H.
  pose proof (decile_below_spec _ _ _ decile_checked (Z.of_nat n)) as D.
  change (2 ^ Z.of_nat 14)%Z with 16384%Z in D.
  unfold decile_ok, of_nat, to_index in *.
  destruct (to_index_Z _) as [i|]; [|now discriminate D; lia].
  cbn [option_map]. f_equal.
  assert (E : (i =? Z.of_nat n / 10)%Z = true) by (apply D; lia).
  apply Z.eqb_eq in E. rewrite E.
  change 10%Z with (Z.of_nat 10). rewrite <- Nat2Z.inj_div.
  apply Nat2Z.id.
Qed.

(** The report, in the words of its description. *)
Lemma analyse_spec fileSize audioBuffer :
  let rawData := channelData0 audioBuffer in
  analyse fileSize audioBuffer
  = {| estLufs := one_decimal (dB (or_else (rms rawData) floor_level));
       Types.peak :=
         one_decimal (dB (or_else (peak_from (lit 0 0) rawData) floor_level));
       noiseFloor := one_decimal (dB (noise_rms rawData));
       duration := buffer_duration audioBuffer;
       sampleRate := buffer_sampleRate audioBuffer;
       isEst := (CHUNK_SIZE <? fileSize)%Z |}.
Proof. intros rawData. unfold analyse. rewrite scan_spec. reflexivity. Qed.

Lemma noise_rms_silent rawData :
  Forall (fun x => is_zero x = true) rawData ->
  noise_rms rawData = lit 1 (-7).
Proof.
  intros H. unfold noise_rms.
  pose proof (sort_Forall _ sub _ (zeros_window_rms _ H)) as F.
  fold (ascending (window_rms rawData)) in F.
  generalize dependent (ascending (window_rms rawData)). intros l F.
  unfold decile.
  destruct (to_index _) as [i|]; [|reflexivity].
  destruct (nth_error l i) as [v|] eqn:E; [|reflexivity].
  apply or_else_falsy. rewrite Forall_forall in F.
  eapply F, nth_error_In, E.
Qed.

Lemma rms_silent rawData :
  Forall (fun x => is_zero x = true) rawData ->
  or_else (rms rawData) floor_level = floor_level.
Proof.
  intros H. apply or_else_falsy. unfold rms, sum_squares.
  change (lit 0 0) with (S754_zero false).
  rewrite zeros_sum_squares by exact H. apply zero_over_falsy.
Qed.

Lemma peak_silent rawData :
  Forall (fun x => is_zero x = true) rawData ->
  or_else (peak_from (lit 0 0) rawData) floor_level = floor_level.
Proof.
  intros H. change (lit 0 0) with (S754_zero false).
  now rewrite zeros_peak by exact H.
Qed.

Lemma floor_levels :
  one_decimal (dB floor_level) = lit (-160) 0
  /\ one_decimal (dB (lit 1 (-7))) = lit (-140) 0.
Proof. split; vm_compute; reflexivity. Qed.

Local Opaque lit.

Lemma silent_levels fileSize audioBuffer :
  Forall (fun x => is_zero x = true) (channelData0 audioBuffer) ->
  let a := analyse fileSize audioBuffer in
  estLufs a = lit (-160) 0 /\ Types.peak a = lit (-160) 0
  /\ noiseFloor a = lit (-140) 0.
Proof.
  intros H a; subst a. rewrite analyse_spec.
  cbn [estLufs Types.peak noiseFloor].
  rewrite (rms_silent _ H), (peak_silent _ H), (noise_rms_silent _ H).
  destruct floor_levels as [E1 E2]. rewrite E1, E2. repeat split.
Qed.

Local Transparent lit.

Local Transparent windowSize.

End ScanFacts.

(* ================================================================= *)
(** ** The signal analyzer *)

Module Analyzer.
Import JS Types App Spec ScanFacts.

Local Opaque lit windowSize.



(** C4, as the code has it: on an all-zero buffer the loudness and the peak
    are both -160 dB, but the noise floor is -140 dB: its fallback is
    [0.0000001] where the other two have [0.00000001].  All three are finite. *)
Theorem silent_buffer_levels fileSize audioBuffer :
  Forall (fun x => is_zero x = true) (channelData0 audioBuffer) ->
  let a := analyse fileSize audioBuffer in
  estLufs a = lit (-160) 0
  /\ Types.peak a = lit (-160) 0
  /\ noiseFloor a = lit (-140) 0
  /\ noiseFloor a <> estLufs a.
Proof.
  intros H a.
  destruct (silent_levels fileSize audioBuffer H) as (E1 & E2 & E3).
  fold a in E1, E2, E3. rewrite E1, E2, E3.
  repeat split. vm_compute. discriminate.
Qed.

Lemma silent_buffer_levels_witness :
  let a := analyse 0 silence in
  Forall (fun x => is_zero x = true) (channelData0 silence)
  /\ estLufs a = lit (-160) 0
  /\ Types.peak a = lit (-160) 0
  /\ noiseFloor a = lit (-140) 0
  /\ noiseFloor a <> estLufs a.
Proof.
  assert (H : Forall (fun x => is_zero x = true) (channelData0 silence))
    by (repeat constructor).
  split; [exact H|].
  exact (silent_buffer_levels 0 silence H).
Defined.



Local Transparent lit windowSize.



End Analyzer.

(* ================================================================= *)
(** ** Presets *)

Module Presets.
Import JS Types App Spec.

Lemma applyPreset_config st preset :
  In preset PRESETS ->
  config (applyPreset (id preset) st)
  = spread (config st) (Types.config preset).
Proof.
  intros H. unfold applyPreset.
  assert (F : find (fun p => String.eqb (id p) (id preset)) PRESETS
              = Some preset).
  { cbv [PRESETS] in H.
    repeat (destruct H as [<-|H]; [reflexivity|]). destruct H. }
  rewrite F. reflexivity.
Qed.

Local Opaque lit.

(** C10: applying one of the five presets leaves every field the preset
    does not list at its previous value, and gives every field it lists the
    value the preset has for it. *)
Theorem applyPreset_frame st preset k :
  In preset PRESETS ->
  (listed k (Types.config preset) = false ->
   get k (config (applyPreset (id preset) st)) = get k (config st))
  /\ (forall v, In (k, v) (Types.config preset) ->
      get k (config (applyPreset (id preset) st)) = v).
Proof.
  intros H. rewrite (applyPreset_config st preset H).
  cbv [PRESETS] in H.
  repeat (destruct H as [<-|H];
          [split;
           [destruct k; cbn; intros E; congruence
           |intros v Hv; cbn in Hv;
            repeat (destruct Hv as [Hv|Hv];
                    [injection Hv as <- <-; reflexivity|]);
            destruct Hv]|]).
  destruct H.
Qed.

Local Transparent lit.

Lemma applyPreset_frame_witness :
  match PRESETS with
  | preset :: _ =>
      In preset PRESETS
      /\ (listed k_lowpassFreq (Types.config preset) = false ->
          get k_lowpassFreq (config (applyPreset (id preset) fresh))
          = get k_lowpassFreq (config fresh))
      /\ (forall v, In (k_lowpassFreq, v) (Types.config preset) ->
          get k_lowpassFreq (config (applyPreset (id preset) fresh)) = v)
  | [] => False
  end.
Proof.
  cbv [PRESETS]. split; [left; reflexivity|].
  apply (applyPreset_frame fresh _ k_lowpassFreq). left; reflexivity.
Defined.

End Presets.

(* ================================================================= *)
(** ** The parameter mapper *)

Module Mapper.
Import Str JS Types Utils Spec ScriptFacts.





Lemma book_no_lf : no_lf book = true.
Proof. reflexivity. Qed.

(** C6: the options of the compressor in the generated command are the
    four formulas in the compression amount [c], written with [toFixed];
    at [c = 0] they read 2.0, 20.0, 250 and 2.0.  (Paths of one line.) *)
Theorem compressor_formulas config inputPath mode outputFilePath :
  no_lf inputPath = true -> no_lf_opt outputFilePath = true ->
  let c := compressionAmount config in
  let script := generateFFmpegCommand config inputPath mode outputFilePath in
  Script.filter_option script "acompressor" "ratio"
    = Some (toFixed 1 (add (lit 2 0) (mul c (lit 3 0))))
  /\ Script.filter_option script "acompressor" "attack"
    = Some (toFixed 1 (sub (lit 20 0) (mul c (lit 18 0))))
  /\ Script.filter_option script "acompressor" "release"
    = Some (toFixed 0 (sub (lit 250 0) (mul c (lit 200 0))))
  /\ Script.filter_option script "acompressor" "makeup"
    = Some (toFixed 1 (add (lit 2 0) (mul c (lit 2 0))))
  /\ (c = lit 0 0 ->
      Script.filter_option script "acompressor" "ratio" = Some "2.0"
      /\ Script.filter_option script "acompressor" "attack" = Some "20.0"
      /\ Script.filter_option script "acompressor" "release" = Some "250"
      /\ Script.filter_option script "acompressor" "makeup" = Some "2.0").
Proof.
  intros Hi Ho c script.
  destruct (derived_options_generate config inputPath mode outputFilePath Hi Ho)
    as (E1 & E2 & E3 & E4 & _).
  fold script in E1, E2, E3, E4.
  unfold ratio in E1. unfold attack in E2. unfold release in E3.
  unfold makeup in E4. fold c in E1, E2, E3, E4.
  repeat (split; [assumption|]).
  intros Hc. rewrite E1, E2, E3, E4, Hc.
  repeat split; vm_compute; reflexivity.
Qed.

Lemma compressor_formulas_witness :
  let config := with_compression (lit 0 0) DEFAULT_CONFIG in
  let script := generateFFmpegCommand config book "full" None in
  no_lf book = true /\ no_lf_opt None = true
  /\ compressionAmount config = lit 0 0
  /\ Script.filter_option script "acompressor" "ratio" = Some "2.0"
  /\ Script.filter_option script "acompressor" "attack" = Some "20.0"
  /\ Script.filter_option script "acompressor" "release" = Some "250"
  /\ Script.filter_option script "acompressor" "makeup" = Some "2.0".
Proof.
  intros config script.
  split; [reflexivity|]. split; [reflexivity|]. split; [reflexivity|].
  apply (compressor_formulas config book "full" None
           book_no_lf eq_refl).
  reflexivity.
Defined.






End Mapper.

(* ================================================================= *)
(** ** The processing planner *)

Module Planner.
Import Str JS Types Utils Spec ScriptFacts.









End Planner.

(* ================================================================= *)
(** ** Paths *)

Module TextFacts.
Import Str StrFacts Text.

Lemma rev_onto_app s : forall acc, rev_onto s acc = rev s ++ acc.
Proof.
  unfold rev. induction s as [|c s IH]; intros acc; [reflexivity|].
  cbn [rev_onto]. rewrite IH, (IH (String c EmptyString)).
  now rewrite append_assoc.
Qed.

Lemma rev_cons c s : rev (String c s) = rev s ++ String c EmptyString.
Proof. unfold rev at 1. cbn [rev_onto]. apply rev_onto_app. Qed.

Lemma rev_app a b : rev (a ++ b) = rev b ++ rev a.
Proof.
  induction a as [|c a IH]; cbn [String.append].
  - now rewrite append_empty_r.
  - now rewrite !rev_cons, IH, append_assoc.
Qed.

Lemma rev_involutive s : rev (rev s) = s.
Proof.
  induction s as [|c s IH]; [reflexivity|].
  now rewrite rev_cons, rev_app, IH.
Qed.

Lemma startsWith_refl_app p s : startsWith p (p ++ s) = true.
Proof.
  induction p as [|c p IH]; [reflexivity|].
  cbn. now rewrite Ascii.eqb_refl.
Qed.

Lemma endsWith_app p a : endsWith p (a ++ p) = true.
Proof. unfold endsWith. rewrite rev_app. apply startsWith_refl_app. Qed.

(** A text that ends with the byte [c] is some text followed by [c]. *)
Lemma endsWith_char c s :
  endsWith (String c EmptyString) s = true ->
  exists d, s = d ++ String c EmptyString.
Proof.
  unfold endsWith. intros H. exists (rev (drop 1 (rev s))).
  destruct (rev s) as [|a r] eqn:E; [discriminate|].
  cbn in H. rewrite andb_true_r in H. apply Ascii.eqb_eq in H. subst a.
  cbn [drop]. rewrite <- (rev_involutive s), E, rev_cons. reflexivity.
Qed.

Lemma length_app a b :
  String.length (a ++ b) = (String.length a + String.length b)%nat.
Proof. induction a as [|c a IH]; cbn; [reflexivity|now rewrite IH]. Qed.

Lemma take_app_length a b : take (String.length a) (a ++ b) = a.
Proof. induction a as [|c a IH]; cbn; [now destruct b|now rewrite IH]. Qed.

Lemma slice_0_m1_app d c : slice_0_m1 (d ++ String c EmptyString) = d.
Proof.
  unfold slice_0_m1. rewrite length_app. cbn [String.length].
  replace (String.length d + 1 - 1)%nat with (String.length d) by lia.
  apply take_app_length.
Qed.

(** *** Splitting at the separators *)

Lemma split_where_not_nil sep s : split_where sep s <> [].
Proof.
  induction s as [|c s IH]; cbn; [discriminate|].
  destruct (sep c); [discriminate|].
  now destruct (split_where sep s).
Qed.

Lemma split_where_two sep a c b :
  sep c = true ->
  exists y z r, split_where sep (a ++ String c b) = y :: z :: r.
Proof.
  intros Hc. induction a as [|x a (y & z & r & IH)]; cbn [String.append split_where].
  - rewrite Hc. destruct (split_where sep b) as [|z r] eqn:E.
    + now apply split_where_not_nil in E.
    + now exists EmptyString, z, r.
  - rewrite IH. destruct (sep x).
    + now exists EmptyString, y, (z :: r).
    + cbn [glue]. now exists (String x EmptyString ++ y), z, r.
Qed.

Lemma pop_cons x l : l <> [] -> pop (x :: l) = pop l.
Proof. destruct l; [congruence|reflexivity]. Qed.

(** The last piece of a path is the last piece of what follows a
    separator. *)
Lemma pop_split_app sep a c b :
  sep c = true ->
  pop (split_where sep (a ++ String c b)) = pop (split_where sep b).
Proof.
  intros Hc. induction a as [|x a IH]; cbn [String.append split_where].
  - rewrite Hc. apply pop_cons, split_where_not_nil.
  - destruct (split_where_two sep a c b Hc) as (y & z & r & E).
    rewrite E in *. destruct (sep x); cbn [glue]; exact IH.
Qed.

Lemma split_where_none sep s :
  forallb (fun c => negb (sep c)) s = true -> split_where sep s = [s].
Proof.
  induction s as [|c s IH]; [reflexivity|]. cbn.
  intros H. apply andb_true_iff in H as [H1 H2].
  apply negb_true_iff in H1. now rewrite H1, (IH H2).
Qed.

Lemma split_where_pieces sep s :
  Forall (fun p => forallb (fun c => negb (sep c)) p = true)
         (split_where sep s).
Proof.
  induction s as [|c s IH]; cbn [split_where]; [now repeat constructor|].
  destruct (sep c) eqn:E; [now constructor|].
  destruct (split_where sep s) as [|p r]; cbn [glue].
  - repeat constructor. cbn. now rewrite E.
  - inversion IH as [|? ? Hp Hr]; subst. constructor; [|exact Hr].
    cbn. now rewrite E, Hp.
Qed.

Lemma pop_In l x : pop l = Some x -> In x l.
Proof.
  induction l as [|y l IH]; [discriminate|].
  destruct l as [|z l]; cbn [pop]; intros H.
  - injection H as ->. now left.
  - right. now apply IH.
Qed.

(** *** Cutting the extension *)

Lemma forallb_dot_app f a b :
  f "."%char = false -> forallb f (a ++ String "."%char b) = false.
Proof.
  intros H. rewrite forallb_app. cbn. rewrite H.
  now rewrite andb_false_r.
Qed.

Lemma extension_here_inner c stem ext :
  extension_here (String c (stem ++ String "."%char ext)) = false.
Proof.
  unfold extension_here.
  rewrite (forallb_dot_app not_slash_dot stem ext eq_refl).
  apply andb_false_r.
Qed.

Lemma replace_extension_stem stem ext :
  ext <> EmptyString -> forallb not_slash_dot ext = true ->
  replace_extension (stem ++ String "."%char ext) = stem.
Proof.
  intros Hne Hext. induction stem as [|c stem IH].
  - cbn [String.append replace_extension extension_here].
    rewrite Ascii.eqb_refl, Hext.
    destruct ext; [congruence|reflexivity].
  - cbn [String.append].
    change (replace_extension (String c (stem ++ String "."%char ext)))
      with (if extension_here (String c (stem ++ String "."%char ext))
            then EmptyString
            else String c (replace_extension (stem ++ String "."%char ext))).
    now rewrite extension_here_inner, IH.
Qed.

Lemma replace_extension_none s :
  mem "."%char s = false -> replace_extension s = s.
Proof.
  induction s as [|c s IH]; [reflexivity|].
  intros H. cbn [mem] in H. apply orb_false_iff in H as [H1 H2].
  change (replace_extension (String c s))
    with (if extension_here (String c s) then EmptyString
          else String c (replace_extension s)).
  unfold extension_here. rewrite H1. cbn [andb]. now rewrite IH.
Qed.

Lemma replace_extension_forallb f s :
  forallb f s = true -> forallb f (replace_extension s) = true.
Proof.
  induction s as [|c s IH]; [reflexivity|].
  intros H. cbn [forallb] in H. apply andb_true_iff in H as [H1 H2].
  change (replace_extension (String c s))
    with (if extension_here (String c s) then EmptyString
          else String c (replace_extension s)).
  destruct (extension_here (String c s)); [reflexivity|].
  cbn [forallb]. now rewrite H1, IH.
Qed.


End TextFacts.

Module PathProps.
Import Str StrFacts NumText Text TextFacts JS Types App Utils Studio.

Lemma no_separator_app a b :
  no_separator (a ++ b) = no_separator a && no_separator b.
Proof. apply forallb_app. Qed.

Lemma ends_with_separator_char s :
  ends_with_separator s = true ->
  exists d c, s = d ++ String c EmptyString /\ is_separator c = true.
Proof.
  unfold ends_with_separator. intros H. apply orb_true_iff in H as [H|H];
    apply endsWith_char in H as [d ->].
  - now exists d, "/"%char.
  - now exists d, backslash.
Qed.

Lemma name_last_piece name :
  no_separator name = true ->
  pop (split_where is_separator name) = Some name.
Proof. intros H. now rewrite (split_where_none _ _ H). Qed.

Lemma name_after_dir dir name :
  dir = EmptyString \/ ends_with_separator dir = true ->
  no_separator name = true ->
  pop (split_where is_separator (dir ++ name)) = Some name.
Proof.
  intros [->|H] Hn; [now apply name_last_piece|].
  destruct (ends_with_separator_char _ H) as (d & c & -> & Hc).
  rewrite append_assoc. cbn [String.append].
  rewrite (pop_split_app _ d c name Hc). now apply name_last_piece.
Qed.

(** X1: The base name of [dir/stem.ext] is [stem]: what stands in front of the
    last extension of the file name, whatever the directory. *)
Theorem getBaseName_stem dir stem ext :
  dir = EmptyString \/ ends_with_separator dir = true ->
  no_separator stem = true ->
  ext <> EmptyString ->
  forallb not_slash_dot ext = true ->
  no_separator ext = true ->
  getBaseName (dir ++ stem ++ "." ++ ext) = stem.
Proof.
  intros Hd Hs Hne He1 He2. unfold getBaseName.
  rewrite (name_after_dir dir (stem ++ "." ++ ext) Hd).
  - unfold str_or.
    destruct (String.eqb (stem ++ "." ++ ext) EmptyString) eqn:E.
    + apply String.eqb_eq in E. destruct stem; discriminate.
    + now apply replace_extension_stem.
  - rewrite no_separator_app, Hs. cbn [andb].
    change ("." ++ ext) with (String "."%char ext). unfold no_separator in *.
    cbn [forallb]. now rewrite He2.
Qed.

Lemma getBaseName_stem_witness :
  ends_with_separator "~/Desktop/" = true
  /\ no_separator "my.book" = true
  /\ "m4b" <> EmptyString
  /\ forallb not_slash_dot "m4b" = true
  /\ no_separator "m4b" = true
  /\ getBaseName ("~/Desktop/" ++ "my.book" ++ "." ++ "m4b") = "my.book".
Proof.
  repeat (split; [reflexivity || discriminate|]).
  apply (getBaseName_stem "~/Desktop/" "my.book" "m4b");
    (reflexivity || discriminate || (right; reflexivity)).
Defined.

Lemma getBaseName_no_separator path :
  no_separator (getBaseName path) = true.
Proof.
  unfold getBaseName.
  destruct (pop (split_where is_separator path)) as [x|] eqn:E;
    [|reflexivity].
  apply replace_extension_forallb. unfold str_or.
  destruct (String.eqb x EmptyString); [reflexivity|].
  apply pop_In in E.
  pose proof (split_where_pieces is_separator path) as F.
  rewrite Forall_forall in F. exact (F _ E).
Qed.

(** X2: The base name never holds a path separator; for the empty path and for
    a path that ends with a separator it is [audiobook]. *)
Theorem getBaseName_clean path :
  no_separator (getBaseName path) = true
  /\ (path = EmptyString \/ ends_with_separator path = true ->
      getBaseName path = "audiobook").
Proof.
  split; [apply getBaseName_no_separator|].
  intros H. unfold getBaseName.
  replace path with (path ++ EmptyString) by apply append_empty_r.
  now rewrite (name_after_dir path EmptyString H eq_refl).
Qed.

Lemma numeric_no_separator v :
  forallb Tagged.numeric_char v = true -> no_separator v = true.
Proof.
  apply forallb_weaken. intros c Hc. unfold is_separator.
  destruct (Ascii.eqb c "/") eqn:E1.
  - apply Ascii.eqb_eq in E1. subst c. discriminate Hc.
  - destruct (Ascii.eqb c backslash) eqn:E2; [|reflexivity].
    apply Ascii.eqb_eq in E2. subst c. discriminate Hc.
Qed.

Lemma mode_suffix_no_separator m : no_separator (mode_suffix m) = true.
Proof.
  unfold mode_suffix.
  destruct (String.eqb m "test-45s"); [reflexivity|].
  now destruct (String.eqb m "test-10s").
Qed.

Lemma output_name_no_separator m s : no_separator (output_name m s) = true.
Proof.
  unfold output_name. rewrite !cat_cons, cat_nil, append_empty_r.
  rewrite !no_separator_app.
  rewrite getBaseName_no_separator, mode_suffix_no_separator.
  now rewrite (numeric_no_separator _ (toString_numeric _)).
Qed.

Lemma mode_suffix_m4b m : exists t, mode_suffix m = t ++ ".m4b".
Proof.
  unfold mode_suffix.
  destruct (String.eqb m "test-45s"); [now exists "-preview-45s"|].
  destruct (String.eqb m "test-10s");
    [now exists "-preview-10s"|now exists "-processed"].
Qed.

Lemma output_path_split modeType s :
  getDynamicOutputPath modeType s
  = (if negb (endsWith "/" (exportPath s))
        && negb (endsWith bs (exportPath s))
     then exportPath s
          ++ (if includes bs (exportPath s) then bs else "/")
     else exportPath s) ++ output_name modeType s.
Proof.
  unfold getDynamicOutputPath, output_name, mode_suffix.
  destruct (String.eqb modeType "test-45s");
    [|destruct (String.eqb modeType "test-10s")];
    rewrite ?cat_cons, ?cat_nil, ?append_empty_r, ?append_assoc;
    reflexivity.
Qed.

Lemma output_path_parts modeType s :
  exists dir,
    getDynamicOutputPath modeType s = dir ++ output_name modeType s
    /\ ends_with_separator dir = true
    /\ (dir = exportPath s \/ dir = exportPath s ++ "/"
        \/ dir = exportPath s ++ bs).
Proof.
  rewrite (output_path_split modeType s).
  destruct (endsWith "/" (exportPath s)) eqn:E1;
    [|destruct (endsWith bs (exportPath s)) eqn:E2]; cbn [negb andb].
  - exists (exportPath s). unfold ends_with_separator. rewrite E1. auto.
  - exists (exportPath s). unfold ends_with_separator. rewrite E1, E2. auto.
  - destruct (includes bs (exportPath s)).
    + exists (exportPath s ++ bs). unfold ends_with_separator.
      rewrite (endsWith_app bs), orb_true_r. auto.
    + exists (exportPath s ++ "/"). unfold ends_with_separator.
      rewrite (endsWith_app "/"). auto.
Qed.

(** X3: The output path is the export path, a separator when it has none at
    its end, and a file name without separators that ends in [.m4b]: the
    file is written into the export directory itself. *)
Theorem output_path_shape modeType s :
  let out := getDynamicOutputPath modeType s in
  pop (split_where is_separator out) = Some (output_name modeType s)
  /\ endsWith ".m4b" out = true
  /\ exists dir,
       out = dir ++ output_name modeType s
       /\ ends_with_separator dir = true
       /\ (dir = exportPath s \/ dir = exportPath s ++ "/"
           \/ dir = exportPath s ++ bs).
Proof.
  intros out. subst out.
  destruct (output_path_parts modeType s) as (dir & E & Hd & Hor).
  split; [|split; [|now exists dir]].
  - rewrite E. apply name_after_dir; [now right|].
    apply output_name_no_separator.
  - rewrite E. unfold output_name.
    destruct (mode_suffix_m4b modeType) as [t ->].
    rewrite !cat_cons, cat_nil, append_empty_r, <- !append_assoc.
    apply endsWith_app.
Qed.

End PathProps.

Module UploadProps.
Import Str StrFacts NumText Text TextFacts JS Types App Utils Studio PathProps.

Lemma separator_choice (b : bool) :
  exists c, (if b then bs else "/") = String c EmptyString
            /\ is_separator c = true.
Proof. destruct b; [now exists backslash|now exists "/"%char]. Qed.

(** X4: After the upload of a file whose name has no separator, the input path
    is the export directory followed by the name, the export directory ends
    with a separator, the output lands next to the input under the base
    name of the file, and the previous analysis is gone, so that there are
    no diagnostics.  The files after the first are ignored. *)
Theorem upload_paths s file rest modeType :
  no_separator (file_name file) = true ->
  let s' := handleFileUpload (file :: rest) s in
  sourceFile s' = Some file
  /\ inputPath s' = exportPath s' ++ file_name file
  /\ ends_with_separator (exportPath s') = true
  /\ getBaseName (inputPath s') = getBaseName (file_name file)
  /\ getDynamicOutputPath modeType s'
     = exportPath s' ++ output_name modeType s'
  /\ analysis (core s') = None
  /\ getDiagnosticIssues (analysis (core s')) = [].
Proof.
  intros Hn s'.
  set (base := trim (baseDir s)).
  set (dir := if endsWith "/" base || endsWith bs base
              then slice_0_m1 base else base).
  destruct (separator_choice (includes bs base)) as (c & Ec & Hc).
  assert (Ei : inputPath s' = (dir ++ String c EmptyString) ++ file_name file).
  { subst s'. cbn. fold base. fold dir. rewrite Ec.
    now rewrite ?append_empty_r, ?append_assoc. }
  assert (Ee : exportPath s' = dir ++ String c EmptyString).
  { subst s'. cbn. fold base. fold dir. rewrite Ec.
    now rewrite ?append_empty_r. }
  assert (He : ends_with_separator (exportPath s') = true).
  { rewrite Ee. unfold ends_with_separator, is_separator in *.
    apply orb_true_iff in Hc as [Hc|Hc]; apply Ascii.eqb_eq in Hc; subst c.
    - now rewrite (endsWith_app "/").
    - change (String backslash EmptyString) with bs.
      now rewrite (endsWith_app bs), orb_true_r. }
  split; [reflexivity|]. split; [now rewrite Ei, Ee|]. split; [exact He|].
  split.
  - unfold getBaseName. rewrite Ei, <- Ee.
    rewrite (name_after_dir _ _ (or_intror He) Hn).
    now rewrite (name_last_piece _ Hn).
  - split; [|split; reflexivity].
    rewrite output_path_split. unfold ends_with_separator in He.
    destruct (endsWith "/" (exportPath s')); [reflexivity|].
    cbn [orb] in He. now rewrite He.
Qed.

Lemma upload_paths_witness :
  let file := {| file_name := "book.m4b"; file_size := 1000 |} in
  let s' := handleFileUpload [file] initial in
  no_separator (file_name file) = true
  /\ sourceFile s' = Some file
  /\ inputPath s' = exportPath s' ++ file_name file
  /\ ends_with_separator (exportPath s') = true
  /\ getBaseName (inputPath s') = getBaseName (file_name file)
  /\ getDynamicOutputPath "full" s' = exportPath s' ++ output_name "full" s'
  /\ analysis (core s') = None
  /\ getDiagnosticIssues (analysis (core s')) = [].
Proof.
  intros file s'. split; [reflexivity|].
  exact (upload_paths initial file [] "full" eq_refl).
Defined.

(** Without a chosen file the upload changes nothing. *)
Lemma upload_nothing s : handleFileUpload [] s = s.
Proof. reflexivity. Qed.

End UploadProps.

(* ================================================================= *)
(** ** Runs of the handlers *)

Module SessionProps.
Import JS Types App Utils Studio Session.

Lemma addLog_length msg st :
  List.length (terminalLog (addLog msg st))
  = S (Nat.min (List.length (terminalLog st)) 6).
Proof.
  unfold addLog. cbn [terminalLog].
  rewrite length_app, length_skipn. cbn [List.length]. lia.
Qed.

Lemma addLog_bound msg st :
  (List.length (terminalLog (addLog msg st)) <= 7)%nat.
Proof. rewrite addLog_length. lia. Qed.

Lemma applyPreset_log presetId st :
  (List.length (terminalLog st) <= 7)%nat ->
  (List.length (terminalLog (applyPreset presetId st)) <= 7)%nat.
Proof.
  intros H. unfold applyPreset.
  destruct (find _ PRESETS); [apply addLog_bound|exact H].
Qed.

Lemma runClientAnalysis_log sourceFile decoded st :
  (List.length (terminalLog (runClientAnalysis sourceFile decoded st)) <= 7)%nat.
Proof.
  unfold runClientAnalysis.
  destruct sourceFile; [destruct decoded|]; apply addLog_bound.
Qed.

Lemma step_log a s :
  (log_length s <= 7)%nat -> (log_length (step a s) <= 7)%nat.
Proof.
  unfold log_length. intros H.
  destruct a as [v|v|v|files|decoded|k v|presetId|type|text];
    cbn [step]; try exact H.
  - destruct files as [|file rest]; [exact H|].
    cbn [handleFileUpload on_core core]. apply addLog_bound.
  - apply runClientAnalysis_log.
  - now apply applyPreset_log.
  - apply addLog_bound.
Qed.

(** X5: The terminal log never holds more than seven lines: whatever handlers
    are called, in whatever order, a log of at most seven lines stays one;
    the log of the initial state is empty. *)
Theorem log_bounded l s :
  (log_length s <= 7)%nat -> (log_length (run l s) <= 7)%nat.
Proof.
  unfold run. revert s. induction l as [|a l IH]; intros s H; [exact H|].
  cbn [fold_left]. apply IH. now apply step_log.
Qed.

Lemma log_bounded_witness :
  (log_length initial <= 7)%nat
  /\ (log_length (run nine_copies initial) <= 7)%nat.
Proof.
  assert (H : (log_length initial <= 7)%nat) by (cbn; lia).
  split; [exact H|]. exact (log_bounded nine_copies initial H).
Defined.

(** *** The bounds of the controls *)

Local Opaque lit leb.

Lemma set_within k v c :
  in_range k v = true -> within_ranges c = true ->
  within_ranges (set k v c) = true.
Proof.
  unfold within_ranges, all_keys. cbn [List.forallb].
  intros Hv H. repeat (apply andb_true_iff in H as [? H]).
  destruct k; cbn [get set key_eqb highpassFreq lowpassFreq deesserFreq
    deesserAmount noiseReduction compressionAmount loudnormTarget loudnormTp
    loudnormLra bitrate flacCompressionLevel] in *;
    repeat match goal with
           | E : in_range _ _ = true |- _ => rewrite E; clear E
           end; reflexivity.
Qed.

Lemma spread_within p : forall c,
  List.forallb (fun kv => in_range (fst kv) (snd kv)) p = true ->
  within_ranges c = true -> within_ranges (spread c p) = true.
Proof.
  unfold spread. induction p as [|[k v] p IH]; intros c Hp Hc; [exact Hc|].
  cbn [fold_left List.forallb fst snd] in *.
  apply andb_true_iff in Hp as [H1 H2].
  apply IH; [exact H2|now apply set_within].
Qed.

Local Transparent lit leb.

(** Every value of every preset lies within the bounds of its control. *)
Lemma presets_within :
  List.forallb (fun p => List.forallb (fun kv => in_range (fst kv) (snd kv))
                                      (Types.config p))
               PRESETS = true.
Proof. vm_compute. reflexivity. Qed.

Lemma default_within : within_ranges DEFAULT_CONFIG = true.
Proof. vm_compute. reflexivity. Qed.

Lemma applyPreset_within presetId st :
  within_ranges (config st) = true ->
  within_ranges (config (applyPreset presetId st)) = true.
Proof.
  intros H. unfold applyPreset.
  destruct (find _ PRESETS) as [preset|] eqn:E; [|exact H].
  apply find_some in E as [E _].
  pose proof presets_within as P. rewrite List.forallb_forall in P.
  cbn [addLog setConfig config]. apply spread_within; [exact (P _ E)|exact H].
Qed.

Lemma runClientAnalysis_config sourceFile decoded st :
  config (runClientAnalysis sourceFile decoded st) = config st.
Proof.
  unfold runClientAnalysis.
  destruct sourceFile; [destruct decoded|]; reflexivity.
Qed.

Lemma step_within a s :
  update_in_range a = true ->
  within_ranges (config (core s)) = true ->
  within_ranges (config (core (step a s))) = true.
Proof.
  intros Ha H.
  destruct a as [v|v|v|files|decoded|k v|presetId|type|text];
    cbn [step]; try exact H.
  - destruct files as [|file rest]; exact H.
  - cbn [analyseSource on_core core]. now rewrite runClientAnalysis_config.
  - cbn [on_core core updateConfig setConfig config].
    now apply set_within.
  - cbn [on_core core]. now apply applyPreset_within.
Qed.

(** X6: The configuration stays within the bounds of the controls: it starts
    there, every preset value lies within the bounds of its control, and no
    other handler touches it; so when the values passed to [updateConfig]
    respect the bounds, every field does after any run of the handlers. *)
Theorem config_within_ranges l s :
  List.forallb update_in_range l = true ->
  within_ranges (config (core s)) = true ->
  within_ranges (config (core (run l s))) = true.
Proof.
  unfold run. revert s. induction l as [|a l IH]; intros s Hl H; [exact H|].
  cbn [fold_left List.forallb] in *. apply andb_true_iff in Hl as [Ha Hl].
  apply IH; [exact Hl|]. now apply step_within.
Qed.

Lemma config_within_ranges_witness :
  List.forallb update_in_range some_changes = true
  /\ within_ranges (config (core initial)) = true
  /\ within_ranges (config (core (run some_changes initial))) = true.
Proof.
  assert (H1 : List.forallb update_in_range some_changes = true)
    by (vm_compute; reflexivity).
  assert (H2 : within_ranges (config (core initial)) = true)
    by (vm_compute; reflexivity).
  split; [exact H1|]. split; [exact H2|].
  exact (config_within_ranges some_changes initial H1 H2).
Defined.

End SessionProps.

(* ================================================================= *)
(** ** More on the analysis *)

Module AnalysisProps.
Import JS Types App Spec ScanFacts Studio.

Local Opaque windowSize lit.

Lemma windows_short l :
  l <> [] -> (List.length l <= windowSize)%nat -> windows windowSize l = [l].
Proof.
  intros Hne Hl. unfold windows.
  destruct l as [|x r]; [congruence|].
  cbn [List.length windows_fuel].
  rewrite firstn_all2 by exact Hl. rewrite skipn_all2 by exact Hl.
  now destruct (List.length r).
Qed.

Lemma noise_rms_short l :
  l <> [] -> (List.length l <= windowSize)%nat ->
  noise_rms l = or_else (rms l) (lit 1 (-7)).
Proof.
  intros Hne Hl. unfold noise_rms, window_rms.
  rewrite (windows_short l Hne Hl). cbn [List.map].
  unfold ascending, sort. cbn [fold_right sort_insert].
  unfold decile. cbn [List.length].
  rewrite (decile_index 1) by (cbn; lia). reflexivity.
Qed.

(** X7: A buffer of at most one window (1 to 4096 samples) has a single
    per-window RMS, its overall RMS: when that is not zero the noise floor
    reported is the loudness reported; when it is zero the two fall back
    to -140 dB and -160 dB. *)
Theorem short_buffer_noise_floor fileSize audioBuffer :
  let rawData := channelData0 audioBuffer in
  let a := analyse fileSize audioBuffer in
  rawData <> [] ->
  (List.length rawData <= 4096)%nat ->
  (truthy (rms rawData) = true -> noiseFloor a = estLufs a)
  /\ (truthy (rms rawData) = false ->
      estLufs a = lit (-160) 0 /\ noiseFloor a = lit (-140) 0).
Proof.
  intros rawData a Hne Hl. change 4096%nat with windowSize in Hl.
  subst a. rewrite analyse_spec. cbn [noiseFloor estLufs]. fold rawData.
  rewrite (noise_rms_short rawData Hne Hl). unfold or_else.
  destruct floor_levels as [E1 E2].
  split; intros H; rewrite H; cbv iota; [reflexivity|].
  rewrite E1, E2. split; reflexivity.
Qed.

Lemma short_buffer_noise_floor_witness :
  let rawData := channelData0 half_scale in
  let a := analyse 0 half_scale in
  rawData <> [] /\ (List.length rawData <= 4096)%nat
  /\ (truthy (rms rawData) = true -> noiseFloor a = estLufs a)
  /\ (truthy (rms rawData) = false ->
      estLufs a = lit (-160) 0 /\ noiseFloor a = lit (-140) 0).
Proof.
  intros rawData a.
  assert (H1 : rawData <> []) by discriminate.
  assert (H2 : (List.length rawData <= 4096)%nat) by (cbn; lia).
  split; [exact H1|]. split; [exact H2|].
  exact (short_buffer_noise_floor 0 half_scale H1 H2).
Defined.

(** X8: An analysis run touches the stored report only when the decoder
    succeeds: without a source file, or when the decoder throws, the report
    and the configuration stay as they were and the log ends with the
    error; on success the report is the new one, with the duration and the
    sample rate of the buffer, marked as an estimate exactly when the file
    is larger than the 50 MiB that are read. *)
Theorem analysis_outcome sourceFile decoded st :
  let st' := runClientAnalysis sourceFile decoded st in
  config st' = config st
  /\ match sourceFile, decoded with
     | None, _ =>
         analysis st' = analysis st
         /\ last (terminalLog st') EmptyString
            = "> ERROR: NO SOURCE FILE LOADED IN BROWSER MEMORY"
     | Some _, inl _ =>
         analysis st' = analysis st
         /\ last (terminalLog st') EmptyString
            = "> TIP: If scanning M4B, 'moov' atom might be missing from start."
     | Some fileSize, inr audioBuffer =>
         exists a,
           analysis st' = Some a
           /\ duration a = buffer_duration audioBuffer
           /\ sampleRate a = buffer_sampleRate audioBuffer
           /\ isEst a = (52428800 <? fileSize)
           /\ last (terminalLog st') EmptyString = "> ANALYSIS SUCCESSFUL"
     end.
Proof.
  intros st'. subst st'. unfold runClientAnalysis.
  destruct sourceFile as [fileSize|]; [destruct decoded as [m|audioBuffer]|];
    (split; [reflexivity|]).
  - split; [reflexivity|]. unfold addLog at 1. cbn [terminalLog].
    apply last_last.
  - exists (analyse fileSize audioBuffer).
    split; [reflexivity|]. rewrite analyse_spec.
    repeat (split; [reflexivity|]).
    unfold addLog at 1. cbn [terminalLog]. apply last_last.
  - split; [reflexivity|]. unfold addLog. cbn [terminalLog].
    apply last_last.
Qed.

(** X9: The diagnostics of a silent recording: the clean noise floor at
    -140 dB and the low input level at -160 dB, then the remark on the
    sample rate if it is not 44100 Hz. *)
Theorem silence_diagnostics fileSize audioBuffer :
  Forall (fun x => is_zero x = true) (channelData0 audioBuffer) ->
  let a := analyse fileSize audioBuffer in
  getDiagnosticIssues (Some a)
  = ([{| type := good; msg := "Clean noise floor (-140dB)." |};
      {| type := info;
         msg := "Low input level (-160dB). Compression will add significant gain." |}]
     ++ rate_issue a)%list.
Proof.
  intros H a.
  destruct (silent_levels fileSize audioBuffer H) as (E1 & E2 & E3).
  fold a in E1, E2, E3.
  unfold getDiagnosticIssues, noise_issue, peak_issue.
  rewrite E2, E3.
  assert (N : (ltb (lit (-45) 0) (lit (-140) 0) = false
               /\ ltb (lit (-60) 0) (lit (-140) 0) = false)
              /\ (ltb (lit (-5) (-1)) (lit (-160) 0) = false
                  /\ ltb (lit (-160) 0) (lit (-12) 0) = true)
              /\ toString (lit (-140) 0) = "-140"
              /\ toString (lit (-160) 0) = "-160")
    by (vm_compute; repeat split).
  destruct N as ((N1 & N2) & (N3 & N4) & T1 & T2).
  rewrite N1, N2, N3, N4, T1, T2. reflexivity.
Qed.

Lemma silence_diagnostics_witness :
  let a := analyse 0 silence in
  Forall (fun x => is_zero x = true) (channelData0 silence)
  /\ getDiagnosticIssues (Some a)
     = ([{| type := good; msg := "Clean noise floor (-140dB)." |};
         {| type := info;
            msg := "Low input level (-160dB). Compression will add significant gain." |}]
        ++ rate_issue a)%list.
Proof.
  assert (H : Forall (fun x => is_zero x = true) (channelData0 silence))
    by (repeat constructor).
  split; [exact H|]. exact (silence_diagnostics 0 silence H).
Defined.

(** X20: The two nested loops of the scan go through the buffer once, in order:
    the overall sum of squares is the sum over all samples from left to
    right, the peak the running maximum of their absolute values, and there
    is one RMS per window of 4096 samples (the last window shorter when the
    length is no multiple), taken over the samples of that window alone;
    the number of windows is the length divided by 4096, rounded up. *)
Theorem scan_refines rawData :
  sumSquares (scan rawData) = sum_squares rawData
  /\ peak (scan rawData) = peak_from (lit 0 0) rawData
  /\ rmsWindows (scan rawData) = List.map rms (windows 4096 rawData)
  /\ List.length (rmsWindows (scan rawData))
     = ((List.length rawData + 4095) / 4096)%nat.
Proof.
  rewrite scan_spec. cbn [sumSquares peak rmsWindows].
  repeat (split; [reflexivity|]).
  unfold window_rms, windows. rewrite length_map.
  rewrite (windows_count windowSize windowSize_pos) by lia.
  change windowSize with 4096%nat. f_equal. lia.
Qed.

Local Transparent windowSize lit.

End AnalysisProps.

(* ================================================================= *)
(** ** Shell variables and the measuring pass *)

Module ShellFacts.
Import Str StrFacts Tagged TaggedFacts TextFacts TaggedShell.

Lemma first_with_ok w ls o :
  wfls ls -> first_with w ls = Some o ->
  Shell.first_with w (List.map render ls) = option_map render o
  /\ (forall l, o = Some l -> wfl l).
Proof.
  intros Hw. revert o. induction Hw as [|l ls Hl Hls IH]; intros o H.
  - injection H as <-. split; [reflexivity|discriminate].
  - cbn [first_with bind] in H. cbn [List.map Shell.first_with].
    destruct (pstarts w l) as [b|] eqn:E; [|discriminate].
    rewrite (pstarts_ok _ _ _ E). destruct b.
    + injection H as <-. split; [reflexivity|].
      intros l' [= <-]. exact Hl.
    + now apply IH.
Qed.

Lemma drop_past n s t :
  Nat.leb n (String.length s) = false ->
  drop n (s ++ t) = drop (n - String.length s) t.
Proof.
  revert n; induction s as [|c s IH]; intros n H.
  - cbn. now rewrite Nat.sub_0_r.
  - destruct n as [|n]; [discriminate|]. cbn. now apply IH.
Qed.

Lemma pdrops_ok ps : forall n r,
  wfl ps -> pdrops ps n = Some r -> drop n (render ps) = render r /\ wfl r.
Proof.
  induction ps as [|p ps IH]; intros n r Hw H.
  - destruct n; cbn [pdrops] in H; [|discriminate].
    injection H as <-. now split.
  - destruct n as [|n]; [injection H as <-; now split|].
    cbn [pdrops] in H. destruct p as [s|s|s]; try discriminate.
    inversion Hw as [|? ? Hp Hps]; subst.
    rewrite render_cons. cbn [text].
    destruct (Nat.leb (S n) (String.length s)) eqn:E.
    + injection H as <-. rewrite render_cons. cbn [text].
      split; [now apply drop_app|now constructor].
    + rewrite (drop_past _ _ _ E). now apply IH.
Qed.

Lemma length_rev s : String.length (rev s) = String.length s.
Proof.
  induction s as [|c s IH]; [reflexivity|].
  rewrite rev_cons, length_app, IH. cbn. lia.
Qed.

Lemma endsWith_q_app a s :
  s <> EmptyString -> endsWith q (a ++ s) = endsWith q s.
Proof.
  intros Hs. unfold endsWith. rewrite rev_app, startsWith_app.
  rewrite !length_rev. destruct s as [|c s]; [congruence|]. reflexivity.
Qed.

Lemma take_app_past a s n :
  take (String.length a + n) (a ++ s) = a ++ take n s.
Proof. induction a as [|c a IH]; cbn; [reflexivity|now rewrite IH]. Qed.

Lemma unquote_end_app a s :
  s <> EmptyString ->
  Shell.unquote_end (a ++ s)
  = option_map (String.append a) (Shell.unquote_end s).
Proof.
  intros Hs. unfold Shell.unquote_end. rewrite (endsWith_q_app a s Hs).
  destruct (endsWith q s); [|reflexivity]. cbn [option_map].
  rewrite length_app. destruct s as [|c s]; [congruence|].
  cbn [String.length].
  replace (String.length a + S (String.length s) - 1)%nat
    with (String.length a + String.length s)%nat by lia.
  replace (S (String.length s) - 1)%nat with (String.length s) by lia.
  now rewrite take_app_past.
Qed.

Lemma unquote_end_known ps : forall o,
  unquote_end ps = Some o -> exists s, render ps = s /\ s <> EmptyString.
Proof.
  induction ps as [|p ps IH]; intros o H; [discriminate|].
  cbn [unquote_end] in H. destruct ps as [|p' ps].
  - destruct p as [s|s|s]; try discriminate.
    destruct (String.eqb s EmptyString) eqn:E; [discriminate|].
    exists s. unfold render; cbn. rewrite ?append_empty_r.
    split; [reflexivity|]. intros ->. discriminate.
  - destruct (unquote_end (p' :: ps)) as [o'|] eqn:E'; [|discriminate].
    destruct (IH _ eq_refl) as (s & Es & Hs).
    exists (text p ++ s). rewrite render_cons, Es. split; [reflexivity|].
    destruct (text p); [exact Hs|discriminate].
Qed.

Lemma unquote_end_ok ps : forall o,
  unquote_end ps = Some o ->
  Shell.unquote_end (render ps) = option_map render o.
Proof.
  induction ps as [|p ps IH]; intros o H; [discriminate|].
  pose proof H as H'. cbn [unquote_end] in H. destruct ps as [|p' ps].
  - destruct p as [s|s|s]; try discriminate.
    destruct (String.eqb s EmptyString); [discriminate|].
    injection H as <-. unfold render; cbn [List.map text cat String.concat].
    unfold Shell.unquote_end.
    destruct (endsWith q s); [|reflexivity]. reflexivity.
  - destruct (unquote_end (p' :: ps)) as [o'|] eqn:E'; [|discriminate].
    injection H as <-.
    destruct (unquote_end_known _ _ E') as (s & Es & Hs).
    rewrite render_cons, Es, (unquote_end_app _ _ Hs), <- Es.
    rewrite (IH _ eq_refl).
    destruct o' as [l|]; [|reflexivity]. cbn [option_map].
    now rewrite render_cons.
Qed.

Lemma variable_ok script ls name o :
  lines script = List.map render ls -> wfls ls ->
  variable ls name = Some o ->
  Shell.variable script name = option_map render o.
Proof.
  unfold variable, Shell.variable, bind. intros -> Hw H.
  destruct (first_with _ ls) as [fo|] eqn:Ef; [|discriminate].
  destruct (first_with_ok _ _ _ Hw Ef) as [H1 H2]. rewrite H1.
  destruct fo as [l|]; cbn [option_map]; [|now injection H as <-].
  destruct (pdrops l _) as [r|] eqn:Ed; [|discriminate].
  destruct (pdrops_ok _ _ _ (H2 _ eq_refl) Ed) as [H3 _]. rewrite H3.
  now apply unquote_end_ok.
Qed.

Lemma word_after_ok w ws : forall o,
  word_after w ws = Some o ->
  Shell.word_after w (List.map render ws) = option_map render o.
Proof.
  induction ws as [|x ws IH]; intros o H.
  - now injection H as <-.
  - cbn [word_after bind] in H. cbn [List.map Shell.word_after].
    destruct (on_text _ x) as [s|] eqn:E; [|discriminate].
    unfold bind in H. rewrite (on_text_id _ _ E).
    destruct (String.eqb s w); [|now apply IH].
    injection H as <-. now destruct ws.
Qed.

Lemma word_after_In w ws o l :
  word_after w ws = Some o -> o = Some l -> In l ws.
Proof.
  revert o; induction ws as [|x ws IH]; intros o H Ho.
  - injection H as <-. discriminate.
  - cbn [word_after bind] in H.
    destruct (on_text _ x) as [s|]; [|discriminate].
    unfold bind in H. destruct (String.eqb s w).
    + injection H as <-. destruct ws; [discriminate|].
      injection Ho as <-. right. now left.
    + right. now apply (IH o).
Qed.

Lemma measurement_ok script ls o :
  lines script = List.map render ls -> wfls ls ->
  measurement ls = Some o ->
  Shell.measurement script = option_map render o
  /\ (forall f, o = Some f -> wfl f).
Proof.
  unfold measurement, Shell.measurement, bind. intros -> Hw H.
  destruct (first_with _ ls) as [fo|] eqn:Ef; [|discriminate].
  destruct (first_with_ok _ _ _ Hw Ef) as [H1 H2]. rewrite H1.
  destruct fo as [l|]; cbn [option_map];
    [|injection H as <-; split; [reflexivity|discriminate]].
  destruct (psplit " " l) as [gs|] eqn:Es; [|discriminate].
  destruct (psplit_ok _ _ _ (H2 _ eq_refl) Es) as [H3 H4]. rewrite H3.
  split; [now apply word_after_ok|].
  intros f ->. rewrite Forall_forall in H4.
  exact (H4 _ (word_after_In _ _ _ _ H eq_refl)).
Qed.

Lemma measurement_option_ok script ls k o :
  lines script = List.map render ls -> wfls ls ->
  measurement_option ls k = Some o ->
  Shell.measurement_option script k = option_map render o.
Proof.
  unfold measurement_option, Shell.measurement_option, bind. intros Hl Hw H.
  destruct (measurement ls) as [fo|] eqn:Em; [|discriminate].
  destruct (measurement_ok _ _ _ Hl Hw Em) as [H1 H2]. rewrite H1.
  destruct fo as [f|]; cbn [option_map]; [|now injection H as <-].
  destruct (filter_options f) as [kvs|] eqn:Eo; [|discriminate].
  injection H as <-.
  now rewrite (filter_options_ok _ _ (H2 _ eq_refl) Eo), assoc_ok.
Qed.

End ShellFacts.

(* ================================================================= *)
(** ** More on the generated script *)

Module ScriptProps.
Import Str JS Types Utils StrFacts NumText Tagged TaggedFacts Spec ScriptFacts.
Import ShellFacts.

Ltac by_variable name :=
  match goal with
  | L : lines ?s = List.map render ?t, W : wfls ?t |- _ =>
      let N := fresh "N" in
      eassert (N : TaggedShell.variable t name = Some _)
        by (vm_compute; reflexivity);
      rewrite (variable_ok _ _ _ _ L W N); clear N
  end.

Ltac by_measure k :=
  match goal with
  | L : lines ?s = List.map render ?t, W : wfls ?t |- _ =>
      let N := fresh "N" in
      eassert (N : TaggedShell.measurement_option t k = Some _)
        by (vm_compute; reflexivity);
      rewrite (measurement_option_ok _ _ _ _ L W N); clear N
  end.

Ltac read_passthrough :=
  by_option "highpass" "f"; by_option "lowpass" "f";
  by_option "loudnorm" "I"; by_option "loudnorm" "TP";
  by_option "loudnorm" "LRA"; by_option "alimiter" "limit".

Lemma preview_facts config si so d :
  no_lf si = true -> no_lf so = true ->
  let script := preview_script config si so d in
  Shell.passthrough config script
  /\ (Script.phases script = [] /\ Script.fallbacks script = []
      /\ Script.cleanup script = []
      /\ Script.filter_option script "loudnorm" "measured_I" = None
      /\ Script.filter_option script "loudnorm" "linear" = None
      /\ Shell.measurement_option script "I" = None)
  /\ (nth_error (lines script) 0
      = Some (cat ["ffmpeg -nostdin -ss 00:05:00 -i "; q; si; q; " -t ";
                   toString d; " "; bs])
      /\ nth_error (lines script) 6
         = Some (cat ["-vn -c:a aac -b:a "; toString (bitrate config); "k ";
                      q; so; q])
      /\ List.length (lines script) = 7%nat).
Proof.
  intros Hsi Hso script; subst script. unfold Shell.passthrough.
  read_script. read_passthrough.
  by_reading phases_ok. by_reading fallbacks_ok. by_reading cleanup_ok.
  by_option "loudnorm" "measured_I". by_option "loudnorm" "linear".
  by_measure "I". rewrite L.
  cbn [List.map option_map fst snd nth_error List.length].
  unfold render_pair, render_option, render; cbn [List.map text fst snd].
  repeat (progress (rewrite ?cat_cons, ?cat_nil, ?append_empty_r, ?append_assoc;
                    cbn [String.append]));
  repeat split; reflexivity.
Qed.

Lemma full_facts config si so :
  no_lf si = true -> no_lf so = true ->
  let script := full_script config si so in
  Shell.passthrough config script
  /\ (Shell.variable script "INPUT" = Some si
      /\ Shell.variable script "OUTPUT" = Some so
      /\ Shell.variable script "TEMP_FLAC"
         = Some "/tmp/temp_analysis_$(date +%s).flac")
  /\ (Shell.measurement_option script "I"
      = Some (toString (loudnormTarget config))
      /\ Shell.measurement_option script "TP"
         = Some (toString (loudnormTp config))
      /\ Shell.measurement_option script "LRA"
         = Some (toString (loudnormLra config))
      /\ Shell.measurement_option script "print_format" = Some "json"
      /\ Script.filter_option script "loudnorm" "print_format"
         = Some "summary"
      /\ Script.filter_option script "loudnorm" "linear" = Some "true").
Proof.
  intros Hsi Hso script; subst script. unfold Shell.passthrough.
  read_script. read_passthrough.
  by_variable "INPUT". by_variable "OUTPUT". by_variable "TEMP_FLAC".
  by_measure "I". by_measure "TP". by_measure "LRA".
  by_measure "print_format".
  by_option "loudnorm" "print_format". by_option "loudnorm" "linear".
  cbn [List.map option_map fst snd].
  unfold render_pair, render_option, render; cbn [List.map text fst snd].
  repeat (progress (rewrite ?cat_cons, ?cat_nil, ?append_empty_r, ?append_assoc;
                    cbn [String.append]));
  repeat split; reflexivity.
Qed.

End ScriptProps.

Module CommandProps.
Import Str JS Types Utils StrFacts NumText Tagged TaggedFacts Spec ScriptFacts.
Import ScriptProps.

(** *** Paths *)

(** X10: [resolveShellPath] expands a leading [~/] once and for all: its result
    never starts with [~/], so that resolving twice is resolving once; a
    path that does not start with [~/] is left as it is. *)
Theorem resolveShellPath_resolved path :
  startsWith "~/" (resolveShellPath path) = false
  /\ resolveShellPath (resolveShellPath path) = resolveShellPath path
  /\ (startsWith "~/" path = false -> resolveShellPath path = path)
  /\ (forall rest, resolveShellPath ("~/" ++ rest) = "$HOME/" ++ rest).
Proof.
  assert (R : forall p, startsWith "~/" p = false -> resolveShellPath p = p).
  { intros p H. unfold resolveShellPath. rewrite H.
    now destruct (String.eqb p EmptyString). }
  assert (S : startsWith "~/" (resolveShellPath path) = false).
  { unfold resolveShellPath.
    destruct (String.eqb path EmptyString) eqn:E.
    - apply String.eqb_eq in E. now subst.
    - destruct (startsWith "~/" path) eqn:E'; [reflexivity|exact E']. }
  split; [exact S|]. split; [now apply R|]. split; [apply R|].
  intros rest. reflexivity.
Qed.

(** *** Options handed through *)

(** X11: The cutoffs, the loudness targets and the limit of the limiter are
    written into the command as the numbers of the configuration, in every
    mode.  (Paths of one line.) *)
Theorem passthrough_options config inputPath mode outputFilePath :
  no_lf inputPath = true -> no_lf_opt outputFilePath = true ->
  let script := generateFFmpegCommand config inputPath mode outputFilePath in
  Script.filter_option script "highpass" "f"
    = Some (toString (highpassFreq config))
  /\ Script.filter_option script "lowpass" "f"
    = Some (toString (lowpassFreq config))
  /\ Script.filter_option script "loudnorm" "I"
    = Some (toString (loudnormTarget config))
  /\ Script.filter_option script "loudnorm" "TP"
    = Some (toString (loudnormTp config))
  /\ Script.filter_option script "loudnorm" "LRA"
    = Some (toString (loudnormLra config))
  /\ Script.filter_option script "alimiter" "limit"
    = Some (toString (loudnormTp config) ++ "dB").
Proof.
  intros Hi Ho script. subst script.
  destruct (generate_shape config inputPath mode outputFilePath Hi Ho)
    as [si so Hsi Hso ->|si so d Hsi Hso ->].
  - exact (proj1 (full_facts config si so Hsi Hso)).
  - exact (proj1 (preview_facts config si so d Hsi Hso)).
Qed.

Lemma passthrough_options_witness :
  let script := generateFFmpegCommand DEFAULT_CONFIG book "full" mastered in
  no_lf book = true /\ no_lf_opt mastered = true
  /\ Script.filter_option script "highpass" "f"
    = Some (toString (highpassFreq DEFAULT_CONFIG))
  /\ Script.filter_option script "lowpass" "f"
    = Some (toString (lowpassFreq DEFAULT_CONFIG))
  /\ Script.filter_option script "loudnorm" "I"
    = Some (toString (loudnormTarget DEFAULT_CONFIG))
  /\ Script.filter_option script "loudnorm" "TP"
    = Some (toString (loudnormTp DEFAULT_CONFIG))
  /\ Script.filter_option script "loudnorm" "LRA"
    = Some (toString (loudnormLra DEFAULT_CONFIG))
  /\ Script.filter_option script "alimiter" "limit"
    = Some (toString (loudnormTp DEFAULT_CONFIG) ++ "dB").
Proof.
  intros script. split; [reflexivity|]. split; [reflexivity|].
  exact (passthrough_options DEFAULT_CONFIG book "full" mastered
           eq_refl eq_refl).
Defined.

(** *** The preview *)

(** X12: Outside the full mode the command is a single pass: no phases, no
    fallbacks, nothing to clean up, no measured values for [loudnorm] and
    no measuring command.  It starts five minutes into the input and lasts
    45 seconds in mode [test-45s], 10 seconds otherwise; the input and the
    output stand between double quotes, [~/] resolved.  (Paths of one
    line.) *)
Theorem preview_single_pass config inputPath mode outputFilePath :
  no_lf inputPath = true -> no_lf_opt outputFilePath = true ->
  mode <> "full" ->
  let script := generateFFmpegCommand config inputPath mode outputFilePath in
  let long := String.eqb mode "test-45s" in
  Script.phases script = [] /\ Script.fallbacks script = []
  /\ Script.cleanup script = []
  /\ Script.filter_option script "loudnorm" "measured_I" = None
  /\ Shell.measurement_option script "I" = None
  /\ List.length (lines script) = 7%nat
  /\ nth_error (lines script) 0
     = Some (cat ["ffmpeg -nostdin -ss 00:05:00 -i "; q;
                  resolveShellPath (str_or inputPath "input.m4b"); q;
                  " -t "; if long then "45" else "10"; " "; bs])
  /\ nth_error (lines script) 6
     = Some (cat ["-vn -c:a aac -b:a "; toString (bitrate config); "k "; q;
                  resolveShellPath
                    (opt_or outputFilePath
                       (if long then "preview-preview-45s.m4b"
                        else "preview-preview-10s.m4b"));
                  q]).
Proof.
  intros Hi Ho Hm script long.
  assert (E : script
              = preview_script config
                  (resolveShellPath (str_or inputPath "input.m4b"))
                  (resolveShellPath
                     (opt_or outputFilePath
                        (if long then "preview-preview-45s.m4b"
                         else "preview-preview-10s.m4b")))
                  (if long then lit 45 0 else lit 10 0)).
  { subst script long. unfold generateFFmpegCommand.
    destruct (String.eqb mode "full") eqn:E.
    - apply String.eqb_eq in E. contradiction.
    - now destruct (String.eqb mode "test-45s"). }
  rewrite E.
  assert (Hsi : no_lf (resolveShellPath (str_or inputPath "input.m4b")) = true)
    by now apply no_lf_input.
  assert (Hso : no_lf (resolveShellPath
                         (opt_or outputFilePath
                            (if long then "preview-preview-45s.m4b"
                             else "preview-preview-10s.m4b"))) = true)
    by (apply no_lf_output; [exact Ho|now destruct long]).
  destruct (preview_facts config _ _ (if long then lit 45 0 else lit 10 0)
              Hsi Hso) as (_ & (P1 & P2 & P3 & P4 & _ & P6) & (L0 & L6 & Ln)).
  repeat (split; [assumption|]).
  split; [|exact L6]. rewrite L0.
  assert (T : toString (if long then lit 45 0 else lit 10 0)
              = if long then "45" else "10")
    by (destruct long; vm_compute; reflexivity).
  now rewrite T.
Qed.

Lemma preview_single_pass_witness :
  let script := generateFFmpegCommand DEFAULT_CONFIG book "test-45s" None in
  no_lf book = true /\ no_lf_opt None = true /\ "test-45s" <> "full"
  /\ Script.phases script = [] /\ Script.fallbacks script = []
  /\ Script.cleanup script = []
  /\ Script.filter_option script "loudnorm" "measured_I" = None
  /\ Shell.measurement_option script "I" = None
  /\ List.length (lines script) = 7%nat
  /\ nth_error (lines script) 0
     = Some (cat ["ffmpeg -nostdin -ss 00:05:00 -i "; q;
                  resolveShellPath (str_or book "input.m4b"); q;
                  " -t "; "45"; " "; bs])
  /\ nth_error (lines script) 6
     = Some (cat ["-vn -c:a aac -b:a "; toString (bitrate DEFAULT_CONFIG);
                  "k "; q;
                  resolveShellPath (opt_or None "preview-preview-45s.m4b");
                  q]).
Proof.
  intros script.
  assert (Hm : "test-45s" <> "full") by discriminate.
  split; [reflexivity|]. split; [reflexivity|]. split; [exact Hm|].
  exact (preview_single_pass DEFAULT_CONFIG book "test-45s" None
           eq_refl eq_refl Hm).
Defined.

(** *** The full script *)

(** X13: In full mode the script reaches its files through three variables:
    [INPUT] holds the input path and [OUTPUT] the output path, each as
    given, with a leading [~/] resolved, and with [input.m4b] and
    [processed_audiobook.m4b] standing in for a missing one; [TEMP_FLAC]
    holds the name of the intermediate file.  (Paths of one line.) *)
Theorem full_script_variables config inputPath outputFilePath :
  no_lf inputPath = true -> no_lf_opt outputFilePath = true ->
  let script := generateFFmpegCommand config inputPath "full" outputFilePath in
  Shell.variable script "INPUT"
    = Some (resolveShellPath (str_or inputPath "input.m4b"))
  /\ Shell.variable script "OUTPUT"
    = Some (resolveShellPath (opt_or outputFilePath "processed_audiobook.m4b"))
  /\ Shell.variable script "TEMP_FLAC"
    = Some "/tmp/temp_analysis_$(date +%s).flac".
Proof.
  intros Hi Ho script. subst script. unfold generateFFmpegCommand.
  change (String.eqb "full" "full") with true. cbv iota.
  apply (full_facts config); [now apply no_lf_input|now apply no_lf_output].
Qed.

Lemma full_script_variables_witness :
  let script := generateFFmpegCommand DEFAULT_CONFIG book "full" None in
  no_lf book = true /\ no_lf_opt None = true
  /\ Shell.variable script "INPUT" = Some "$HOME/Desktop/book.m4b"
  /\ Shell.variable script "OUTPUT" = Some "processed_audiobook.m4b"
  /\ Shell.variable script "TEMP_FLAC"
    = Some "/tmp/temp_analysis_$(date +%s).flac".
Proof.
  intros script. split; [reflexivity|]. split; [reflexivity|].
  exact (full_script_variables DEFAULT_CONFIG book None eq_refl eq_refl).
Defined.

(** X14: The two passes of the full script agree: the measuring pass runs
    [loudnorm] with the same targets I, TP and LRA as the processing pass,
    the configured ones; it prints JSON, while the processing pass is linear
    and prints a summary.  (Paths of one line.) *)
Theorem two_pass_targets config inputPath outputFilePath :
  no_lf inputPath = true -> no_lf_opt outputFilePath = true ->
  let script := generateFFmpegCommand config inputPath "full" outputFilePath in
  (Shell.measurement_option script "I"
   = Script.filter_option script "loudnorm" "I"
   /\ Shell.measurement_option script "TP"
      = Script.filter_option script "loudnorm" "TP"
   /\ Shell.measurement_option script "LRA"
      = Script.filter_option script "loudnorm" "LRA")
  /\ Shell.measurement_option script "I"
     = Some (toString (loudnormTarget config))
  /\ Shell.measurement_option script "TP" = Some (toString (loudnormTp config))
  /\ Shell.measurement_option script "LRA"
     = Some (toString (loudnormLra config))
  /\ Shell.measurement_option script "print_format" = Some "json"
  /\ Script.filter_option script "loudnorm" "print_format" = Some "summary"
  /\ Script.filter_option script "loudnorm" "linear" = Some "true".
Proof.
  intros Hi Ho script. subst script. unfold generateFFmpegCommand.
  change (String.eqb "full" "full") with true. cbv iota.
  destruct (full_facts config _ _ (no_lf_input _ Hi)
              (no_lf_output _ "processed_audiobook.m4b" Ho eq_refl))
    as ((_ & _ & F1 & F2 & F3 & _) & _ & (M1 & M2 & M3 & M4 & M5 & M6)).
  rewrite M1, M2, M3, F1, F2, F3. repeat split; assumption.
Qed.

Lemma two_pass_targets_witness :
  let script := generateFFmpegCommand DEFAULT_CONFIG book "full" mastered in
  no_lf book = true /\ no_lf_opt mastered = true
  /\ (Shell.measurement_option script "I"
      = Script.filter_option script "loudnorm" "I"
      /\ Shell.measurement_option script "TP"
         = Script.filter_option script "loudnorm" "TP"
      /\ Shell.measurement_option script "LRA"
         = Script.filter_option script "loudnorm" "LRA")
  /\ Shell.measurement_option script "I"
     = Some (toString (loudnormTarget DEFAULT_CONFIG))
  /\ Shell.measurement_option script "TP"
     = Some (toString (loudnormTp DEFAULT_CONFIG))
  /\ Shell.measurement_option script "LRA"
     = Some (toString (loudnormLra DEFAULT_CONFIG))
  /\ Shell.measurement_option script "print_format" = Some "json"
  /\ Script.filter_option script "loudnorm" "print_format" = Some "summary"
  /\ Script.filter_option script "loudnorm" "linear" = Some "true".
Proof.
  intros script. split; [reflexivity|]. split; [reflexivity|].
  exact (two_pass_targets DEFAULT_CONFIG book mastered eq_refl eq_refl).
Defined.

End CommandProps.

(* ================================================================= *)
(** ** The script of a session *)

Module ShowProps.
Import Str JS Types App Utils StrFacts NumText Text TextFacts Spec ScriptFacts.
Import Studio PathProps ScriptProps.











End ShowProps.

(* ================================================================= *)
(** ** The order of the numbers *)

Module OrderFacts.
Import JS Order.

Ltac order_cases :=
  repeat match goal with
  | |- context [Z.compare ?a ?b] => destruct (Z.compare_spec a b)
  | |- context [PosDef.Pos.compare_cont Eq ?a ?b] =>
      change (PosDef.Pos.compare_cont Eq a b) with (Pos.compare a b);
      destruct (Pos.compare_spec a b)
  | H : context [Z.compare ?a ?b] |- _ => destruct (Z.compare_spec a b)
  | H : context [PosDef.Pos.compare_cont Eq ?a ?b] |- _ =>
      change (PosDef.Pos.compare_cont Eq a b) with (Pos.compare a b) in H;
      destruct (Pos.compare_spec a b)
  end.

Lemma ltb_rank x y :
  ltb x y = true
  <-> exists a b, rank x = Some a /\ rank y = Some b /\ lt3 a b.
Proof.
  unfold ltb, SFltb, lt3.
  destruct x as [sx|sx| |sx mx ex], y as [sy|sy| |sy my ey];
    try destruct sx; try destruct sy; cbn [SFcompare rank];
    (split;
     [intros H;
      first [discriminate H
            |eexists _, _;
             split; [reflexivity|split; [reflexivity|]]; cbn [fst snd];
             revert H; order_cases; cbn [CompOpp]; intros Hc;
             first [discriminate Hc | lia | exfalso; lia]]
     |intros (a & b & Ha & Hb & L);
      first [discriminate Ha | discriminate Hb
            |injection Ha as <-; injection Hb as <-; cbn [fst snd] in L;
             order_cases; cbn [CompOpp];
             first [reflexivity | lia | exfalso; lia]]]).
Qed.

Lemma leb_rank x y :
  leb x y = true
  <-> exists a b, rank x = Some a /\ rank y = Some b /\ (lt3 a b \/ a = b).
Proof.
  unfold leb, SFleb, lt3.
  destruct x as [sx|sx| |sx mx ex], y as [sy|sy| |sy my ey];
    try destruct sx; try destruct sy; cbn [SFcompare rank];
    (split;
     [intros H;
      first [discriminate H
            |eexists _, _;
             split; [reflexivity|split; [reflexivity|]]; cbn [fst snd];
             revert H; order_cases; cbn [CompOpp]; intros Hc;
             first [discriminate Hc | subst; now right | left; lia]]
     |intros (a & b & Ha & Hb & L);
      first [discriminate Ha | discriminate Hb
            |injection Ha as <-; injection Hb as <-; cbn [fst snd] in L;
             order_cases; cbn [CompOpp];
             first [reflexivity
                   |exfalso; destruct L as [L|L];
                    [lia|injection L; intros; lia]]]]).
Qed.

Lemma lt3_trans a b c : lt3 a b -> lt3 b c -> lt3 a c.
Proof. unfold lt3. lia. Qed.

Lemma lt3_irrefl a : ~ lt3 a a.
Proof. unfold lt3. lia. Qed.

Lemma ltb_trans x y z : ltb x y = true -> ltb y z = true -> ltb x z = true.
Proof.
  rewrite !ltb_rank. intros (a & b & Ha & Hb & L) (b' & c & Hb' & Hc & L').
  rewrite Hb in Hb'. injection Hb' as <-.
  exists a, c. repeat split; try assumption. now apply (lt3_trans a b c).
Qed.

Lemma ltb_irrefl x : ltb x x = false.
Proof.
  destruct (ltb x x) eqn:E; [|reflexivity].
  apply ltb_rank in E as (a & b & Ha & Hb & L).
  rewrite Ha in Hb. injection Hb as <-. now apply lt3_irrefl in L.
Qed.

Lemma leb_trans x y z : leb x y = true -> leb y z = true -> leb x z = true.
Proof.
  rewrite !leb_rank. intros (a & b & Ha & Hb & L) (b' & c & Hb' & Hc & L').
  rewrite Hb in Hb'. injection Hb' as <-.
  exists a, c. repeat split; try assumption.
  destruct L as [L| ->]; destruct L' as [L'| <-]; auto.
  left. now apply (lt3_trans a b c).
Qed.

Lemma leb_ltb_trans x y z :
  leb x y = true -> ltb y z = true -> ltb x z = true.
Proof.
  rewrite leb_rank, !ltb_rank.
  intros (a & b & Ha & Hb & L) (b' & c & Hb' & Hc & L').
  rewrite Hb in Hb'. injection Hb' as <-.
  exists a, c. repeat split; try assumption.
  destruct L as [L| ->]; [now apply (lt3_trans a b c)|exact L'].
Qed.

End OrderFacts.

(* ================================================================= *)
(** ** The peak of the scan *)

Module PeakProps.
Import JS Types App Spec ScanFacts OrderFacts.

Lemma peak_step_keeps p v a :
  ltb p a = false ->
  ltb (if ltb p (Math_abs v) then Math_abs v else p) a = false.
Proof.
  intros H. destruct (ltb p (Math_abs v)) eqn:E; [|exact H].
  destruct (ltb (Math_abs v) a) eqn:E'; [|reflexivity].
  now rewrite (ltb_trans _ _ _ E E') in H.
Qed.

Lemma peak_from_keeps w : forall acc a,
  ltb acc a = false -> ltb (peak_from acc w) a = false.
Proof.
  unfold peak_from. induction w as [|v w IH]; intros acc a H; [exact H|].
  cbn [fold_left]. apply IH. now apply peak_step_keeps.
Qed.

Lemma peak_from_bounds w : forall acc,
  Forall (fun x => ltb (peak_from acc w) (Math_abs x) = false) w.
Proof.
  induction w as [|v w IH]; intros acc; [constructor|].
  constructor; [|apply IH].
  change (peak_from acc (v :: w))
    with (peak_from (if ltb acc (Math_abs v) then Math_abs v else acc) w).
  apply peak_from_keeps.
  destruct (ltb acc (Math_abs v)) eqn:E; [apply ltb_irrefl|exact E].
Qed.

Lemma peak_from_origin w : forall acc,
  peak_from acc w = acc \/ exists x, In x w /\ peak_from acc w = Math_abs x.
Proof.
  induction w as [|v w IH]; intros acc; [now left|].
  change (peak_from acc (v :: w))
    with (peak_from (if ltb acc (Math_abs v) then Math_abs v else acc) w).
  destruct (IH (if ltb acc (Math_abs v) then Math_abs v else acc))
    as [E|(x & Hx & E)].
  - rewrite E. destruct (ltb acc (Math_abs v)); [|now left].
    right. exists v. split; [now left|reflexivity].
  - right. exists x. split; [now right|exact E].
Qed.

(** X16: The peak the scan ends with is the largest absolute value of the
    samples: no sample is above it, and it is the absolute value of one of
    them, or 0 when none is above 0. *)
Theorem scan_peak_is_largest rawData :
  let p := peak (scan rawData) in
  Forall (fun x => ltb p (Math_abs x) = false) rawData
  /\ (p = lit 0 0 \/ exists x, In x rawData /\ p = Math_abs x).
Proof.
  intros p. subst p. rewrite scan_spec. cbn [peak].
  split; [apply peak_from_bounds|apply peak_from_origin].
Qed.

End PeakProps.

(* ================================================================= *)
(** ** The labels of the controls *)

Module ImpactProps.
Import JS Order OrderFacts Impact.

Lemma compare_cont_same m : PosDef.Pos.compare_cont Eq m m = Eq.
Proof. exact (Pos.compare_cont_refl m Eq). Qed.

Lemma eqb_rank x y :
  eqb x y = true <-> exists a, rank x = Some a /\ rank y = Some a.
Proof.
  unfold eqb, SFeqb.
  destruct x as [sx|sx| |sx mx ex], y as [sy|sy| |sy my ey];
    try destruct sx; try destruct sy; cbn [SFcompare rank];
    (split;
     [intros H;
      first [discriminate H
            |revert H; order_cases; cbn [CompOpp]; intros Hc;
             first [discriminate Hc | subst; eexists; split; reflexivity]]
     |intros (a & Ha & Hb);
      first [discriminate Ha | discriminate Hb
            |rewrite <- Hb in Ha;
             first [discriminate Ha
                   |try (injection Ha; intros);
                    repeat match goal with
                           | E : - _ = - _ |- _ => apply Z.opp_inj in E
                           end;
                    subst; rewrite ?Z.compare_refl, ?compare_cont_same;
                    reflexivity]]]).
Qed.

(** Between [z] and a number equal to [z] there is only what equals [z]. *)
Lemma eqb_squeeze z x y :
  leb z x = true -> leb x y = true -> eqb y z = true -> eqb x z = true.
Proof.
  rewrite !leb_rank, !eqb_rank.
  intros (a & b & Ha & Hb & L) (b' & c & Hb' & Hc & L') (c' & Hc' & Hz).
  rewrite Hb in Hb'. injection Hb' as <-.
  rewrite Hc in Hc'. injection Hc' as <-.
  rewrite Ha in Hz. injection Hz as <-.
  exists a. split; [|exact Ha]. rewrite Hb. f_equal.
  destruct a as [[a1 a2] a3], b as [[b1 b2] b3]. unfold lt3 in *.
  cbn [fst snd] in *.
  destruct L as [L|L]; [|now symmetry].
  destruct L' as [L'|L']; [exfalso; lia|].
  injection L' as -> -> ->. exfalso. lia.
Qed.

Local Opaque lit.

Ltac tiers v1 v2 H :=
  repeat match goal with
  | |- context [leb v2 ?c] =>
      let E := fresh "E" in
      destruct (leb v2 c) eqn:E;
      [rewrite (leb_trans v1 v2 c H E)|]
  | |- context [ltb v2 ?c] =>
      let E := fresh "E" in
      destruct (ltb v2 c) eqn:E;
      [rewrite (leb_ltb_trans v1 v2 c H E)|]
  end;
  repeat match goal with
  | |- context [leb v1 ?c] => destruct (leb v1 c)
  | |- context [ltb v1 ?c] => destruct (ltb v1 c)
  | |- context [eqb v1 ?c] => destruct (eqb v1 c)
  end;
  cbn; lia.

(** X17: Along each control the labels come in their order: a larger value
    never gets an earlier label.  For the de-esser and the noise reduction,
    whose first label is that of the value 0, this holds from 0 on. *)
Theorem labels_monotone v1 v2 :
  leb v1 v2 = true ->
  (place frequency_labels (getFrequencyImpact v1)
   <= place frequency_labels (getFrequencyImpact v2))%nat
  /\ (place clarity_labels (getClarityImpact v1)
      <= place clarity_labels (getClarityImpact v2))%nat
  /\ (place compression_labels (getCompressionImpact v1)
      <= place compression_labels (getCompressionImpact v2))%nat
  /\ (place loudness_labels (getLoudnessImpact v1)
      <= place loudness_labels (getLoudnessImpact v2))%nat
  /\ (leb (lit 0 0) v1 = true ->
      (place deesser_labels (getDeesserImpact v1)
       <= place deesser_labels (getDeesserImpact v2))%nat
      /\ (place noise_labels (getNoiseImpact v1)
          <= place noise_labels (getNoiseImpact v2))%nat).
Proof.
  intros H.
  split; [unfold getFrequencyImpact; tiers v1 v2 H|].
  split; [unfold getClarityImpact; tiers v1 v2 H|].
  split; [unfold getCompressionImpact; tiers v1 v2 H|].
  split; [unfold getLoudnessImpact; tiers v1 v2 H|].
  intros H0.
  split; [unfold getDeesserImpact|unfold getNoiseImpact];
    (destruct (eqb v2 (lit 0 0)) eqn:Z;
     [rewrite (eqb_squeeze _ _ _ H0 H Z); cbn; lia|tiers v1 v2 H]).
Qed.

Lemma labels_monotone_witness :
  leb (lit 3 (-1)) (lit 5 (-1)) = true
  /\ leb (lit 0 0) (lit 3 (-1)) = true
  /\ (place deesser_labels (getDeesserImpact (lit 3 (-1)))
      <= place deesser_labels (getDeesserImpact (lit 5 (-1))))%nat.
Proof.
  assert (H : leb (lit 3 (-1)) (lit 5 (-1)) = true) by (vm_compute; reflexivity).
  assert (H0 : leb (lit 0 0) (lit 3 (-1)) = true) by (vm_compute; reflexivity).
  split; [exact H|]. split; [exact H0|].
  exact (proj1 (proj2 (proj2 (proj2 (proj2
           (labels_monotone (lit 3 (-1)) (lit 5 (-1)) H)))) H0)).
Defined.

Local Transparent lit.

End ImpactProps.

(* ================================================================= *)
(** ** More on the presets and on the noise reduction *)

Module PresetProps.
Import JS Types App Utils Spec.

Lemma spread_twice preset c :
  In preset PRESETS ->
  spread (spread c (Types.config preset)) (Types.config preset)
  = spread c (Types.config preset).
Proof.
  intros H. cbv [PRESETS] in H.
  repeat (destruct H as [<-|H]; [reflexivity|]). destruct H.
Qed.

(** X18: Applying a preset a second time changes nothing in the configuration;
    an identifier that no preset has leaves the whole state as it is, log
    included. *)
Theorem applyPreset_again presetId st :
  config (applyPreset presetId (applyPreset presetId st))
  = config (applyPreset presetId st)
  /\ (~ In presetId (List.map id PRESETS) -> applyPreset presetId st = st).
Proof.
  unfold applyPreset.
  destruct (find (fun p => String.eqb (id p) presetId) PRESETS)
    as [preset|] eqn:E.
  - apply find_some in E as [Hin Hid]. apply String.eqb_eq in Hid.
    split.
    + cbn [addLog setConfig config]. now apply spread_twice.
    + intros Hn. exfalso. apply Hn. rewrite <- Hid. now apply in_map.
  - split; reflexivity.
Qed.

End PresetProps.

Module DenoiseProps.
Import JS Types App Utils Spec Order Session.

Lemma same_eq x y : same x y = true -> x = y.
Proof.
  destruct x as [a|a| |a m e], y as [b|b| |b n f]; cbn [same];
    try discriminate; intros H.
  - apply Bool.eqb_prop in H. now subst.
  - apply Bool.eqb_prop in H. now subst.
  - reflexivity.
  - apply andb_true_iff in H as [H H3]. apply andb_true_iff in H as [H1 H2].
    apply Bool.eqb_prop in H1. apply Pos.eqb_eq in H2. apply Z.eqb_eq in H3.
    now subst.
Qed.

Lemma denoise_from_nth vs : forall start i v,
  denoise_from start vs = true -> nth_error vs i = Some v ->
  denoise_at (start + i) v = true.
Proof.
  induction vs as [|x vs IH]; intros start i v H Hn.
  - now destruct i.
  - cbn [denoise_from] in H. apply andb_true_iff in H as [H1 H2].
    destruct i as [|i]; cbn [nth_error] in Hn.
    + injection Hn as <-. now rewrite Nat.add_0_r.
    + rewrite <- Nat.add_succ_comm. now apply IH.
Qed.

Lemma denoise_slider : denoise_from 0 (slider k_noiseReduction) = true.
Proof. vm_compute. reflexivity. Qed.

(** X19: At position [i] of the noise reduction control (the value
    [i * 0.05], [i] from 0 to 20) the filter is given [nr = 2 i] and
    [nf = 2 i - 80]: [nr] runs from 0 to 40, [nf] from -80 to -40, and [nf]
    is always [nr - 80]. *)
Theorem denoise_pair config i :
  nth_error (slider k_noiseReduction) i = Some (noiseReduction config) ->
  nr config = of_Z (2 * Z.of_nat i)
  /\ nf config = of_Z (2 * Z.of_nat i - 80)
  /\ (i <= 20)%nat.
Proof.
  intros H.
  pose proof (denoise_from_nth _ 0 i _ denoise_slider H) as D.
  cbn [Nat.add] in D. unfold denoise_at in D.
  apply andb_true_iff in D as [D1 D2].
  apply same_eq in D1, D2.
  split; [exact D1|]. split; [exact D2|].
  assert (L : (i < List.length (slider k_noiseReduction))%nat)
    by (apply nth_error_Some; congruence).
  change (List.length (slider k_noiseReduction)) with 21%nat in L. lia.
Qed.

Lemma denoise_pair_witness :
  let config := set k_noiseReduction (lit 1 0) DEFAULT_CONFIG in
  nth_error (slider k_noiseReduction) 20 = Some (noiseReduction config)
  /\ nr config = of_Z 40 /\ nf config = of_Z (-40) /\ (20 <= 20)%nat.
Proof.
  intros config.
  assert (H : nth_error (slider k_noiseReduction) 20
              = Some (noiseReduction config)) by (vm_compute; reflexivity).
  split; [exact H|]. exact (denoise_pair config 20 H).
Defined.

End DenoiseProps.
